(** * Lynkr long-term memory engine: store, surprise scorer, retriever, tools

    A shallow embedding of the memory subsystem of the Lynkr LLM proxy
    ([src/memory/store.js], [src/memory/surprise.js],
    [src/memory/retriever.js], [src/memory/tools.js]) together with the
    properties its specification states about it.

    Conventions of the embedding:
    - JavaScript numbers that carry scores are exact rationals ([Q]);
      timestamps, counters and row ids are integers ([Z]); where the
      rounding of binary64 or [NaN] decides what the code does, the
      number is a [PrimFloat.float] ([Retriever64]) or a [Js.number];
    - [undefined]/[null] are [None] in an [option] wherever the code
      treats the two alike ([??], [||], [!x], a column of a row); a
      default parameter and a destructuring default replace
      [undefined] only, so for an argument or an option that has one,
      [None] is the value left out, and the call with an explicit
      [null] is written on a [Js.property] ([RawStore.createMemory],
      [SurpriseCall.calculateSurprise], [Tools.memory_add]);
    - a thrown exception is the [Throw] case of [result];
    - [Date.now()] is an explicit argument [now];
    - the SQLite table [memories] is a finite map from rowid to row, and
      each prepared statement is written out with the SQL semantics it
      has (three-valued [WHERE], [ORDER BY], [LIMIT]). *)

From Stdlib Require Import ZArith QArith Qminmax Qreals Reals Lra Lia String Ascii List.
From stdpp Require Import base option list sorting gmap strings pretty.
From Stdlib Require Lqa PrimFloat Uint63.

Local Open Scope Z_scope.

(** ** Exceptions and results *)

Inductive Exn : Type :=
| ContentAndTypeRequired      (* new Error("Memory content and type are required") *)
| MemoryNotFound (id : Z)     (* new Error(`Memory with ID ${id} not found`) *)
| TypeError.                  (* a property read or method call on undefined *)

Inductive result (A : Type) : Type :=
| Ok (a : A)
| Throw (e : Exn).
Arguments Ok {A} a.
Arguments Throw {A} e.

(** ** SQL building blocks *)

Module SQL.

(** [a = b] in SQL: unknown as soon as one side is NULL. *)
Definition eq {A} `{EqDecision A} (a b : option A) : option bool :=
  match a, b with
  | Some x, Some y => Some (bool_decide (x = y))
  | _, _ => None
  end.

(** [a IS NULL]: never unknown. *)
Definition is_null {A} (a : option A) : option bool :=
  match a with None => Some true | Some _ => Some false end.

(** Three-valued [OR]. *)
Definition or (a b : option bool) : option bool :=
  match a, b with
  | Some true, _ | _, Some true => Some true
  | Some false, Some false => Some false
  | _, _ => None
  end.

(** A [WHERE] clause keeps a row only when it evaluates to true. *)
Definition holds (v : option bool) : bool :=
  match v with Some true => true | _ => false end.

(** [LIMIT n]: a negative bound means no bound in SQLite. *)
Definition limit {A} (n : Z) (l : list A) : list A :=
  if n <? 0 then l else take (Z.to_nat n) l.

(** Ordering of a nullable REAL column: NULL sorts below every value. *)
Definition cmp_real (a b : option Q) : comparison :=
  match a, b with
  | None, None => Eq
  | None, Some _ => Lt
  | Some _, None => Gt
  | Some x, Some y => (x ?= y)%Q
  end.

End SQL.

(** ** The memory store ([src/memory/store.js]) *)

Module Row.
(** Modelled from the spec: the table [memories] is declared by the
    database module ([src/db]), which is not among the sources.  One
    row without its rowid: the columns are those the statements of
    [store.js] name, typed as the data model of the spec types them;
    the columns that [toMemory] reads through [??] are nullable. *)
Record t : Type := mk {
  session_id : option string;
  content : string;
  type : string;
  category : option string;
  importance : option Q;
  surprise_score : option Q;
  access_count : option Z;
  decay_factor : option Q;
  source_turn_id : option Z;
  created_at : Z;
  updated_at : Z;
  last_accessed_at : option Z;
  metadata : option string;
}.
End Row.

Module Memory.
(** The record the store hands to its callers. *)
Record t (Metadata : Type) : Type := mk {
  id : Z;
  sessionId : option string;
  content : string;
  type : string;
  category : option string;
  importance : Q;
  surpriseScore : Q;
  accessCount : Z;
  decayFactor : Q;
  sourceTurnId : option Z;
  createdAt : Z;
  updatedAt : Z;
  lastAccessedAt : option Z;
  metadata : Metadata;
}.
Arguments mk {Metadata}.
Arguments id {Metadata}.
Arguments sessionId {Metadata}.
Arguments content {Metadata}.
Arguments type {Metadata}.
Arguments category {Metadata}.
Arguments importance {Metadata}.
Arguments surpriseScore {Metadata}.
Arguments accessCount {Metadata}.
Arguments decayFactor {Metadata}.
Arguments sourceTurnId {Metadata}.
Arguments createdAt {Metadata}.
Arguments updatedAt {Metadata}.
Arguments lastAccessedAt {Metadata}.
Arguments metadata {Metadata}.
End Memory.

Module Options.
(** The option bag of [createMemory]; [None] is a property left out. *)
Record t (Metadata : Type) : Type := mk {
  sessionId : option string;
  content : option string;
  type : option string;
  category : option string;
  importance : option Q;
  surpriseScore : option Q;
  accessCount : option Z;
  decayFactor : option Q;
  sourceTurnId : option Z;
  metadata : option Metadata;
}.
Arguments mk {Metadata}.
Arguments sessionId {Metadata}.
Arguments content {Metadata}.
Arguments type {Metadata}.
Arguments category {Metadata}.
Arguments importance {Metadata}.
Arguments surpriseScore {Metadata}.
Arguments accessCount {Metadata}.
Arguments decayFactor {Metadata}.
Arguments sourceTurnId {Metadata}.
Arguments metadata {Metadata}.
End Options.

Module Updates.
(** The partial record of [updateMemory]: the update surface. *)
Record t (Metadata : Type) : Type := mk {
  content : option string;
  type : option string;
  category : option string;
  importance : option Q;
  surpriseScore : option Q;
  decayFactor : option Q;
  metadata : option Metadata;
}.
Arguments mk {Metadata}.
Arguments content {Metadata}.
Arguments type {Metadata}.
Arguments category {Metadata}.
Arguments importance {Metadata}.
Arguments surpriseScore {Metadata}.
Arguments decayFactor {Metadata}.
Arguments metadata {Metadata}.
End Updates.

Module Store.

Abbreviation table := (gmap Z Row.t).

(** [a ?? b] with a non-null fallback. *)
Definition nullish {A} (a : option A) (b : A) : A := default b a.

(** [!s] for a string-or-undefined value. *)
Definition falsy (s : option string) : bool :=
  match s with
  | None => true
  | Some s => bool_decide (s = EmptyString)
  end.

(** [result.lastInsertRowid]: one more than the largest rowid in use. *)
Definition max_rowid (db : table) : Z :=
  map_fold (fun k _ acc => Z.max k acc) 0 db.
Definition next_rowid (db : table) : Z := 1 + max_rowid db.

(** [DELETE FROM memories WHERE P]: the number of rows removed
    ([result.changes]) and the table that is left. *)
Definition sql_delete (P : Z * Row.t -> Prop) `{!forall x, Decision (P x)}
    (db : table) : Z * table :=
  (Z.of_nat (size (filter P db)), filter (fun x => ~ P x) db).

(** [ORDER BY created_at DESC]. *)
Definition by_created_desc (x y : Z * Row.t) : Prop :=
  Row.created_at y.2 <= Row.created_at x.2.

(** [ORDER BY importance DESC, created_at DESC]. *)
Definition by_importance_desc (x y : Z * Row.t) : Prop :=
  match SQL.cmp_real (Row.importance y.2) (Row.importance x.2) with
  | Lt => True
  | Eq => Row.created_at y.2 <= Row.created_at x.2
  | Gt => False
  end.

#[export] Instance by_created_desc_dec x y : Decision (by_created_desc x y).
Proof. unfold by_created_desc. apply _. Defined.

#[export] Instance by_importance_desc_dec x y : Decision (by_importance_desc x y).
Proof. unfold by_importance_desc. destruct (SQL.cmp_real _ _); apply _. Defined.

(** [WHERE (session_id = ? OR ? IS NULL)], both placeholders bound to
    the same [sessionId]. *)
Definition session_clause (sessionId : option string) (x : Z * Row.t) : bool :=
  SQL.holds (SQL.or (SQL.eq (Row.session_id x.2) sessionId) (SQL.is_null sessionId)).

Section WithJSON.

(** The metadata mapping is opaque to the store; it only goes through
    [JSON.stringify] and [JSON.parse] ([None]: the call throws). *)
Context {Metadata : Type}.
Variable empty_object : Metadata.
Variable JSON_stringify : Metadata -> option string.
Variable JSON_parse : string -> option Metadata.

Definition parseJSON (value : option string) (fallback : Metadata) : Metadata :=
  match value with
  | None => fallback
  | Some text =>
      match JSON_parse text with
      | Some v => v
      | None => fallback
      end
  end.

Definition serialize (value : option Metadata) : option string :=
  match value with
  | None => None
  | Some v => JSON_stringify v
  end.

Definition toMemory (x : Z * Row.t) : Memory.t Metadata :=
  let row := x.2 in
  {| Memory.id := x.1;
     Memory.sessionId := Row.session_id row;
     Memory.content := Row.content row;
     Memory.type := Row.type row;
     Memory.category := Row.category row;
     Memory.importance := nullish (Row.importance row) 0.5%Q;
     Memory.surpriseScore := nullish (Row.surprise_score row) 0.0%Q;
     Memory.accessCount := nullish (Row.access_count row) 0;
     Memory.decayFactor := nullish (Row.decay_factor row) 1.0%Q;
     Memory.sourceTurnId := Row.source_turn_id row;
     Memory.createdAt := Row.created_at row;
     Memory.updatedAt := Row.updated_at row;
     Memory.lastAccessedAt := Row.last_accessed_at row;
     Memory.metadata := parseJSON (Row.metadata row) empty_object |}.

Definition createMemory (now : Z) (options : Options.t Metadata) (db : table)
    : result (Memory.t Metadata * table) :=
  let sessionId := Options.sessionId options in
  let category := Options.category options in
  let importance := nullish (Options.importance options) 0.5%Q in
  let surpriseScore := nullish (Options.surpriseScore options) 0.0%Q in
  let accessCount := nullish (Options.accessCount options) 0 in
  let decayFactor := nullish (Options.decayFactor options) 1.0%Q in
  let sourceTurnId := Options.sourceTurnId options in
  let metadata := nullish (Options.metadata options) empty_object in
  match Options.content options, Options.type options with
  | Some content, Some type =>
      if falsy (Some content) || falsy (Some type) then Throw ContentAndTypeRequired
      else
        let lastInsertRowid := next_rowid db in
        let row :=
          {| Row.session_id := sessionId;
             Row.content := content;
             Row.type := type;
             Row.category := category;
             Row.importance := Some importance;
             Row.surprise_score := Some surpriseScore;
             Row.access_count := Some accessCount;
             Row.decay_factor := Some decayFactor;
             Row.source_turn_id := sourceTurnId;
             Row.created_at := now;
             Row.updated_at := now;
             Row.last_accessed_at := None;
             Row.metadata := serialize (Some metadata) |} in
        Ok ({| Memory.id := lastInsertRowid;
               Memory.sessionId := sessionId;
               Memory.content := content;
               Memory.type := type;
               Memory.category := category;
               Memory.importance := importance;
               Memory.surpriseScore := surpriseScore;
               Memory.accessCount := accessCount;
               Memory.decayFactor := decayFactor;
               Memory.sourceTurnId := sourceTurnId;
               Memory.createdAt := now;
               Memory.updatedAt := now;
               Memory.lastAccessedAt := None;
               Memory.metadata := metadata |},
            <[lastInsertRowid := row]> db)
  | _, _ => Throw ContentAndTypeRequired
  end.

Definition getMemory (db : table) (id : Z) : option (Memory.t Metadata) :=
  (fun row => toMemory (id, row)) <$> db !! id.

(** [updateMemoryStmt]: the eight columns of its [SET] list. *)
Definition updateMemoryStmt (content type : string) (category : option string)
    (importance surprise_score decay_factor : Q) (updated_at : Z)
    (metadata : option string) (row : Row.t) : Row.t :=
  {| Row.session_id := Row.session_id row;
     Row.content := content;
     Row.type := type;
     Row.category := category;
     Row.importance := Some importance;
     Row.surprise_score := Some surprise_score;
     Row.access_count := Row.access_count row;
     Row.decay_factor := Some decay_factor;
     Row.source_turn_id := Row.source_turn_id row;
     Row.created_at := Row.created_at row;
     Row.updated_at := updated_at;
     Row.last_accessed_at := Row.last_accessed_at row;
     Row.metadata := metadata |}.

Definition updateMemory (now : Z) (id : Z) (updates : Updates.t Metadata)
    (db : table) : result (option (Memory.t Metadata) * table) :=
  match getMemory db id with
  | None => Throw (MemoryNotFound id)
  | Some memory =>
      let db' :=
        alter (updateMemoryStmt
                 (nullish (Updates.content updates) (Memory.content memory))
                 (nullish (Updates.type updates) (Memory.type memory))
                 (match Updates.category updates with
                  | Some c => Some c
                  | None => Memory.category memory
                  end)
                 (nullish (Updates.importance updates) (Memory.importance memory))
                 (nullish (Updates.surpriseScore updates) (Memory.surpriseScore memory))
                 (nullish (Updates.decayFactor updates) (Memory.decayFactor memory))
                 now
                 (serialize (Some (nullish (Updates.metadata updates)
                                           (Memory.metadata memory)))))
              id db in
      Ok (getMemory db' id, db')
  end.

Definition deleteMemory (id : Z) (db : table) : bool * table :=
  let '(changes, db') := sql_delete (fun x => x.1 = id) db in
  (bool_decide (0 < changes), db').

Definition incrementAccessCount (now : Z) (id : Z) (db : table) : table :=
  alter (fun row =>
           {| Row.session_id := Row.session_id row;
              Row.content := Row.content row;
              Row.type := Row.type row;
              Row.category := Row.category row;
              Row.importance := Row.importance row;
              Row.surprise_score := Row.surprise_score row;
              Row.access_count := (fun n => n + 1) <$> Row.access_count row;
              Row.decay_factor := Row.decay_factor row;
              Row.source_turn_id := Row.source_turn_id row;
              Row.created_at := Row.created_at row;
              Row.updated_at := Row.updated_at row;
              Row.last_accessed_at := Some now;
              Row.metadata := Row.metadata row |}) id db.

(** [getRecentMemories({ limit = 10, sessionId = null })]. *)
Definition getRecentMemories (limit : option Z) (sessionId : option string)
    (db : table) : list (Memory.t Metadata) :=
  let limit := nullish limit 10 in
  let rows :=
    SQL.limit limit
      (merge_sort by_created_desc
         (filter (fun x => session_clause sessionId x = true) (map_to_list db))) in
  toMemory <$> rows.

(** [getMemoriesByImportance({ limit = 10, sessionId = null })]. *)
Definition getMemoriesByImportance (limit : option Z) (sessionId : option string)
    (db : table) : list (Memory.t Metadata) :=
  let limit := nullish limit 10 in
  let rows :=
    SQL.limit limit
      (merge_sort by_importance_desc
         (filter (fun x => session_clause sessionId x = true) (map_to_list db))) in
  toMemory <$> rows.

(** [pruneOldMemories(olderThanMs)]: [DELETE ... WHERE created_at < ?]. *)
Definition pruneOldMemories (now : Z) (olderThanMs : Z) (db : table) : Z * table :=
  let threshold := now - olderThanMs in
  sql_delete (fun x => Row.created_at x.2 < threshold) db.

(** The sub-select of [pruneByCountStmt]: the rowids to keep. *)
Definition top_ids (maxCount : Z) (db : table) : list Z :=
  (SQL.limit maxCount (merge_sort by_importance_desc (map_to_list db))).*1.

(** [pruneByCount(maxCount)]: [DELETE ... WHERE id NOT IN (...)]. *)
Definition pruneByCount (maxCount : Z) (db : table) : Z * table :=
  let keep := top_ids maxCount db in
  sql_delete (fun x => x.1 ∉ keep) db.

(** What the store relies on from the JSON built-ins: a mapping that
    is stringified parses back to itself. *)
Definition JSON_roundtrip : Prop :=
  forall v : Metadata,
    exists text, JSON_stringify v = Some text /\ JSON_parse text = Some v.

(** Descending [createdAt], on the records handed out. *)
Definition newer_first (a b : Memory.t Metadata) : Prop :=
  Memory.createdAt b <= Memory.createdAt a.

End WithJSON.

(** [countMemories()] is declared without a parameter and runs
    [SELECT COUNT( * ) as count FROM memories]; whatever object a caller
    passes ([args]) is dropped by the call. *)
Record CountArgs : Type := { count_sessionId : option string }.

Definition countMemories (args : option CountArgs) (db : table) : Z :=
  Z.of_nat (size db).

End Store.

(** ** Values that the typed records leave out

    A property of an object literal is left out ([undefined]), [null]
    or holds a value; a number is a rational or [NaN]. *)

Module Js.

Inductive property (A : Type) : Type :=
| Undefined
| Null
| Given (a : A).
Arguments Undefined {A}.
Arguments Null {A}.
Arguments Given {A} a.

(** A number that reaches the store.  The infinities, which the REAL
    columns of [Row.t] cannot hold, are left out. *)
Inductive number : Type :=
| Finite (q : Q)
| NaN.

(** A destructuring default [{ x = d }]: [d] replaces [undefined] only;
    [None] is [null]. *)
Definition with_default {A} (d : A) (p : property A) : option A :=
  match p with
  | Undefined => Some d
  | Null => None
  | Given a => Some a
  end.

(** A destructuring default [{ x = null }]. *)
Definition or_null {A} (p : property A) : option A :=
  match p with
  | Undefined | Null => None
  | Given a => Some a
  end.

(** [!s] for a string, [undefined] or [null]. *)
Definition falsy (s : property string) : bool :=
  match s with
  | Undefined | Null => true
  | Given s => bool_decide (s = EmptyString)
  end.

(** A number bound to a parameter of a prepared statement: SQLite
    stores [NaN] as NULL. *)
Definition bind_real (n : option number) : option Q :=
  match n with
  | Some (Finite q) => Some q
  | Some NaN | None => None
  end.

(** A value of a typed record, as a property that is present. *)
Definition of_option {A} (o : option A) : property A :=
  match o with
  | Some a => Given a
  | None => Undefined
  end.

(** The property is left out or holds a value: it is not [null], and a
    number is not [NaN]. *)
Definition not_null {A} (p : property A) : bool :=
  match p with
  | Null => false
  | Undefined | Given _ => true
  end.
Definition regular (p : property number) : bool :=
  match p with
  | Undefined | Given (Finite _) => true
  | Null | Given NaN => false
  end.

(** What a regular property amounts to: its value, or the default. *)
Definition value_or {A} (d : A) (p : property A) : A :=
  match p with
  | Given a => a
  | Undefined | Null => d
  end.
Definition number_or (d : Q) (p : property number) : Q :=
  match p with
  | Given (Finite q) => q
  | _ => d
  end.

End Js.

Module RawOptions.
(** The options object of [createMemory] as any caller may build it:
    every property left out, [null] or given. *)
Record t (Metadata : Type) : Type := mk {
  sessionId : Js.property string;
  content : Js.property string;
  type : Js.property string;
  category : Js.property string;
  importance : Js.property Js.number;
  surpriseScore : Js.property Js.number;
  accessCount : Js.property Z;
  decayFactor : Js.property Js.number;
  sourceTurnId : Js.property Z;
  metadata : Js.property Metadata;
}.
Arguments mk {Metadata}.
Arguments sessionId {Metadata}.
Arguments content {Metadata}.
Arguments type {Metadata}.
Arguments category {Metadata}.
Arguments importance {Metadata}.
Arguments surpriseScore {Metadata}.
Arguments accessCount {Metadata}.
Arguments decayFactor {Metadata}.
Arguments sourceTurnId {Metadata}.
Arguments metadata {Metadata}.

(** The typed option bag, as an options object. *)
Definition of_options {Metadata} (options : Options.t Metadata) : t Metadata :=
  {| sessionId := Js.of_option (Options.sessionId options);
     content := Js.of_option (Options.content options);
     type := Js.of_option (Options.type options);
     category := Js.of_option (Options.category options);
     importance := Js.of_option (Js.Finite <$> Options.importance options);
     surpriseScore := Js.of_option (Js.Finite <$> Options.surpriseScore options);
     accessCount := Js.of_option (Options.accessCount options);
     decayFactor := Js.of_option (Js.Finite <$> Options.decayFactor options);
     sourceTurnId := Js.of_option (Options.sourceTurnId options);
     metadata := Js.of_option (Options.metadata options) |}.
End RawOptions.

Module Created.
(** The object literal that [createMemory] returns: the destructured
    options themselves, so a field can be [null] ([None]) or [NaN]
    where [toMemory] would read a default. *)
Record t (Metadata : Type) : Type := mk {
  id : Z;
  sessionId : option string;
  content : string;
  type : string;
  category : option string;
  importance : option Js.number;
  surpriseScore : option Js.number;
  accessCount : option Z;
  decayFactor : option Js.number;
  sourceTurnId : option Z;
  createdAt : Z;
  updatedAt : Z;
  lastAccessedAt : option Z;
  metadata : option Metadata;
}.
Arguments mk {Metadata}.
Arguments id {Metadata}.
Arguments sessionId {Metadata}.
Arguments content {Metadata}.
Arguments type {Metadata}.
Arguments category {Metadata}.
Arguments importance {Metadata}.
Arguments surpriseScore {Metadata}.
Arguments accessCount {Metadata}.
Arguments decayFactor {Metadata}.
Arguments sourceTurnId {Metadata}.
Arguments createdAt {Metadata}.
Arguments updatedAt {Metadata}.
Arguments lastAccessedAt {Metadata}.
Arguments metadata {Metadata}.

(** A record read by [toMemory], field by field as an object literal. *)
Definition of_memory {Metadata} (memory : Memory.t Metadata) : t Metadata :=
  {| id := Memory.id memory;
     sessionId := Memory.sessionId memory;
     content := Memory.content memory;
     type := Memory.type memory;
     category := Memory.category memory;
     importance := Some (Js.Finite (Memory.importance memory));
     surpriseScore := Some (Js.Finite (Memory.surpriseScore memory));
     accessCount := Some (Memory.accessCount memory);
     decayFactor := Some (Js.Finite (Memory.decayFactor memory));
     sourceTurnId := Memory.sourceTurnId memory;
     createdAt := Memory.createdAt memory;
     updatedAt := Memory.updatedAt memory;
     lastAccessedAt := Memory.lastAccessedAt memory;
     metadata := Some (Memory.metadata memory) |}.
End Created.

(** ** [createMemory] on every options object ([src/memory/store.js])

    [Store.createMemory] is this function on the typed option bag
    ([RawStoreProps.createMemory_typed]). *)

Module RawStore.

Import Store.

Section WithJSON.

Context {Metadata : Type}.
Variable empty_object : Metadata.
Variable JSON_stringify : Metadata -> option string.

(** [createMemory(options)] *)
Definition createMemory (now : Z) (options : RawOptions.t Metadata) (db : table)
    : result (Created.t Metadata * table) :=
  let sessionId := Js.or_null (RawOptions.sessionId options) in
  let content := RawOptions.content options in
  let type := RawOptions.type options in
  let category := Js.or_null (RawOptions.category options) in
  let importance := Js.with_default (Js.Finite 0.5%Q) (RawOptions.importance options) in
  let surpriseScore :=
    Js.with_default (Js.Finite 0.0%Q) (RawOptions.surpriseScore options) in
  let accessCount := Js.with_default 0 (RawOptions.accessCount options) in
  let decayFactor := Js.with_default (Js.Finite 1.0%Q) (RawOptions.decayFactor options) in
  let sourceTurnId := Js.or_null (RawOptions.sourceTurnId options) in
  let metadata := Js.with_default empty_object (RawOptions.metadata options) in
  if Js.falsy content || Js.falsy type then Throw ContentAndTypeRequired
  else
    match content, type with
    | Js.Given content, Js.Given type =>
        let lastInsertRowid := next_rowid db in
        let row :=
          {| Row.session_id := sessionId;
             Row.content := content;
             Row.type := type;
             Row.category := category;
             Row.importance := Js.bind_real importance;
             Row.surprise_score := Js.bind_real surpriseScore;
             Row.access_count := accessCount;
             Row.decay_factor := Js.bind_real decayFactor;
             Row.source_turn_id := sourceTurnId;
             Row.created_at := now;
             Row.updated_at := now;
             Row.last_accessed_at := None;
             Row.metadata := serialize JSON_stringify metadata |} in
        Ok ({| Created.id := lastInsertRowid;
               Created.sessionId := sessionId;
               Created.content := content;
               Created.type := type;
               Created.category := category;
               Created.importance := importance;
               Created.surpriseScore := surpriseScore;
               Created.accessCount := accessCount;
               Created.decayFactor := decayFactor;
               Created.sourceTurnId := sourceTurnId;
               Created.createdAt := now;
               Created.updatedAt := now;
               Created.lastAccessedAt := None;
               Created.metadata := metadata |},
            <[lastInsertRowid := row]> db)
    | _, _ =>
        (* not reached: a value that is not falsy is a string *)
        Throw ContentAndTypeRequired
    end.

End WithJSON.

End RawStore.

(** ** Regular expressions with the matching order of JavaScript

    A backtracking matcher in continuation-passing style: alternatives
    are tried left to right, [Star] is greedy, and an iteration of a
    star that consumes nothing is rejected, as ECMAScript prescribes.
    The matcher carries the character before the current position so
    that the assertion [\b] can be decided. *)

Module Regex.

Inductive t : Type :=
| Eps
| Chr (p : ascii -> bool)
| Seq (r1 r2 : t)
| Alt (r1 r2 : t)
| Star (r : t)
| WordB.

Definition code (c : ascii) : N := N_of_ascii c.
Definition between (lo hi : N) (c : ascii) : bool :=
  ((lo <=? code c) && (code c <=? hi))%N.

Definition is_upper : ascii -> bool := between 65 90.     (* [A-Z] *)
Definition is_lower : ascii -> bool := between 97 122.    (* [a-z] *)
Definition is_digit : ascii -> bool := between 48 57.     (* \d *)
Definition is_char (a c : ascii) : bool := bool_decide (a = c).
Definition is_word (c : ascii) : bool :=                  (* \w *)
  is_upper c || is_lower c || is_digit c || is_char "_" c.
Definition is_space (c : ascii) : bool :=                 (* \s *)
  between 9 13 c || is_char " " c.

Definition toLower (c : ascii) : ascii :=
  if is_upper c then ascii_of_N (code c + 32) else c.
Definition toUpper (c : ascii) : ascii :=
  if is_lower c then ascii_of_N (code c - 32) else c.

(** A character class under the [i] flag. *)
Definition ci (p : ascii -> bool) (c : ascii) : bool :=
  p c || p (toLower c) || p (toUpper c).

Definition plus (r : t) : t := Seq r (Star r).
Definition opt (r : t) : t := Alt r Eps.
Fixpoint lit (s : string) : t :=
  match s with
  | EmptyString => Eps
  | String c s' => Seq (Chr (is_char c)) (lit s')
  end.
Fixpoint lit_ci (s : string) : t :=
  match s with
  | EmptyString => Eps
  | String c s' => Seq (Chr (ci (is_char c))) (lit_ci s')
  end.
Fixpoint alts (rs : list t) : t :=
  match rs with
  | [] => Eps
  | [r] => r
  | r :: rs' => Alt r (alts rs')
  end.

Definition Pos : Type := option ascii * string.
Definition Cont : Type := option ascii -> string -> option Pos.

Definition word_before (prev : option ascii) : bool :=
  match prev with Some c => is_word c | None => false end.
Definition word_after (s : string) : bool :=
  match s with String c _ => is_word c | EmptyString => false end.

Fixpoint star_loop (step : option ascii -> string -> Cont -> option Pos)
    (fuel : nat) (prev : option ascii) (s : string) (k : Cont) : option Pos :=
  match fuel with
  | O => k prev s
  | S fuel' =>
      match step prev s
              (fun p' s' =>
                 if (String.length s' <? String.length s)%nat
                 then star_loop step fuel' p' s' k
                 else None) with
      | Some r => Some r
      | None => k prev s
      end
  end.

Fixpoint run (r : t) (prev : option ascii) (s : string) (k : Cont) : option Pos :=
  match r with
  | Eps => k prev s
  | Chr p =>
      match s with
      | String c s' => if p c then k (Some c) s' else None
      | EmptyString => None
      end
  | Seq r1 r2 => run r1 prev s (fun p' s' => run r2 p' s' k)
  | Alt r1 r2 =>
      match run r1 prev s k with
      | Some x => Some x
      | None => run r2 prev s k
      end
  | Star r1 => star_loop (run r1) (String.length s) prev s k
  | WordB => if xorb (word_before prev) (word_after s) then k prev s else None
  end.

(** One match attempt anchored at the current position: the matched
    text and the position after it. *)
Definition exec (r : t) (prev : option ascii) (s : string) : option (string * Pos) :=
  match run r prev s (fun p' s' => Some (p', s')) with
  | Some (p', rest) =>
      Some (substring 0 (String.length s - String.length rest) s, (p', rest))
  | None => None
  end.

(** [r.test(s)]: is there a match at some position? *)
Fixpoint test_from (r : t) (prev : option ascii) (s : string) : bool :=
  match exec r prev s with
  | Some _ => true
  | None =>
      match s with
      | EmptyString => false
      | String c s' => test_from r (Some c) s'
      end
  end.
Definition test (r : t) (s : string) : bool := test_from r None s.

(** [s.match(r) || []] for a regular expression with the [g] flag. *)
Fixpoint match_all_from (r : t) (fuel : nat) (prev : option ascii) (s : string)
    : list string :=
  match fuel with
  | O => []
  | S fuel' =>
      let skip :=
        match s with
        | EmptyString => []
        | String c s' => match_all_from r fuel' (Some c) s'
        end in
      match exec r prev s with
      | Some (m, (p', rest)) =>
          if bool_decide (m = EmptyString) then m :: skip
          else m :: match_all_from r fuel' p' rest
      | None => skip
      end
  end.
Definition match_all (r : t) (s : string) : list string :=
  match_all_from r (S (String.length s)) None s.

(** [s.split(r)] without a limit, for a pattern without capture groups:
    [piece] is the text since the end of the last separator. *)
Fixpoint split_from (r : t) (fuel : nat) (piece : string) (prev : option ascii)
    (s : string) : list string :=
  match fuel with
  | O => [String.append piece s]
  | S fuel' =>
      match s with
      | EmptyString => [piece]
      | String c s' =>
          let advance :=
            split_from r fuel' (String.append piece (String c EmptyString)) (Some c) s' in
          match exec r prev s with
          | None => advance
          | Some (m, (p', rest)) =>
              if bool_decide (m = EmptyString) && bool_decide (piece = EmptyString)
              then advance
              else piece :: split_from r fuel' EmptyString p' rest
          end
      end
  end.
Definition split (r : t) (s : string) : list string :=
  match s with
  | EmptyString =>
      match exec r None EmptyString with
      | Some _ => []
      | None => [EmptyString]
      end
  | _ => split_from r (2 * String.length s + 2) EmptyString None s
  end.

(** [s.replace(/[class]/g, '')]: drop the characters of a class. *)
Fixpoint remove (p : ascii -> bool) (s : string) : string :=
  match s with
  | EmptyString => EmptyString
  | String c s' => if p c then remove p s' else String c (remove p s')
  end.

End Regex.

(** ** String methods *)

Module Str.

Fixpoint toLowerCase (s : string) : string :=
  match s with
  | EmptyString => EmptyString
  | String c s' => String (Regex.toLower c) (toLowerCase s')
  end.

(** [hay.includes(needle)]. *)
Fixpoint includes (hay needle : string) : bool :=
  if String.prefix needle hay then true
  else
    match hay with
    | EmptyString => false
    | String _ hay' => includes hay' needle
    end.

Definition length (s : string) : Z := Z.of_nat (String.length s).

End Str.

(** ** The surprise scorer ([src/memory/surprise.js], final revision)

    Strings are sequences of 8-bit characters; case mapping and the
    classes [\w], [\s], [\b] act on the ASCII range, every other
    character is an opaque non-word, non-space character.  A memory
    whose [content] property is missing has [content = None]; calling a
    string method on it raises [TypeError], which is the [None] result
    of the scoring functions below. *)

Module Surprise.

Local Open Scope Q_scope.
Local Open Scope string_scope.
Import Regex.

Record MemoryLike : Type := {
  content : option string;
  createdAt : option Z;
}.

Record Context : Type := {
  userContent : option string;
}.

Definition Qltb (a b : Q) : bool := negb (Qle_bool b a).
Definition of_nat (n : nat) : Q := inject_Z (Z.of_nat n).

(** [new Set()] with [add], in insertion order. *)
Definition set_add (e : string) (entities : list string) : list string :=
  if bool_decide (e ∈ entities) then entities else entities ++ [e].
Definition set_add_all (es entities : list string) : list string :=
  foldl (fun acc e => set_add e acc) entities es.

(** A loop whose body may throw. *)
Fixpoint for_each {A S : Type} (body : S -> A -> option S) (acc : S) (l : list A)
    : option S :=
  match l with
  | [] => Some acc
  | x :: l' => acc' ← body acc x; for_each body acc' l'
  end.

(** [/\s+/] *)
Definition re_spaces : Regex.t := plus (Chr is_space).

(** [/\b[A-Z][a-z]+\b/g] *)
Definition re_proper_noun : Regex.t :=
  Seq WordB (Seq (Chr is_upper) (Seq (plus (Chr is_lower)) WordB)).

(** [/\b[a-z_][a-z0-9_]*\b/gi] *)
Definition re_code_id : Regex.t :=
  Seq WordB
    (Seq (Chr (ci (fun c => is_lower c || is_char "_" c)))
       (Seq (Star (Chr (ci (fun c => is_lower c || is_digit c || is_char "_" c))))
          WordB)).

(** [/[a-z0-9_-]+\.[a-z]{2,4}/gi] *)
Definition re_file_name : Regex.t :=
  Seq (plus (Chr (ci (fun c => is_lower c || is_digit c || is_char "_" c || is_char "-" c))))
    (Seq (Chr (is_char "."))
       (Seq (Chr (ci is_lower))
          (Seq (Chr (ci is_lower))
             (opt (Seq (Chr (ci is_lower)) (opt (Chr (ci is_lower)))))))).

Definition extractSimpleEntities (text : string) : list string :=
  let entities := [] in
  let properNouns := match_all re_proper_noun text in
  let entities := set_add_all properNouns entities in
  let codeIds := match_all re_code_id text in
  let entities :=
    set_add_all
      (filter (fun e => (4 <= Str.length e)%Z /\ (Str.length e <= 50)%Z) codeIds)
      entities in
  let files := match_all re_file_name text in
  set_add_all files entities.

Definition stopwords : list string :=
  [ "the"; "is"; "at"; "which"; "on"; "and"; "or"; "not"; "this"; "that";
    "with"; "from"; "for"; "to"; "in"; "of"; "a"; "an"; "are"; "was"; "were";
    "be"; "been"; "being"; "have"; "has"; "had"; "do"; "does"; "did"; "will";
    "would"; "should"; "could"; "may"; "might"; "must"; "can"; "it"; "its" ].

Definition extractKeywords (text : string) : list string :=
  filter (fun word => (3 < Str.length word)%Z /\ word ∉ stopwords)
    (map (remove (fun c => negb (is_word c)))
       (split re_spaces (Str.toLowerCase text))).

(** [existingMemories.some(mem => mem.content.toLowerCase().includes(needle))] *)
Fixpoint some_includes (existingMemories : list MemoryLike) (needle : string)
    : option bool :=
  match existingMemories with
  | [] => Some false
  | mem :: rest =>
      c ← content mem;
      if Str.includes (Str.toLowerCase c) needle then Some true
      else some_includes rest needle
  end.

(** The two counting loops of [calculateNovelty]. *)
Definition count_novel (existingMemories : list MemoryLike) (items : list string)
    : option nat :=
  for_each
    (fun count item =>
       found ← some_includes existingMemories (Str.toLowerCase item);
       Some (if negb found then S count else count))
    O items.

Definition calculateNovelty (newMemory : MemoryLike)
    (existingMemories : list MemoryLike) : option Q :=
  if bool_decide (length existingMemories = 0%nat) then Some 1.0
  else
    text ← content newMemory;
    let newEntities := extractSimpleEntities text in
    let newKeywords := extractKeywords text in
    novelEntityCount ← count_novel existingMemories newEntities;
    let entityNovelty :=
      if (0 <? length newEntities)%nat
      then of_nat novelEntityCount / of_nat (length newEntities)
      else 0.5 in
    novelKeywordCount ← count_novel existingMemories newKeywords;
    let keywordNovelty :=
      if (0 <? length newKeywords)%nat
      then of_nat novelKeywordCount / of_nat (length newKeywords)
      else 0.5 in
    let avgNovelty := (entityNovelty + keywordNovelty) / 2 in
    if Qle_bool avgNovelty 0.5 then Some (Qmin 0.49 (avgNovelty * 0.95))
    else Some avgNovelty.

(** [/\b(not|no|never|don't|doesn't|didn't|isn't|aren't|wasn't|weren't)\b/] *)
Definition re_negation : Regex.t :=
  Seq WordB
    (Seq (alts (map lit [ "not"; "no"; "never"; "don't"; "doesn't"; "didn't";
                          "isn't"; "aren't"; "wasn't"; "weren't" ]))
       WordB).

(** [/\b(not|no|never|don't|doesn't)\b/] *)
Definition re_negation_short : Regex.t :=
  Seq WordB
    (Seq (alts (map lit [ "not"; "no"; "never"; "don't"; "doesn't" ])) WordB).

(** [/\b(prefers?|likes?|favou?rs?|chooses?)\b/] *)
Definition re_preference : Regex.t :=
  Seq WordB
    (Seq (alts [ Seq (lit "prefer") (opt (lit "s"));
                 Seq (lit "like") (opt (lit "s"));
                 Seq (lit "favo") (Seq (opt (lit "u")) (Seq (lit "r") (opt (lit "s"))));
                 Seq (lit "choose") (opt (lit "s")) ])
       WordB).

Definition contradictoryPhrases : list Regex.t :=
  [ lit_ci "instead of";
    lit_ci "rather than";
    Seq WordB (Seq (lit_ci "over") WordB);
    lit_ci "actually";
    lit_ci "correction";
    Seq (lit_ci "change")
      (Seq (opt (lit_ci "d")) (Seq (lit_ci " ") (Alt (lit_ci "from") (lit_ci "to"))));
    lit_ci "replaced";
    lit_ci "no longer" ].

Definition oppositeTerms : list (string * string) :=
  [ ("dark", "light");
    ("enable", "disable");
    ("on", "off");
    ("yes", "no");
    ("true", "false");
    ("allow", "deny");
    ("always", "never");
    ("more", "less");
    ("increase", "decrease");
    ("start", "stop") ].

Definition detectContradiction (newMemory : MemoryLike)
    (existingMemories : list MemoryLike) : option Q :=
  if bool_decide (length existingMemories = 0%nat) then Some 0.0
  else
    text ← content newMemory;
    let newLower := Str.toLowerCase text in
    let hasNegation := test re_negation newLower in
    let hasContradictoryPhrase :=
      existsb (fun pattern => test pattern text) contradictoryPhrases in
    let newEntities := extractSimpleEntities text in
    for_each
      (fun contradictionScore mem =>
         memText ← content mem;
         let memEntities := extractSimpleEntities memText in
         let sharedEntities :=
           filter (fun e =>
                     existsb (fun me =>
                                bool_decide (Str.toLowerCase me = Str.toLowerCase e))
                             memEntities = true)
                  newEntities in
         let memLower := Str.toLowerCase memText in
         let bothAboutPreferences :=
           test re_preference newLower && test re_preference memLower in
         let hasOppositeTerms :=
           existsb (fun '(term1, term2) =>
                      (Str.includes newLower term1 && Str.includes memLower term2)
                      || (Str.includes newLower term2 && Str.includes memLower term1))
                   oppositeTerms in
         if bool_decide (length sharedEntities = 0%nat)
            && negb bothAboutPreferences && negb hasOppositeTerms
         then Some contradictionScore
         else
           let memHasNegation := test re_negation_short memLower in
           let contradictionScore :=
             if negb (eqb hasNegation memHasNegation)
             then Qmax contradictionScore 0.8 else contradictionScore in
           let contradictionScore :=
             if hasOppositeTerms && bothAboutPreferences
             then Qmax contradictionScore 0.6 else contradictionScore in
           let contradictionScore :=
             if hasContradictoryPhrase
                && ((0 <? length sharedEntities)%nat || bothAboutPreferences)
             then Qmax contradictionScore 0.7 else contradictionScore in
           Some contradictionScore)
      0.0 existingMemories.

(** [/\b[A-Z][a-z]+(?:[A-Z][a-z]+)*\b/g] *)
Definition re_camel_noun : Regex.t :=
  Seq WordB
    (Seq (Chr is_upper)
       (Seq (plus (Chr is_lower))
          (Seq (Star (Seq (Chr is_upper) (plus (Chr is_lower)))) WordB))).

(** [/\b[A-Z]{2,}\d*\b/g] *)
Definition re_acronym : Regex.t :=
  Seq WordB
    (Seq (Chr is_upper)
       (Seq (Chr is_upper)
          (Seq (Star (Chr is_upper)) (Seq (Star (Chr is_digit)) WordB)))).

(** [/\b\d+(?:\.\d+)?(?:-\w+)?\b/g] *)
Definition re_number_unit : Regex.t :=
  Seq WordB
    (Seq (plus (Chr is_digit))
       (Seq (opt (Seq (Chr (is_char ".")) (plus (Chr is_digit))))
          (Seq (opt (Seq (Chr (is_char "-")) (plus (Chr is_word)))) WordB))).

(** [/`[^`]+`|[A-Za-z0-9_]+\.[A-Za-z0-9_]+/g] *)
Definition re_code_ref : Regex.t :=
  Alt (Seq (Chr (is_char "`"))
         (Seq (plus (Chr (fun c => negb (is_char "`" c)))) (Chr (is_char "`"))))
      (Seq (plus (Chr is_word)) (Seq (Chr (is_char ".")) (plus (Chr is_word)))).

(** [/\b[a-z]+[A-Z][a-zA-Z]*\b|\b[a-z]+_[a-z_]+\b/g] *)
Definition re_technical : Regex.t :=
  Alt (Seq WordB
         (Seq (plus (Chr is_lower))
            (Seq (Chr is_upper)
               (Seq (Star (Chr (fun c => is_lower c || is_upper c))) WordB))))
      (Seq WordB
         (Seq (plus (Chr is_lower))
            (Seq (Chr (is_char "_"))
               (Seq (plus (Chr (fun c => is_lower c || is_char "_" c))) WordB)))).

Definition measureSpecificity (text : string) : Q :=
  let score := 0.0 in
  let properNouns := match_all re_camel_noun text in
  let acronyms := match_all re_acronym text in
  let totalEntities := (length properNouns + length acronyms)%nat in
  let score := score + Qmin 0.5 (of_nat totalEntities * 0.15) in
  let numbers := match_all re_number_unit text in
  let score := score + Qmin 0.35 (of_nat (length numbers) * 0.15) in
  let codeRefs := match_all re_code_ref text in
  let score := score + Qmin 0.4 (of_nat (length codeRefs) * 0.2) in
  let technicalTerms := match_all re_technical text in
  let score := score + Qmin 0.3 (of_nat (length technicalTerms) * 0.15) in
  let wordCount := length (split re_spaces text) in
  let score := if (10 <? wordCount)%nat then score + 0.15 else score in
  let score := if (18 <? wordCount)%nat then score + 0.15 else score in
  Qmin 1.0 score.

Definition emphasisKeywords : list string :=
  [ "important"; "critical"; "crucial"; "essential"; "must"; "need to";
    "remember"; "note that"; "pay attention"; "make sure" ].

(** [/\b[A-Z]{2,}\b/g] *)
Definition re_caps_word : Regex.t :=
  Seq WordB
    (Seq (Chr is_upper) (Seq (Chr is_upper) (Seq (Star (Chr is_upper)) WordB))).

(** The repetition loop: is some word equal to its successor? *)
Fixpoint has_repetition (words : list string) : bool :=
  match words with
  | w1 :: ((w2 :: _) as rest) =>
      if bool_decide (w1 = w2) then true else has_repetition rest
  | _ => false
  end.

Definition detectEmphasis (userContent : string) : Q :=
  if bool_decide (userContent = "") then 0.0
  else
    let lower := Str.toLowerCase userContent in
    let score := 0.0 in
    let score :=
      foldl (fun score keyword =>
               if Str.includes lower keyword then score + 0.2 else score)
            score emphasisKeywords in
    let exclamations := length (match_all (Chr (is_char "!")) userContent) in
    let score := score + Qmin 0.3 (of_nat exclamations * 0.15) in
    let capsWords := match_all re_caps_word userContent in
    let score := score + Qmin 0.2 (of_nat (length capsWords) * 0.1) in
    let words := split re_spaces lower in
    let score := if has_repetition words then score + 0.15 else score in
    Qmin 1.0 score.

(** [Array.prototype.sort] with the comparator
    [(a, b) => (b.createdAt || 0) - (a.createdAt || 0)]: a stable sort,
    newest first. *)
Definition created_or_zero (m : MemoryLike) : Z := default 0%Z (createdAt m).
Fixpoint sort_insert (m : MemoryLike) (sorted : list MemoryLike) : list MemoryLike :=
  match sorted with
  | [] => [m]
  | x :: rest =>
      if (created_or_zero m <? created_or_zero x)%Z
      then x :: sort_insert m rest
      else m :: x :: rest
  end.
Definition sort_newest_first (l : list MemoryLike) : list MemoryLike :=
  foldr sort_insert [] l.

Definition measureContextSwitch (newMemory : MemoryLike)
    (existingMemories : list MemoryLike) : option Q :=
  if bool_decide (length existingMemories = 0%nat) then Some 0.0
  else
    let recentMemories := take 5 (sort_newest_first existingMemories) in
    if bool_decide (length recentMemories = 0%nat) then Some 0.0
    else
      text ← content newMemory;
      let newKeywords := extractKeywords text in
      recentKeywords ←
        for_each (fun recentKeywords mem =>
                    memText ← content mem;
                    Some (set_add_all (extractKeywords memText) recentKeywords))
                 [] recentMemories;
      let overlappingKeywords := filter (fun k => k ∈ recentKeywords) newKeywords in
      let overlapRatio :=
        if (0 <? length newKeywords)%nat
        then of_nat (length overlappingKeywords) / of_nat (length newKeywords)
        else 0 in
      Some (1.0 - overlapRatio).

(** The [try] block of [calculateSurprise]. *)
Definition surprise_body (newMemory : MemoryLike)
    (existingMemories : list MemoryLike) (context : Context) : option Q :=
  let surprise := 0.0 in
  noveltyScore ← calculateNovelty newMemory existingMemories;
  let surprise := surprise + noveltyScore * 0.30 in
  contradictionScore ← detectContradiction newMemory existingMemories;
  let surprise := surprise + contradictionScore * 0.40 in
  text ← content newMemory;
  let specificityScore := measureSpecificity text in
  let surprise := surprise + specificityScore * 0.15 in
  let emphasisScore := detectEmphasis (default "" (userContent context)) in
  let surprise := surprise + emphasisScore * 0.10 in
  contextSwitchScore ← measureContextSwitch newMemory existingMemories;
  let surprise := surprise + contextSwitchScore * 0.05 in
  Some (Qmin 1.0 (Qmax 0.0 surprise)).

(** [calculateSurprise(newMemory, existingMemories, context = {})];
    [None] is the context left out, which the default replaces (a
    [null] context: [SurpriseCall.calculateSurprise]). *)
Definition calculateSurprise (newMemory : MemoryLike)
    (existingMemories : list MemoryLike) (context : option Context) : Q :=
  let context := default {| userContent := None |} context in
  match surprise_body newMemory existingMemories context with
  | Some surprise => surprise
  | None => 0.5
  end.

End Surprise.

(** ** [calculateSurprise] on every context

    The default parameter [context = {}] replaces [undefined] only,
    which is the [None] of [Surprise.calculateSurprise]. *)

Module SurpriseCall.

Import Surprise.

(** [calculateSurprise(newMemory, existingMemories, context)]: on a
    [null] context the read [context.userContent] throws inside the
    [try], whatever the factors before it gave, and the [catch] returns
    0.5. *)
Definition calculateSurprise (newMemory : MemoryLike)
    (existingMemories : list MemoryLike) (context : Js.property Context) : Q :=
  match context with
  | Js.Undefined => Surprise.calculateSurprise newMemory existingMemories None
  | Js.Null => 0.5%Q
  | Js.Given context => Surprise.calculateSurprise newMemory existingMemories (Some context)
  end.

End SurpriseCall.

(** ** The retrieval score ([src/memory/retriever.js])

    The score in exact arithmetic: [Math.exp] is the real exponential,
    so the score is a real number; its inputs stay rational.  What is
    proved of it are the bounds and the weak order that rounding
    keeps; the score as binary64 computes it is [Retriever64].
    [search.extractKeywords] belongs to the search module and is taken
    as a parameter. *)

Module Retriever.

Record Candidate : Type := {
  content : string;
  importance : option Q;
  createdAt : Z;
  lastAccessedAt : option Z;
}.

Record Weights : Type := {
  recencyWeight : Q;
  importanceWeight : Q;
  relevanceWeight : Q;
}.

(** [a || b] on a timestamp: [null], [undefined] and [0] are falsy. *)
Definition or_else (a : option Z) (b : Z) : Z :=
  match a with
  | Some t => if (t =? 0)%Z then b else t
  | None => b
  end.

Definition halfLifeMs : Z := 7 * 24 * 60 * 60 * 1000.

Definition candidate (content : string) (importance : option Q)
    (createdAt : Z) (lastAccessedAt : option Z) : Candidate :=
  {| content := content; importance := importance;
     createdAt := createdAt; lastAccessedAt := lastAccessedAt |}.

Section WithSearch.

Variable extractKeywords : string -> list string.

Definition overlapCount (content query : string) : nat :=
  let contentKeywords := extractKeywords content in
  length (filter (fun keyword => keyword ∈ contentKeywords) (extractKeywords query)).

Definition calculateKeywordOverlap (content query : string) : Q :=
  let contentKeywords := extractKeywords content in
  let queryKeywords := extractKeywords query in
  if bool_decide (length queryKeywords = 0%nat)
     || bool_decide (length contentKeywords = 0%nat)
  then 0.0%Q
  else (inject_Z (Z.of_nat (overlapCount content query))
        / inject_Z (Z.of_nat (length queryKeywords)))%Q.

Definition calculateRetrievalScore (now : Z) (memory : Candidate) (query : string)
    (weights : Weights) : R :=
  let ageMs := now - or_else (lastAccessedAt memory) (createdAt memory) in
  let recencyScore := exp (- IZR ageMs / IZR halfLifeMs) in
  let importanceScore := Q2R (default 0.5%Q (importance memory)) in
  let relevanceScore := Q2R (calculateKeywordOverlap (content memory) query) in
  (Q2R (recencyWeight weights) * recencyScore
   + Q2R (importanceWeight weights) * importanceScore
   + Q2R (relevanceWeight weights) * relevanceScore)%R.

End WithSearch.

End Retriever.

(** ** The retrieval score in binary64 ([src/memory/retriever.js])

    Every operation is the IEEE 754 one of [PrimFloat]; timestamps are
    integers below 2^53, which binary64 holds exactly.  [Math.exp] is a
    built-in that the language leaves implementation-approximated: it
    is a parameter. *)

Module Retriever64.

Import PrimFloat.

Record Candidate : Type := {
  content : string;
  importance : option float;
  createdAt : Z;
  lastAccessedAt : option Z;
}.

Record Weights : Type := {
  recencyWeight : float;
  importanceWeight : float;
  relevanceWeight : float;
}.

(** An integer as a number. *)
Definition of_Z (z : Z) : float :=
  if (z <? 0)%Z then opp (of_uint63 (Uint63.of_Z (- z)))
  else of_uint63 (Uint63.of_Z z).

Definition halfLifeMs : float := of_Z Retriever.halfLifeMs.

Definition candidate (content : string) (importance : option float)
    (createdAt : Z) (lastAccessedAt : option Z) : Candidate :=
  {| content := content; importance := importance;
     createdAt := createdAt; lastAccessedAt := lastAccessedAt |}.

Section WithBuiltins.

Variable Math_exp : float -> float.
Variable extractKeywords : string -> list string.

Definition calculateKeywordOverlap (content query : string) : float :=
  let contentKeywords := extractKeywords content in
  let queryKeywords := extractKeywords query in
  if bool_decide (length queryKeywords = 0%nat)
     || bool_decide (length contentKeywords = 0%nat)
  then 0%float
  else (of_Z (Z.of_nat (Retriever.overlapCount extractKeywords content query))
        / of_Z (Z.of_nat (length queryKeywords)))%float.

Definition calculateRetrievalScore (now : Z) (memory : Candidate) (query : string)
    (weights : Weights) : float :=
  let ageMs :=
    of_Z (now - Retriever.or_else (lastAccessedAt memory) (createdAt memory)) in
  let recencyScore := Math_exp (- ageMs / halfLifeMs)%float in
  let importanceScore := default 0.5%float (importance memory) in
  let relevanceScore := calculateKeywordOverlap (content memory) query in
  (recencyWeight weights * recencyScore
   + importanceWeight weights * importanceScore
   + relevanceWeight weights * relevanceScore)%float.

End WithBuiltins.

End Retriever64.

(** ** The tool adapter ([src/memory/tools.js]) *)

Module Tools.

(** The values a tool argument can take: those that JSON decoding
    yields and, for a caller inside the process, the numbers [NaN] and
    plus or minus [Infinity]. *)
Inductive JsValue : Type :=
| JUndefined
| JNull
| JBoolean (b : bool)
| JNumber (q : Q)
| JNaN
| JInfinity (negative : bool)
| JString (s : string)
| JObject.

(** What [JSON.stringify] is applied to, kept as a tree. *)
Inductive Json : Type :=
| JsonNull
| JsonBool (b : bool)
| JsonString (s : string)
| JsonInt (z : Z)
| JsonNum (q : Q)
| JsonObj (fields : list Field)
with Field : Type :=
| field (key : string) (value : Json).

Record ToolResult : Type := {
  ok : bool;
  content : Json;
  metadata : option Json;
}.

(** The arguments object of [memory_add]. *)
Record Args : Type := {
  arg_content : JsValue;
  arg_type : JsValue;
  arg_category : Js.property string;
  arg_importance : JsValue;
}.

Record Session : Type := { id : string }.
Record ToolContext : Type := { session : option Session }.

Definition typeof (v : JsValue) : string :=
  match v with
  | JUndefined => "undefined"
  | JNull => "object"
  | JBoolean _ => "boolean"
  | JNumber _ | JNaN | JInfinity _ => "number"
  | JString _ => "string"
  | JObject => "object"
  end.

(** [!v] *)
Definition not (v : JsValue) : bool :=
  match v with
  | JUndefined | JNull => true
  | JBoolean b => negb b
  | JNumber q => Qeq_bool q 0
  | JNaN => true
  | JInfinity _ => false
  | JString s => bool_decide (s = EmptyString)
  | JObject => false
  end.

(** A destructuring default: it applies to [undefined] only. *)
Definition or_default (v d : JsValue) : JsValue :=
  match v with JUndefined => d | _ => v end.

Definition memory_types : list string :=
  [ "fact"; "preference"; "decision"; "entity"; "relationship" ].

(** [memory_types.includes(v)] *)
Definition includes_type (v : JsValue) : bool :=
  match v with
  | JString s => bool_decide (s ∈ memory_types)
  | _ => false
  end.

(** [v < 0 || v > 1] for a value whose [typeof] is ["number"]: both
    comparisons are false on [NaN]. *)
Definition out_of_unit (v : JsValue) : bool :=
  match v with
  | JNumber q => negb (Qle_bool 0 q) || negb (Qle_bool q 1)
  | JInfinity _ => true
  | _ => false
  end.

(** A value whose [typeof] is ["number"] and that is not an infinity, as
    the store receives it. *)
Definition to_number (v : JsValue) : option Js.number :=
  match v with
  | JNumber q => Some (Js.Finite q)
  | JNaN => Some Js.NaN
  | _ => None
  end.

Definition message (e : Exn) : string :=
  match e with
  | ContentAndTypeRequired => "Memory content and type are required"
  | MemoryNotFound id => "Memory with ID " ++ pretty id ++ " not found"
  | TypeError => "TypeError"
  end.

Definition error (text : string) : ToolResult :=
  {| ok := false;
     content := JsonObj [field "error" (JsonString text)];
     metadata := None |}.

Definition opt_string (s : option string) : Json :=
  match s with Some s => JsonString s | None => JsonNull end.

(** [JSON.stringify] writes [NaN] as [null]. *)
Definition opt_number (n : option Js.number) : Json :=
  match n with Some (Js.Finite q) => JsonNum q | _ => JsonNull end.

Section WithJSON.

Context {Metadata : Type}.
Variable empty_object : Metadata.
Variable JSON_stringify : Metadata -> option string.
Variable JSON_parse : string -> option Metadata.
(** The object literal [{ manual: true, addedBy: 'user', timestamp }]. *)
Variable manual_entry : Z -> Metadata.

(** [memory_add(args, context = {})], an [async] function: [Throw] is
    the promise rejected.  The destructuring of [args] stands before
    the [try] and throws on [undefined] and [null] ([None]); the read
    [context.session?.id] stands inside it and throws on a [null]
    context. *)
Definition memory_add (now : Z) (args : option Args) (context : Js.property ToolContext)
    (db : Store.table) : result (ToolResult * Store.table) :=
  match args with
  | None => Throw TypeError
  | Some args =>
      let content := arg_content args in
      let type := or_default (arg_type args) (JString "fact") in
      let category :=
        match arg_category args with
        | Js.Undefined => Js.Given "general"%string
        | category => category
        end in
      let importance := or_default (arg_importance args) (JNumber 0.5%Q) in
      if not content || negb (String.eqb (typeof content) "string") then
        Ok (error "Content parameter is required and must be a string", db)
      else if negb (includes_type type) then
        Ok (error
              "Invalid type. Must be one of: fact, preference, decision, entity, relationship",
            db)
      else if negb (String.eqb (typeof importance) "number") || out_of_unit importance then
        Ok (error "Importance must be a number between 0 and 1", db)
      else
        let created :=
          match content, type, to_number importance with
          | JString content, JString type, Some importance =>
              let create := fun session : option Session =>
                RawStore.createMemory empty_object JSON_stringify now
                  {| RawOptions.sessionId := Js.of_option (id <$> session);
                     RawOptions.content := Js.Given content;
                     RawOptions.type := Js.Given type;
                     RawOptions.category := category;
                     RawOptions.importance := Js.Given importance;
                     RawOptions.surpriseScore := Js.Given (Js.Finite 0.5%Q);
                     RawOptions.accessCount := Js.Undefined;
                     RawOptions.decayFactor := Js.Undefined;
                     RawOptions.sourceTurnId := Js.Undefined;
                     RawOptions.metadata := Js.Given (manual_entry now) |} db in
              match context with
              | Js.Undefined => create None
              | Js.Null => Throw TypeError
              | Js.Given context => create (session context)
              end
          | _, _, _ =>
              (* not reached: the three guards above have passed *)
              Throw TypeError
          end in
        match created with
        | Ok (memory, db') =>
            Ok ({| ok := true;
                   content :=
                     JsonObj
                       [ field "message" (JsonString "Memory stored successfully");
                         field "memoryId" (JsonInt (Created.id memory));
                         field "memory"
                           (JsonObj
                              [ field "id" (JsonInt (Created.id memory));
                                field "type" (JsonString (Created.type memory));
                                field "content" (JsonString (Created.content memory));
                                field "importance" (opt_number (Created.importance memory));
                                field "category" (opt_string (Created.category memory)) ]) ];
                   metadata :=
                     Some (JsonObj [field "memoryId" (JsonInt (Created.id memory))]) |},
                db')
        | Throw err =>
            Ok ({| ok := false;
                   content :=
                     JsonObj [ field "error" (JsonString "Failed to add memory");
                               field "message" (JsonString (message err)) ];
                   metadata := None |},
                db)
        end
  end.

End WithJSON.

End Tools.

(** ** Closed instances used to run the embedding *)

Module Fixture.

Local Open Scope string_scope.

(** The metadata mapping represented by its canonical JSON text. *)
Definition Metadata : Type := string.
Definition empty_object : Metadata := "{}".
Definition JSON_stringify (m : Metadata) : option string := Some m.
Definition JSON_parse (text : string) : option Metadata := Some text.
Definition manual_entry (now : Z) : Metadata :=
  "{manual:true,addedBy:user,timestamp:" ++ pretty now ++ "}".

(** [{ content, type, importance: null }] *)
Definition null_importance (content type : string) : RawOptions.t Metadata :=
  {| RawOptions.sessionId := Js.Undefined;
     RawOptions.content := Js.Given content;
     RawOptions.type := Js.Given type;
     RawOptions.category := Js.Undefined;
     RawOptions.importance := Js.Null;
     RawOptions.surpriseScore := Js.Undefined;
     RawOptions.accessCount := Js.Undefined;
     RawOptions.decayFactor := Js.Undefined;
     RawOptions.sourceTurnId := Js.Undefined;
     RawOptions.metadata := Js.Undefined |}.

Definition options (content type : string) (sessionId : option string)
    (importance surpriseScore : option Q) : Options.t Metadata :=
  {| Options.sessionId := sessionId;
     Options.content := Some content;
     Options.type := Some type;
     Options.category := None;
     Options.importance := importance;
     Options.surpriseScore := surpriseScore;
     Options.accessCount := None;
     Options.decayFactor := None;
     Options.sourceTurnId := None;
     Options.metadata := None |}.

Definition create (now : Z) (o : Options.t Metadata) (db : Store.table) : Store.table :=
  match Store.createMemory empty_object JSON_stringify now o db with
  | Ok (_, db') => db'
  | Throw _ => db
  end.

(** The store of the test "should filter count by session id". *)
Definition two_sessions : Store.table :=
  create 2000 (options "Session 2" "fact" (Some "session-2") None None)
    (create 1000 (options "Session 1" "fact" (Some "session-1") None None) ∅).

(** A global memory next to a session-scoped one. *)
Definition mixed_sessions : Store.table :=
  create 2000 (options "Global memory" "fact" None (Some 0.9%Q) None)
    (create 1000 (options "Session 1 memory" "fact" (Some "session-1") None None) ∅).

Definition no_updates : Updates.t Metadata :=
  {| Updates.content := None;
     Updates.type := None;
     Updates.category := None;
     Updates.importance := None;
     Updates.surpriseScore := None;
     Updates.decayFactor := None;
     Updates.metadata := None |}.

End Fixture.

(** ** The earlier revision of the scorer

    [src/memory/surprise.js] as it stands in the tree differs from the
    final revision in three functions; the others are shared. *)

Module SurpriseEarly.

Local Open Scope Q_scope.
Local Open Scope string_scope.
Import Regex.
Import Surprise.

Definition calculateNovelty (newMemory : MemoryLike)
    (existingMemories : list MemoryLike) : option Q :=
  if bool_decide (length existingMemories = 0%nat) then Some 1.0
  else
    text ← content newMemory;
    let newEntities := extractSimpleEntities text in
    let newKeywords := extractKeywords text in
    novelEntityCount ← count_novel existingMemories newEntities;
    let entityNovelty :=
      if (0 <? length newEntities)%nat
      then of_nat novelEntityCount / of_nat (length newEntities)
      else 0.5 in
    novelKeywordCount ← count_novel existingMemories newKeywords;
    let keywordNovelty :=
      if (0 <? length newKeywords)%nat
      then of_nat novelKeywordCount / of_nat (length newKeywords)
      else 0.5 in
    Some ((entityNovelty + keywordNovelty) / 2).

Definition contradictoryPhrases : list Regex.t :=
  [ lit_ci "instead of";
    lit_ci "rather than";
    lit_ci "actually";
    lit_ci "correction";
    Seq (lit_ci "change")
      (Seq (opt (lit_ci "d")) (Seq (lit_ci " ") (Alt (lit_ci "from") (lit_ci "to"))));
    lit_ci "replaced";
    lit_ci "no longer" ].

Definition detectContradiction (newMemory : MemoryLike)
    (existingMemories : list MemoryLike) : option Q :=
  if bool_decide (length existingMemories = 0%nat) then Some 0.0
  else
    text ← content newMemory;
    let newLower := Str.toLowerCase text in
    let hasNegation := test re_negation newLower in
    let hasContradictoryPhrase :=
      existsb (fun pattern => test pattern text) contradictoryPhrases in
    if negb hasNegation && negb hasContradictoryPhrase then Some 0.0
    else
      let newEntities := extractSimpleEntities text in
      for_each
        (fun contradictionScore mem =>
           memText ← content mem;
           let memEntities := extractSimpleEntities memText in
           let sharedEntities :=
             filter (fun e =>
                       existsb (fun me =>
                                  bool_decide (Str.toLowerCase me = Str.toLowerCase e))
                               memEntities = true)
                    newEntities in
           if bool_decide (length sharedEntities = 0%nat) then Some contradictionScore
           else
             let memLower := Str.toLowerCase memText in
             let memHasNegation := test re_negation_short memLower in
             let contradictionScore :=
               if negb (eqb hasNegation memHasNegation)
               then Qmax contradictionScore 0.8 else contradictionScore in
             let contradictionScore :=
               if hasContradictoryPhrase
               then Qmax contradictionScore 0.6 else contradictionScore in
             Some contradictionScore)
        0.0 existingMemories.

(** [/\b\d+(?:\.\d+)?\b/g] *)
Definition re_number : Regex.t :=
  Seq WordB
    (Seq (plus (Chr is_digit))
       (Seq (opt (Seq (Chr (is_char ".")) (plus (Chr is_digit)))) WordB)).

Definition measureSpecificity (text : string) : Q :=
  let score := 0.0 in
  let properNouns := match_all re_camel_noun text in
  let score := score + Qmin 0.3 (of_nat (length properNouns) * 0.05) in
  let numbers := match_all re_number text in
  let score := score + Qmin 0.2 (of_nat (length numbers) * 0.05) in
  let codeRefs := match_all re_code_ref text in
  let score := score + Qmin 0.3 (of_nat (length codeRefs) * 0.1) in
  let technicalTerms := match_all re_technical text in
  let score := score + Qmin 0.2 (of_nat (length technicalTerms) * 0.05) in
  Qmin 1.0 score.

Definition surprise_body (newMemory : MemoryLike)
    (existingMemories : list MemoryLike) (context : Context) : option Q :=
  let surprise := 0.0 in
  noveltyScore ← calculateNovelty newMemory existingMemories;
  let surprise := surprise + noveltyScore * 0.30 in
  contradictionScore ← detectContradiction newMemory existingMemories;
  let surprise := surprise + contradictionScore * 0.40 in
  text ← content newMemory;
  let specificityScore := measureSpecificity text in
  let surprise := surprise + specificityScore * 0.15 in
  let emphasisScore := detectEmphasis (default "" (userContent context)) in
  let surprise := surprise + emphasisScore * 0.10 in
  contextSwitchScore ← measureContextSwitch newMemory existingMemories;
  let surprise := surprise + contextSwitchScore * 0.05 in
  Some (Qmin 1.0 (Qmax 0.0 surprise)).

Definition calculateSurprise (newMemory : MemoryLike)
    (existingMemories : list MemoryLike) (context : option Context) : Q :=
  let context := default {| userContent := None |} context in
  match surprise_body newMemory existingMemories context with
  | Some surprise => surprise
  | None => 0.5
  end.

End SurpriseEarly.

(** ** The scenarios of the test suite *)

Module Scenario.

Local Open Scope string_scope.
Import Surprise.

Definition memory (text : string) : MemoryLike :=
  {| content := Some text; createdAt := None |}.

(** "should detect contradictions and return high surprise" *)
Definition typescript : MemoryLike := memory "User prefers TypeScript over JavaScript".
Definition javascript : list MemoryLike := [memory "User prefers JavaScript for all projects"].
Definition actually : option Context :=
  Some {| userContent := Some "Actually, I prefer TypeScript" |}.

(** A candidate without a [content] property. *)
Definition no_content : MemoryLike := {| content := None; createdAt := None |}.

(** "should give higher scores to recent memories" *)
Definition day : Z := 24 * 60 * 60 * 1000.
Definition clock : Z := 1700000000000.
Definition default_weights : Retriever.Weights :=
  {| Retriever.recencyWeight := 0.3%Q;
     Retriever.importanceWeight := 0.4%Q;
     Retriever.relevanceWeight := 0.3%Q |}.

(** Arguments of a [memory_add] call, and a context without session. *)
Definition add_args (content type importance : Tools.JsValue) : Tools.Args :=
  {| Tools.arg_content := content;
     Tools.arg_type := type;
     Tools.arg_category := Js.Undefined;
     Tools.arg_importance := importance |}.
Definition no_session : Tools.ToolContext := {| Tools.session := None |}.

End Scenario.

Module Scenario64.

Import PrimFloat.
Local Open Scope string_scope.
#[local] Set Warnings "-inexact-float".

(** A binary64 exponential to run [Retriever64]: the Taylor polynomial
    of degree 12 at [x / 1024], squared ten times.  On the arguments
    used below it agrees with the exponential to twelve digits. *)
Definition exp_series (r : float) : float :=
  (1 + r * (1 + r / 2 * (1 + r / 3 * (1 + r / 4 * (1 + r / 5 * (1 + r / 6
   * (1 + r / 7 * (1 + r / 8 * (1 + r / 9 * (1 + r / 10 * (1 + r / 11
   * (1 + r / 12))))))))))))%float.
Fixpoint square_times (n : nat) (x : float) : float :=
  match n with
  | O => x
  | S n => square_times n (x * x)%float
  end.
Definition Math_exp (x : float) : float :=
  square_times 10 (exp_series (x / 1024)%float).

(** The default weights and a memory of the given age, in binary64. *)
Definition default_weights : Retriever64.Weights :=
  {| Retriever64.recencyWeight := 0.3%float;
     Retriever64.importanceWeight := 0.4%float;
     Retriever64.relevanceWeight := 0.3%float |}.

End Scenario64.

(** ** More of the store: scores, typed queries ([src/memory/store.js]) *)

Module Queries.

Import Store.

(** [a >= b] on a nullable REAL column: unknown on NULL. *)
Definition ge_real (a b : option Q) : option bool :=
  match a, b with
  | Some x, Some y => Some (Qle_bool y x)
  | _, _ => None
  end.

(** [ORDER BY surprise_score DESC, created_at DESC]. *)
Definition by_surprise_desc (x y : Z * Row.t) : Prop :=
  match SQL.cmp_real (Row.surprise_score y.2) (Row.surprise_score x.2) with
  | Lt => True
  | Eq => Row.created_at y.2 <= Row.created_at x.2
  | Gt => False
  end.

#[export] Instance by_surprise_desc_dec x y : Decision (by_surprise_desc x y).
Proof. unfold by_surprise_desc. destruct (SQL.cmp_real _ _); apply _. Defined.

(** [WHERE surprise_score >= ?] *)
Definition surprise_clause (minScore : Q) (x : Z * Row.t) : bool :=
  SQL.holds (ge_real (Row.surprise_score x.2) (Some minScore)).

(** [WHERE type = ?] *)
Definition type_clause (type : string) (x : Z * Row.t) : bool :=
  SQL.holds (SQL.eq (Some (Row.type x.2)) (Some type)).



Section WithJSON.

Context {Metadata : Type}.
Variable empty_object : Metadata.
Variable JSON_parse : string -> option Metadata.

(** [getMemoriesBySurprise({ minScore = 0.3, limit = 10 })]. *)
Definition getMemoriesBySurprise (minScore : option Q) (limit : option Z) (db : table)
    : list (Memory.t Metadata) :=
  let minScore := nullish minScore 0.3%Q in
  let limit := nullish limit 10 in
  let rows :=
    SQL.limit limit
      (merge_sort by_surprise_desc
         (filter (fun x => surprise_clause minScore x = true) (map_to_list db))) in
  toMemory empty_object JSON_parse <$> rows.

(** [getMemoriesByType(type, limit = 10)]. *)
Definition getMemoriesByType (type : string) (limit : option Z) (db : table)
    : list (Memory.t Metadata) :=
  let limit := nullish limit 10 in
  let rows :=
    SQL.limit limit
      (merge_sort by_importance_desc
         (filter (fun x => type_clause type x = true) (map_to_list db))) in
  toMemory empty_object JSON_parse <$> rows.

(** [ORDER BY surprise_score DESC, created_at DESC], read on the
    memories returned. *)
Definition more_surprising_first (a b : Memory.t Metadata) : Prop :=
  (Memory.surpriseScore b < Memory.surpriseScore a)%Q
  \/ ((Memory.surpriseScore b == Memory.surpriseScore a)%Q
      /\ Memory.createdAt b <= Memory.createdAt a).

End WithJSON.

(** [ORDER BY <key> DESC, created_at DESC] for a nullable REAL column. *)
Definition lex_desc (key : Row.t -> option Q) (x y : Z * Row.t) : Prop :=
  match SQL.cmp_real (key y.2) (key x.2) with
  | Lt => True
  | Eq => Row.created_at y.2 <= Row.created_at x.2
  | Gt => False
  end.

End Queries.

(** ** Entity tracking ([src/memory/store.js]) *)

Module EntityRow.
(** Modelled from the spec: the table [memory_entities] is declared by
    the database module, which is not among the sources.  A row
    without the two columns of its unique key [(entity_type,
    entity_name)], which index the table. *)
Record t : Type := mk {
  id : Z;
  first_seen_at : Z;
  last_seen_at : Z;
  occurrence_count : option Z;
  properties : option string;
}.
End EntityRow.

Module Entity.
Record t (Properties : Type) : Type := mk {
  id : Z;
  entityType : string;
  entityName : string;
  firstSeenAt : Z;
  lastSeenAt : Z;
  occurrenceCount : Z;
  properties : Properties;
}.
Arguments mk {Properties}.
Arguments id {Properties}.
Arguments entityType {Properties}.
Arguments entityName {Properties}.
Arguments firstSeenAt {Properties}.
Arguments lastSeenAt {Properties}.
Arguments occurrenceCount {Properties}.
Arguments properties {Properties}.
End Entity.

Module Entities.

Import Store.

Abbreviation entities := (gmap (string * string) EntityRow.t).

(** The rowid given to a new entity: one more than the largest in use. *)
Definition max_id (db : entities) : Z :=
  map_fold (fun _ row acc => Z.max (EntityRow.id row) acc) 0 db.
Definition next_id (db : entities) : Z := 1 + max_id db.

(** Ordering of a nullable INTEGER column: NULL sorts below every value. *)
Definition cmp_int (a b : option Z) : comparison :=
  match a, b with
  | None, None => Eq
  | None, Some _ => Lt
  | Some _, None => Gt
  | Some x, Some y => (x ?= y)
  end.

(** [ORDER BY occurrence_count DESC]. *)
Definition by_occurrence_desc (x y : string * string * EntityRow.t) : Prop :=
  cmp_int (EntityRow.occurrence_count y.2) (EntityRow.occurrence_count x.2) <> Gt.

#[export] Instance by_occurrence_desc_dec x y : Decision (by_occurrence_desc x y).
Proof. unfold by_occurrence_desc. apply _. Defined.

Section WithJSON.

Context {Properties : Type}.
Variable empty_object : Properties.
Variable JSON_stringify : Properties -> option string.
Variable JSON_parse : string -> option Properties.

Definition toEntity (x : string * string * EntityRow.t) : Entity.t Properties :=
  let row := x.2 in
  {| Entity.id := EntityRow.id row;
     Entity.entityType := x.1.1;
     Entity.entityName := x.1.2;
     Entity.firstSeenAt := EntityRow.first_seen_at row;
     Entity.lastSeenAt := EntityRow.last_seen_at row;
     Entity.occurrenceCount := nullish (EntityRow.occurrence_count row) 1;
     Entity.properties := parseJSON JSON_parse (EntityRow.properties row) empty_object |}.

(** [trackEntity(entityType, entityName, properties = {})]: the upsert
    [INSERT ... ON CONFLICT(entity_type, entity_name) DO UPDATE SET ...]. *)
Definition trackEntity (now : Z) (entityType entityName : string)
    (properties : option Properties) (db : entities) : entities :=
  let properties := serialize JSON_stringify (Some (nullish properties empty_object)) in
  match db !! (entityType, entityName) with
  | Some row =>
      <[(entityType, entityName) :=
          {| EntityRow.id := EntityRow.id row;
             EntityRow.first_seen_at := EntityRow.first_seen_at row;
             EntityRow.last_seen_at := now;
             EntityRow.occurrence_count := (fun n => n + 1) <$> EntityRow.occurrence_count row;
             EntityRow.properties := properties |}]> db
  | None =>
      <[(entityType, entityName) :=
          {| EntityRow.id := next_id db;
             EntityRow.first_seen_at := now;
             EntityRow.last_seen_at := now;
             EntityRow.occurrence_count := Some 1;
             EntityRow.properties := properties |}]> db
  end.

(** [getEntity(entityType, entityName)]. *)
Definition getEntity (entityType entityName : string) (db : entities)
    : option (Entity.t Properties) :=
  (fun row => toEntity (entityType, entityName, row)) <$> db !! (entityType, entityName).

(** [getAllEntities(limit = 100)]. *)
Definition getAllEntities (limit : option Z) (db : entities) : list (Entity.t Properties) :=
  let limit := nullish limit 100 in
  toEntity <$> SQL.limit limit (merge_sort by_occurrence_desc (map_to_list db)).

End WithJSON.

End Entities.

(** ** Context formatting ([src/memory/retriever.js]) *)

Module Formatting.

Local Open Scope string_scope.

Definition newline : string := String (ascii_of_N 10) "".

(** [`${n} ${unit}${n > 1 ? 's' : ''} ago`] *)
Definition ago (n : Z) (unit : string) : string :=
  pretty n ++ " " ++ unit ++ (if (1 <? n)%Z then "s" else "") ++ " ago".

(** [formatAge(ageMs)]; [Math.floor(a / b)] is [a / b] on integers. *)
Definition formatAge (ageMs : Z) : string :=
  let seconds := ageMs / 1000 in
  let minutes := seconds / 60 in
  let hours := minutes / 60 in
  let days := hours / 24 in
  let weeks := days / 7 in
  if (0 <? weeks)%Z then ago weeks "week"
  else if (0 <? days)%Z then ago days "day"
  else if (0 <? hours)%Z then ago hours "hour"
  else if (0 <? minutes)%Z then ago minutes "minute"
  else "just now".

(** [lines.join(sep)] *)
Fixpoint join (sep : string) (lines : list string) : string :=
  match lines with
  | [] => ""
  | [l] => l
  | l :: rest => l ++ sep ++ join sep rest
  end.

Section WithMetadata.

Context {Metadata : Type}.

(** One line of [formatMemoriesForContext]; [index] counts from 0. *)
Definition format_line (now : Z) (index : nat) (memory : Memory.t Metadata) : string :=
  let age := formatAge (now - Memory.createdAt memory) in
  let typeLabel :=
    if bool_decide (Memory.type memory = "") then "memory" else Memory.type memory in
  pretty (S index) ++ ". [" ++ typeLabel ++ "] " ++ Memory.content memory
    ++ " (" ++ age ++ ")".

Definition formatMemoriesForContext (now : Z) (memories : list (Memory.t Metadata))
    : string :=
  if bool_decide (length memories = 0%nat) then ""
  else join newline (imap (format_line now) memories).

(** What [injectMemoriesIntoSystem] returns: a system prompt (possibly
    [null]) or the pair [{ system, memoryPreamble }]. *)
Inductive Injected : Type :=
| System (system : option string)
| Preamble (system : option string) (memoryPreamble : string).

Definition memoryBlock (formattedMemories : string) : string :=
  newline ++ "<long_term_memory>" ++ newline
    ++ "The following are relevant facts and context from previous conversations:"
    ++ newline ++ formattedMemories ++ newline ++ "</long_term_memory>".

(** [injectMemoriesIntoSystem(existingSystem, memories, format = 'system')] *)
Definition injectMemoriesIntoSystem (now : Z) (existingSystem : option string)
    (memories : list (Memory.t Metadata)) (format : option string) : Injected :=
  let format := default "system" format in
  if bool_decide (length memories = 0%nat) then System existingSystem
  else
    let formattedMemories := formatMemoriesForContext now memories in
    if bool_decide (format = "system") then
      System (Some (if Store.falsy existingSystem
                    then memoryBlock formattedMemories
                    else default "" existingSystem ++ newline ++ memoryBlock formattedMemories))
    else if bool_decide (format = "assistant_preamble") then
      Preamble existingSystem formattedMemories
    else System existingSystem.

End WithMetadata.

(** The shapes of a chat message that [extractQueryFromMessage] tells
    apart. *)
Inductive Block : Type :=
| BlockNull                                             (* null or undefined *)
| BlockString (s : string)                              (* a bare string *)
| BlockObject (type : option string) (text : option string).

Inductive Content : Type :=
| ContentMissing                                        (* undefined, null *)
| ContentString (s : string)
| ContentArray (blocks : list Block)
| ContentOther.                                         (* any other truthy value *)

Inductive Message : Type :=
| MessageMissing                                        (* undefined, null *)
| MessageString (s : string)
| MessageObject (content : Content).

(** [block?.type === 'text' || typeof block === 'string'] *)
Definition is_text (block : Block) : bool :=
  match block with
  | BlockNull => false
  | BlockString _ => true
  | BlockObject type _ => bool_decide (type = Some "text")
  end.

(** [typeof block === 'string' ? block : block.text] *)
Definition block_text (block : Block) : option string :=
  match block with
  | BlockNull => None
  | BlockString s => Some s
  | BlockObject _ text => text
  end.

(** [.filter(Boolean)] on strings and [undefined]. *)
Definition truthy_texts (texts : list (option string)) : list string :=
  omap (fun t => match t with
                 | Some s => if bool_decide (s = "") then None else Some s
                 | None => None
                 end) texts.

Definition extractQueryFromMessage (message : Message) : string :=
  match message with
  | MessageMissing => ""
  | MessageString s => s
  | MessageObject content =>
      match content with
      | ContentMissing => ""
      | ContentString s => s
      | ContentArray blocks =>
          join " " (truthy_texts (block_text <$> filter (fun b => is_text b = true) blocks))
      | ContentOther => ""
      end
  end.

End Formatting.

(** ** Ranked retrieval ([src/memory/retriever.js])

    [search.searchMemories] belongs to the search module, which is not
    among the sources; it is a parameter that may throw. *)

Module SearchOptions.
Record t : Type := mk {
  query : string;
  limit : Z;
  sessionId : option string;
}.
End SearchOptions.

Module RetrieveOptions.
Record t : Type := mk {
  limit : option Z;
  sessionId : option string;
  includeGlobal : option bool;
  recencyWeight : option Q;
  importanceWeight : option Q;
  relevanceWeight : option Q;
}.
End RetrieveOptions.

Module Stats.
Record t : Type := mk {
  total : Z;
  byType : list (string * Z);
  recentCount : Z;
  importantCount : Z;
  sessionId : option string;
}.
End Stats.

Module Ranking.

Import Store.

(** [arr.slice(0, end)]: a negative [end] counts from the end. *)
Definition slice0 {A} (end_ : Z) (l : list A) : list A :=
  if end_ <? 0 then take (Z.to_nat (Z.of_nat (length l) + end_)) l
  else take (Z.to_nat end_) l.

Section WithSearch.

Context {Metadata : Type}.
Variable empty_object : Metadata.
Variable JSON_parse : string -> option Metadata.
Variable extractKeywords : string -> list string.
Variable searchMemories : SearchOptions.t -> table -> result (list (Memory.t Metadata)).

(** [mergeUnique(arrays)]: [seen] is the set of ids met so far. *)
Definition merge_item (acc : gset Z * list (Memory.t Metadata)) (item : Memory.t Metadata)
    : gset Z * list (Memory.t Metadata) :=
  if bool_decide (Memory.id item ∈ acc.1) then acc
  else ({[Memory.id item]} ∪ acc.1, acc.2 ++ [item]).

Definition mergeUnique (arrays : list (list (Memory.t Metadata)))
    : list (Memory.t Metadata) :=
  (foldl (fun acc arr => foldl merge_item acc arr) (∅, []) arrays).2.

(** The memory object as [calculateRetrievalScore] reads it. *)
Definition as_candidate (memory : Memory.t Metadata) : Retriever.Candidate :=
  Retriever.candidate (Memory.content memory) (Some (Memory.importance memory))
    (Memory.createdAt memory) (Memory.lastAccessedAt memory).

(** [scored.sort((a, b) => b.score - a.score)]: a stable sort, highest
    score first. *)
Fixpoint score_insert (x : Memory.t Metadata * R) (sorted : list (Memory.t Metadata * R))
    : list (Memory.t Metadata * R) :=
  match sorted with
  | [] => [x]
  | y :: rest =>
      if Rlt_dec x.2 y.2 then y :: score_insert x rest else x :: y :: rest
  end.
Definition sort_by_score (scored : list (Memory.t Metadata * R))
    : list (Memory.t Metadata * R) :=
  foldr score_insert [] scored.

(** [retrieveRelevantMemories(query, options = {})]: the memories
    returned and the ids whose access count the [setImmediate] callback
    will increment. *)
Definition retrieveRelevantMemories (now : Z) (query : string)
    (options : RetrieveOptions.t) (db : table) : list (Memory.t Metadata) * list Z :=
  let limit := nullish (RetrieveOptions.limit options) 10 in
  let sessionId := RetrieveOptions.sessionId options in
  let includeGlobal := nullish (RetrieveOptions.includeGlobal options) true in
  let weights :=
    {| Retriever.recencyWeight := nullish (RetrieveOptions.recencyWeight options) 0.3%Q;
       Retriever.importanceWeight := nullish (RetrieveOptions.importanceWeight options) 0.4%Q;
       Retriever.relevanceWeight := nullish (RetrieveOptions.relevanceWeight options) 0.3%Q |} in
  let scope := if includeGlobal then None else sessionId in
  match searchMemories {| SearchOptions.query := query;
                          SearchOptions.limit := limit * 3;
                          SearchOptions.sessionId := scope |} db with
  | Throw _ => ([], [])
  | Ok ftsResults =>
      let recentMemories :=
        getRecentMemories empty_object JSON_parse (Some (limit * 2)) scope db in
      let importantMemories :=
        getMemoriesByImportance empty_object JSON_parse (Some (limit * 2)) scope db in
      let candidates := mergeUnique [ftsResults; recentMemories; importantMemories] in
      let scored :=
        (fun memory =>
           (memory,
            Retriever.calculateRetrievalScore extractKeywords now
              (as_candidate memory) query weights)) <$> candidates in
      let topMemories := fst <$> slice0 limit (sort_by_score scored) in
      (topMemories, Memory.id <$> topMemories)
  end.

(** The [setImmediate] callback of [retrieveRelevantMemories]. *)
Definition increment_all (now : Z) (ids : list Z) (db : table) : table :=
  foldl (fun db id => incrementAccessCount now id db) db ids.

Definition memory_types : list string :=
  [ "preference"; "decision"; "fact"; "entity"; "relationship" ].

(** [getMemoryStats(sessionId = null)] *)
Definition getMemoryStats (sessionId : option string) (db : table) : option Stats.t :=
  let total := countMemories None db in
  let byType :=
    (fun type =>
       (type,
        Z.of_nat (length (Queries.getMemoriesByType empty_object JSON_parse
                            type (Some 1000) db)))) <$> memory_types in
  let recent := getRecentMemories empty_object JSON_parse (Some 10) sessionId db in
  let important := getMemoriesByImportance empty_object JSON_parse (Some 10) sessionId db in
  Some {| Stats.total := total;
          Stats.byType := byType;
          Stats.recentCount := Z.of_nat (length recent);
          Stats.importantCount := Z.of_nat (length important);
          Stats.sessionId := sessionId |}.

End WithSearch.

End Ranking.

(** ** Forgetting memories ([src/memory/tools.js]) *)

Module Forget.

Import Tools.
Local Open Scope string_scope.

Record Args : Type := {
  arg_query : JsValue;
  arg_confirm : JsValue;
}.

Section WithSearch.

Context {Metadata : Type}.
Variable searchMemories :
  SearchOptions.t -> Store.table -> result (list (Memory.t Metadata)).

(** One entry of the preview list.  (An array is written as the object
    of its indices.) *)
Definition preview_entry (now : Z) (idx : nat) (mem : Memory.t Metadata) : Json :=
  JsonObj
    [ field "index" (JsonInt (Z.of_nat (S idx)));
      field "type" (JsonString (Memory.type mem));
      field "content"
        (JsonString (substring 0 100 (Memory.content mem)
                     ++ (if (100 <? Str.length (Memory.content mem))%Z then "..." else "")));
      field "age" (JsonString (Formatting.formatAge (now - Memory.createdAt mem))) ].

(** The deletion loop: the store after it and [deletedCount]. *)
Definition delete_all (matches : list (Memory.t Metadata)) (db : Store.table)
    : Z * Store.table :=
  foldl (fun '(deletedCount, db) memory =>
           let '(deleted, db') := Store.deleteMemory (Memory.id memory) db in
           (if deleted then deletedCount + 1 else deletedCount, db'))
        (0, db) matches.

Definition memory_forget (now : Z) (args : Args) (context : ToolContext)
    (db : Store.table) : ToolResult * Store.table :=
  let query := arg_query args in
  let confirm := or_default (arg_confirm args) (JBoolean false) in
  if not query || negb (String.eqb (typeof query) "string") then
    (error "Query parameter is required and must be a string", db)
  else
    match query with
    | JString query =>
        match searchMemories {| SearchOptions.query := query;
                                SearchOptions.limit := 50;
                                SearchOptions.sessionId := id <$> session context |} db with
        | Throw err =>
            ({| ok := false;
                content :=
                  JsonObj [ field "error" (JsonString "Failed to delete memories");
                            field "message" (JsonString (message err)) ];
                metadata := None |},
             db)
        | Ok matches =>
            if bool_decide (length matches = 0%nat) then
              ({| ok := true;
                  content :=
                    JsonObj [ field "message"
                                (JsonString "No memories found matching the query");
                              field "query" (JsonString query) ];
                  metadata := None |},
               db)
            else if not confirm then
              let preview := imap (preview_entry now) (take 5 matches) in
              ({| ok := false;
                  content :=
                    JsonObj
                      [ field "message"
                          (JsonString
                             "Found memories matching query. Set confirm=true to delete them.");
                        field "query" (JsonString query);
                        field "matchCount" (JsonInt (Z.of_nat (length matches)));
                        field "preview" (JsonObj (imap (fun i e => field (pretty i) e) preview));
                        field "warning" (JsonString "This action cannot be undone") ];
                  metadata :=
                    Some (JsonObj
                            [ field "requiresConfirmation" (JsonBool true);
                              field "matchCount" (JsonInt (Z.of_nat (length matches))) ]) |},
               db)
            else
              let '(deletedCount, db') := delete_all matches db in
              ({| ok := true;
                  content :=
                    JsonObj
                      [ field "message"
                          (JsonString ("Deleted " ++ pretty deletedCount ++ " memories"));
                        field "query" (JsonString query);
                        field "deletedCount" (JsonInt deletedCount) ];
                  metadata := Some (JsonObj [field "deletedCount" (JsonInt deletedCount)]) |},
               db')
        end
    | _ =>
        (* not reached: the guard above has passed *)
        (error "Query parameter is required and must be a string", db)
    end.

End WithSearch.

End Forget.

(** ** Orders the sorts of the memory engine establish *)

Module Orderings.

(** [(a, b) => (b.createdAt || 0) - (a.createdAt || 0)] is not positive. *)
Definition newest_first (a b : Surprise.MemoryLike) : Prop :=
  (Surprise.created_or_zero b <= Surprise.created_or_zero a)%Z.

(** [(a, b) => b.score - a.score] is not positive. *)
Definition higher_first {Metadata : Type} (x y : Memory.t Metadata * R) : Prop :=
  (y.2 <= x.2)%R.

End Orderings.

(** * Properties *)

(** ** The store *)

Module StoreProps.
Import Store.

Lemma foldr_max_ub (l : list (Z * Row.t)) k r :
  (k, r) ∈ l -> k <= foldr (uncurry (fun k (_ : Row.t) acc => Z.max k acc)) 0 l.
Proof.
  induction l as [|[k' r'] l IH]; intros Hin.
  - by apply elem_of_nil in Hin.
  - apply elem_of_cons in Hin as [Heq | Hin]; simpl.
    + inversion Heq; subst. lia.
    + specialize (IH Hin). lia.
Qed.

Lemma max_rowid_ub (db : table) k r : db !! k = Some r -> k <= max_rowid db.
Proof.
  intros Hk. unfold max_rowid. rewrite map_fold_foldr.
  apply elem_of_map_to_list in Hk.
  exact (foldr_max_ub (map_to_list db) k r Hk).
Qed.

Lemma next_rowid_fresh (db : table) : db !! next_rowid db = None.
Proof.
  destruct (db !! next_rowid db) as [r|] eqn:E; [|done].
  apply max_rowid_ub in E. unfold next_rowid in E. lia.
Qed.

Lemma sql_delete_nothing (P : Z * Row.t -> Prop) `{!forall x, Decision (P x)}
    (db : table) :
  (forall k r, db !! k = Some r -> ~ P (k, r)) -> sql_delete P db = (0, db).
Proof.
  intros HP. unfold sql_delete. f_equal.
  - replace (filter P db) with (∅ : table); [done|].
    symmetry. apply map_empty. intros i.
    apply map_lookup_filter_None. right. intros x Hx. by apply HP.
  - apply map_filter_id. intros i x Hx. by apply HP.
Qed.

Lemma limit_length {A} (n : Z) (l : list A) :
  0 <= n -> (length (SQL.limit n l) <= Z.to_nat n)%nat.
Proof.
  intros Hn. unfold SQL.limit. destruct (n <? 0) eqn:E; [lia|].
  rewrite length_take. lia.
Qed.

Lemma limit_all {A} (n : Z) (l : list A) :
  n < 0 \/ Z.of_nat (length l) <= n -> SQL.limit n l = l.
Proof.
  intros Hn. unfold SQL.limit. destruct (n <? 0) eqn:E; [done|].
  apply take_ge. lia.
Qed.

Lemma limit_split {A} (n : Z) (l : list A) :
  exists rest, l = SQL.limit n l ++ rest.
Proof.
  unfold SQL.limit. destruct (n <? 0).
  - exists []. by rewrite app_nil_r.
  - exists (drop (Z.to_nat n) l). by rewrite take_drop.
Qed.

Lemma filter_all {A} (P : A -> Prop) `{!forall x, Decision (P x)} (l : list A) :
  (forall x, P x) -> filter P l = l.
Proof.
  intros HP. induction l as [|x l IH]; [done|].
  rewrite filter_cons_True by done. by rewrite IH.
Qed.

#[export] Instance by_created_desc_trans : Transitive by_created_desc.
Proof. unfold by_created_desc. intros x y z. lia. Qed.

#[export] Instance by_created_desc_total : Total by_created_desc.
Proof. unfold by_created_desc. intros x y. lia. Qed.

(** After [pruneByCount] every surviving rowid is again among the
    top [maxCount]. *)
Lemma top_ids_complete maxCount (db : table) k r :
  (pruneByCount maxCount db).2 !! k = Some r ->
  k ∈ top_ids maxCount (pruneByCount maxCount db).2.
Proof.
  set (db1 := (pruneByCount maxCount db).2). intros Hk.
  assert (Hall : SQL.limit maxCount (merge_sort by_importance_desc (map_to_list db1))
                 = merge_sort by_importance_desc (map_to_list db1)).
  { apply limit_all. destruct (Z.lt_ge_cases maxCount 0) as [?|Hge]; [by left|right].
    rewrite merge_sort_Permutation, length_map_to_list.
    assert (Hkeys : (map_to_list db1).*1 ⊆+ top_ids maxCount db).
    { apply NoDup_submseteq; [apply NoDup_fst_map_to_list|].
      intros i Hi. apply list_elem_of_fmap in Hi as ([i' x] & -> & Hi).
      apply elem_of_map_to_list in Hi. subst db1. unfold pruneByCount, sql_delete in Hi.
      simpl in Hi. apply map_lookup_filter_Some in Hi as [_ Hi]. simpl in Hi.
      by apply dec_stable in Hi. }
    apply submseteq_length in Hkeys.
    rewrite length_fmap, length_map_to_list in Hkeys.
    unfold top_ids in Hkeys. rewrite length_fmap in Hkeys.
    pose proof (limit_length maxCount (merge_sort by_importance_desc (map_to_list db)) Hge).
    lia. }
  unfold top_ids. rewrite Hall.
  apply list_elem_of_fmap. exists (k, r). split; [done|].
  rewrite merge_sort_Permutation. by apply elem_of_map_to_list.
Qed.

(** C9, as the code has it.  [pruneByCount] is idempotent: a second
    call with the same [maxCount] deletes no row and returns 0.
    [pruneOldMemories] reads the clock in each call: after a first call
    at clock [now], a second call with the same [maxAge] at clock
    [now'], nothing having been written in between, deletes exactly the
    rows created in the interval from [now - maxAge] to
    [now' - maxAge], those that have aged past the cutoff meanwhile,
    and returns their number; it deletes nothing and returns 0 when the
    clock has not advanced.  Neither call can fail. *)
Theorem prune_idempotent now now' olderThanMs maxCount (db : table) :
  let first := pruneOldMemories now olderThanMs db in
  let second := pruneOldMemories now' olderThanMs first.2 in
  second.1
  = Z.of_nat (size (filter (fun x : Z * Row.t =>
                              now - olderThanMs <= Row.created_at x.2
                              /\ Row.created_at x.2 < now' - olderThanMs) db))
  /\ (forall id row, second.2 !! id = Some row
                     <-> db !! id = Some row
                         /\ now - olderThanMs <= Row.created_at row
                         /\ now' - olderThanMs <= Row.created_at row)
  /\ (now' <= now -> second = (0, first.2))
  /\ pruneByCount maxCount (pruneByCount maxCount db).2
    = (0, (pruneByCount maxCount db).2).
Proof.
  intros first second. split; [|split; [|split]].
  - unfold second, first, pruneOldMemories, sql_delete. simpl. f_equal. f_equal.
    rewrite map_filter_filter. apply map_filter_ext. intros k r _. simpl. lia.
  - intros id row. unfold second, first, pruneOldMemories, sql_delete. simpl.
    rewrite !map_lookup_filter_Some. simpl. split.
    + intros [[Hrow H1] H2]. split; [done|]. lia.
    + intros (Hrow & H1 & H2). split; [split; [done|]|]; lia.
  - intros Hclock. unfold second, first, pruneOldMemories.
    apply sql_delete_nothing. simpl. intros k r Hk.
    apply map_lookup_filter_Some in Hk as [_ Hk]. simpl in Hk. lia.
  - unfold pruneByCount at 1. apply sql_delete_nothing.
    intros k r Hk HP. apply HP. by eapply top_ids_complete.
Qed.


Section WithJSON.
Context {Metadata : Type}.
Variable empty_object : Metadata.
Variable JSON_stringify : Metadata -> option string.
Variable JSON_parse : string -> option Metadata.


Lemma createMemory_Throw now (options : Options.t Metadata) db :
  falsy (Options.content options) = true \/ falsy (Options.type options) = true ->
  createMemory empty_object JSON_stringify now options db = Throw ContentAndTypeRequired.
Proof.
  unfold createMemory.
  destruct (Options.content options) as [c|], (Options.type options) as [t|];
    simpl; try done.
  intros [->| ->]; [done|]. by rewrite orb_true_r.
Qed.

Lemma parseJSON_serialize v fallback :
  JSON_roundtrip JSON_stringify JSON_parse ->
  parseJSON JSON_parse (serialize JSON_stringify (Some v)) fallback = v.
Proof.
  intros Hrt. destruct (Hrt v) as (text & Hs & Hp).
  simpl. rewrite Hs. simpl. by rewrite Hp.
Qed.



Abbreviation createMemory' := (createMemory empty_object JSON_stringify).
Abbreviation getMemory' := (getMemory empty_object JSON_parse).
Abbreviation updateMemory' := (updateMemory empty_object JSON_stringify JSON_parse).


(** C6.  [updateMemory(id, partial)] throws "not found" when no memory
    has that id; otherwise each field of the update surface takes the
    value given in [partial] and keeps its prior value when [partial]
    leaves it out, [updatedAt] becomes [now], and [id], [createdAt],
    [sessionId], [accessCount], [lastAccessedAt], [sourceTurnId] and
    every other memory are unchanged. *)
Theorem updateMemory_frame now id (updates : Updates.t Metadata) (db : table) :
  JSON_roundtrip JSON_stringify JSON_parse ->
  (getMemory' db id = None ->
   updateMemory' now id updates db = Throw (MemoryNotFound id))
  /\ (forall old, getMemory' db id = Some old ->
      exists new db',
        updateMemory' now id updates db = Ok (Some new, db')
        /\ getMemory' db' id = Some new
        /\ Memory.content new = default (Memory.content old) (Updates.content updates)
        /\ Memory.type new = default (Memory.type old) (Updates.type updates)
        /\ Memory.category new =
             match Updates.category updates with
             | Some c => Some c
             | None => Memory.category old
             end
        /\ Memory.importance new
             = default (Memory.importance old) (Updates.importance updates)
        /\ Memory.surpriseScore new
             = default (Memory.surpriseScore old) (Updates.surpriseScore updates)
        /\ Memory.decayFactor new
             = default (Memory.decayFactor old) (Updates.decayFactor updates)
        /\ Memory.metadata new
             = default (Memory.metadata old) (Updates.metadata updates)
        /\ Memory.updatedAt new = now
        /\ Memory.id new = Memory.id old
        /\ Memory.createdAt new = Memory.createdAt old
        /\ Memory.sessionId new = Memory.sessionId old
        /\ Memory.accessCount new = Memory.accessCount old
        /\ Memory.lastAccessedAt new = Memory.lastAccessedAt old
        /\ Memory.sourceTurnId new = Memory.sourceTurnId old
        /\ (forall j, j <> id -> getMemory' db' j = getMemory' db j)).
Proof.
  intros Hrt. split.
  - intros Hnone. unfold updateMemory. by rewrite Hnone.
  - intros old Hold. unfold updateMemory. rewrite Hold.
    unfold getMemory in Hold |- *.
    destruct (db !! id) as [row|] eqn:Hrow; [|done].
    simpl in Hold. injection Hold as <-.
    rewrite lookup_alter_eq, Hrow. simpl.
    eexists _, _. split; [reflexivity|].
    split; [by rewrite lookup_alter_eq, Hrow|].
    unfold toMemory; simpl. repeat (split; [reflexivity|]).
    split.
    { destruct (Hrt (nullish (Updates.metadata updates)
                       (parseJSON JSON_parse (Row.metadata row) empty_object)))
        as (text & Hs & Hp).
      rewrite Hs. simpl. by rewrite Hp. }
    repeat (split; [reflexivity|]).
    intros j Hj. by rewrite lookup_alter_ne.
Qed.

Lemma session_clause_null x : session_clause None x = true.
Proof. unfold session_clause. by destruct (SQL.eq _ _) as [[]|]. Qed.

(** C7.  With [sessionId = null] the [WHERE] clause of
    [getRecentMemories] holds for every row, global or session-scoped:
    the result is a list of stored records, no record twice, in
    descending [createdAt], of length min(limit, number of rows) (all
    rows for a negative limit); every row left out is at most as recent
    as each row returned, and every row of the store, whatever its
    session, is returned when the limit is at least the number of rows
    or negative. *)
Theorem getRecentMemories_null_session (limit : option Z) (db : table) :
  let result := getRecentMemories empty_object JSON_parse limit None db in
  let n := default 10 limit in
  (forall id row, db !! id = Some row -> session_clause None (id, row) = true)
  /\ StronglySorted newer_first result
  /\ (forall m, m ∈ result -> getMemory' db (Memory.id m) = Some m)
  /\ (0 <= n -> length result = Nat.min (Z.to_nat n) (size db))
  /\ (n < 0 -> length result = size db)
  /\ (forall id row, db !! id = Some row ->
        toMemory empty_object JSON_parse (id, row) ∈ result
        \/ forall m, m ∈ result -> Row.created_at row <= Memory.createdAt m)
  /\ NoDup (Memory.id <$> result)
  /\ (n < 0 \/ Z.of_nat (size db) <= n ->
      forall id row, db !! id = Some row ->
        toMemory empty_object JSON_parse (id, row) ∈ result).
Proof.
  intros result n.
  assert (Hresult : result = toMemory empty_object JSON_parse
                               <$> SQL.limit n (merge_sort by_created_desc (map_to_list db))).
  { unfold result, getRecentMemories. fold n.
    rewrite filter_all by (intros x; apply session_clause_null). done. }
  set (all := merge_sort by_created_desc (map_to_list db)) in *.
  assert (Hsorted : StronglySorted by_created_desc all)
    by apply (StronglySorted_merge_sort _).
  destruct (limit_split n all) as (rest & Hsplit).
  assert (Hin : forall x, x ∈ SQL.limit n all -> db !! x.1 = Some x.2).
  { intros [k r] Hx. apply elem_of_map_to_list.
    rewrite <- (merge_sort_Permutation by_created_desc). fold all.
    rewrite Hsplit. apply elem_of_app. by left. }
  split; [intros; apply session_clause_null|].
  split.
  { rewrite Hresult. rewrite Hsplit in Hsorted.
    apply StronglySorted_app_1_l in Hsorted.
    eapply StronglySorted_fmap; [|exact Hsorted]. by intros x y Hxy. }
  split.
  { intros m Hm. rewrite Hresult in Hm.
    apply list_elem_of_fmap in Hm as ([k r] & -> & Hx).
    apply Hin in Hx. simpl in Hx. unfold getMemory. simpl. by rewrite Hx. }
  split.
  { intros Hn. rewrite Hresult, length_fmap. unfold SQL.limit.
    destruct (n <? 0) eqn:E; [lia|].
    rewrite length_take. unfold all.
    by rewrite merge_sort_Permutation, length_map_to_list. }
  split.
  { intros Hn. rewrite Hresult, length_fmap, limit_all by (by left).
    unfold all. by rewrite merge_sort_Permutation, length_map_to_list. }
  assert (Hall : forall id row, db !! id = Some row -> (id, row) ∈ all).
  { intros id row Hrow. unfold all. rewrite merge_sort_Permutation.
    by apply elem_of_map_to_list. }
  split.
  { intros id row Hrow. pose proof (Hall id row Hrow) as Hx.
    rewrite Hsplit in Hx. apply elem_of_app in Hx as [Hx | Hx].
    - left. rewrite Hresult. by apply list_elem_of_fmap_2.
    - right. intros m Hm. rewrite Hresult in Hm.
      apply list_elem_of_fmap in Hm as (y & -> & Hy).
      rewrite Hsplit in Hsorted.
      exact (StronglySorted_app_1_elem_of _ _ _ _ _ Hsorted Hy Hx). }
  split.
  { rewrite Hresult, <- list_fmap_compose.
    assert (Hnd : NoDup (SQL.limit n all ++ rest).*1).
    { rewrite <- Hsplit. unfold all. rewrite merge_sort_Permutation.
      apply NoDup_fst_map_to_list. }
    rewrite fmap_app in Hnd. by apply NoDup_app in Hnd as [? _]. }
  intros Hn id row Hrow. rewrite Hresult. apply list_elem_of_fmap_2.
  rewrite limit_all; [by apply Hall|].
  destruct Hn as [?|Hn]; [by left|right].
  unfold all. by rewrite merge_sort_Permutation, length_map_to_list.
Qed.

End WithJSON.

Local Open Scope string_scope.



Lemma updateMemory_frame_witness :
  exists new db',
    updateMemory Fixture.empty_object Fixture.JSON_stringify Fixture.JSON_parse
      5000 1 Fixture.no_updates Fixture.two_sessions = Ok (Some new, db')
    /\ Memory.content new = "Session 1"
    /\ Memory.createdAt new = 1000
    /\ Memory.updatedAt new = 5000.
Proof.
  destruct (updateMemory_frame Fixture.empty_object Fixture.JSON_stringify
              Fixture.JSON_parse 5000 1 Fixture.no_updates Fixture.two_sessions
              (fun v => ex_intro _ v (conj eq_refl eq_refl))) as [_ Hupdate].
  destruct (getMemory Fixture.empty_object Fixture.JSON_parse Fixture.two_sessions 1)
    as [old|] eqn:Hold; [|by vm_compute in Hold].
  destruct (Hupdate old eq_refl)
    as (new & db' & Hrun & _ & Hcontent & _ & _ & _ & _ & _ & _ & Hupdated & _
        & Hcreated & _).
  exists new, db'. split; [exact Hrun|].
  vm_compute in Hold. injection Hold as <-.
  split; [exact Hcontent|]. split; [exact Hcreated|exact Hupdated].
Defined.

(** With a null session and the default limit, the memory of
    session-1 comes back next to the global one. *)
Lemma getRecentMemories_null_session_witness :
  exists memory,
    memory ∈ getRecentMemories Fixture.empty_object Fixture.JSON_parse None None
               Fixture.mixed_sessions
    /\ Memory.sessionId memory = Some "session-1"
    /\ length (getRecentMemories Fixture.empty_object Fixture.JSON_parse None None
                 Fixture.mixed_sessions) = 2%nat.
Proof.
  destruct (getRecentMemories_null_session Fixture.empty_object Fixture.JSON_parse
              None Fixture.mixed_sessions)
    as (_ & _ & _ & Hlength & _ & _ & _ & Hall).
  destruct (Fixture.mixed_sessions !! 1) as [row|] eqn:Hrow; [|by vm_compute in Hrow].
  exists (toMemory Fixture.empty_object Fixture.JSON_parse (1, row)). split.
  - apply Hall; [right; by vm_compute|exact Hrow].
  - vm_compute in Hrow. injection Hrow as <-. split; [reflexivity|].
    rewrite Hlength; [by vm_compute|done].
Defined.

(** A [null] session returns the global and the session-scoped memory,
    newest first; a session id returns that session's memories only. *)
Example getRecentMemories_all_sessions :
  Memory.content
    <$> getRecentMemories Fixture.empty_object Fixture.JSON_parse None None
          Fixture.mixed_sessions
  = ["Global memory"; "Session 1 memory"].
Proof. by vm_compute. Qed.

Example getRecentMemories_one_session :
  Memory.content
    <$> getRecentMemories Fixture.empty_object Fixture.JSON_parse None (Some "session-1")
          Fixture.mixed_sessions
  = ["Session 1 memory"].
Proof. by vm_compute. Qed.

Lemma countMemories_constant args (db : table) :
  countMemories args db = countMemories None db.
Proof. reflexivity. Qed.

(** C8.  [countMemories({ sessionId })] is meant to count the memories
    of the given session.  On the store of the test "should filter
    count by session id" (one memory in session-1, one in session-2)
    the code returns 2 for session-1, the unfiltered total, where one
    row has that session id. *)
Theorem countMemories_ignores_sessionId :
  countMemories (Some {| count_sessionId := Some "session-1" |}) Fixture.two_sessions = 2
  /\ countMemories None Fixture.two_sessions = 2
  /\ size (filter (fun x : Z * Row.t => Row.session_id x.2 = Some "session-1")
             Fixture.two_sessions) = 1%nat.
Proof. repeat split; by vm_compute. Qed.

(** C9 as stated fails: on the store of two memories created at 1000
    and 2000, [pruneOldMemories] with [maxAge] 2000 deletes nothing at
    clock 2500; called again at clock 3500, with nothing written in
    between, it deletes the memory created at 1000 and returns 1. *)
Remark pruneOldMemories_later_clock :
  (pruneOldMemories 2500 2000 Fixture.two_sessions).1 = 0
  /\ (pruneOldMemories 3500 2000 (pruneOldMemories 2500 2000 Fixture.two_sessions).2).1 = 1.
Proof. split; by vm_compute. Qed.

End StoreProps.

(** ** [createMemory] on every options object *)

Module RawStoreProps.
Import Store.

Section WithJSON.
Context {Metadata : Type}.
Variable empty_object : Metadata.
Variable JSON_stringify : Metadata -> option string.
Variable JSON_parse : string -> option Metadata.

(** On a typed option bag the two embeddings of [createMemory] agree. *)
Lemma createMemory_typed now (options : Options.t Metadata) (db : table) :
  RawStore.createMemory empty_object JSON_stringify now (RawOptions.of_options options) db
  = match createMemory empty_object JSON_stringify now options db with
    | Ok (memory, db') => Ok (Created.of_memory memory, db')
    | Throw e => Throw e
    end.
Proof.
  unfold RawStore.createMemory, createMemory, RawOptions.of_options.
  destruct options as [sessionId [content|] [type|] category importance surpriseScore
                         accessCount decayFactor sourceTurnId metadata]; simpl; try done.
  - destruct (bool_decide (content = ""%string) || bool_decide (type = ""%string));
      [done|].
    destruct sessionId, category, importance, surpriseScore, accessCount, decayFactor,
      sourceTurnId, metadata; reflexivity.
  - by rewrite orb_true_r.
Qed.

(** C2, as the code has it.  Round trip: for every options object with
    non-empty content and type in which none of [importance],
    [surpriseScore], [accessCount], [decayFactor] and [metadata] is
    [null] and none of the three scores is [NaN], and for metadata that
    [JSON.parse] reads back from [JSON.stringify], [createMemory]
    returns a record, [getMemory] of the assigned id returns a record
    equal to it on every field, and the options left out are at their
    defaults (importance 0.5, surpriseScore 0, accessCount 0,
    decayFactor 1.0, nullable fields null, metadata the empty object,
    createdAt = updatedAt = now). *)
Theorem createMemory_getMemory_roundtrip now (options : RawOptions.t Metadata) db
    content type :
  JSON_roundtrip JSON_stringify JSON_parse ->
  RawOptions.content options = Js.Given content -> content <> EmptyString ->
  RawOptions.type options = Js.Given type -> type <> EmptyString ->
  Js.regular (RawOptions.importance options) = true ->
  Js.regular (RawOptions.surpriseScore options) = true ->
  Js.not_null (RawOptions.accessCount options) = true ->
  Js.regular (RawOptions.decayFactor options) = true ->
  Js.not_null (RawOptions.metadata options) = true ->
  exists created memory db',
    RawStore.createMemory empty_object JSON_stringify now options db = Ok (created, db')
    /\ getMemory empty_object JSON_parse db' (Created.id created) = Some memory
    /\ created = Created.of_memory memory
    /\ memory =
         {| Memory.id := next_rowid db;
            Memory.sessionId := Js.or_null (RawOptions.sessionId options);
            Memory.content := content;
            Memory.type := type;
            Memory.category := Js.or_null (RawOptions.category options);
            Memory.importance := Js.number_or 0.5%Q (RawOptions.importance options);
            Memory.surpriseScore := Js.number_or 0.0%Q (RawOptions.surpriseScore options);
            Memory.accessCount := Js.value_or 0 (RawOptions.accessCount options);
            Memory.decayFactor := Js.number_or 1.0%Q (RawOptions.decayFactor options);
            Memory.sourceTurnId := Js.or_null (RawOptions.sourceTurnId options);
            Memory.createdAt := now;
            Memory.updatedAt := now;
            Memory.lastAccessedAt := None;
            Memory.metadata := Js.value_or empty_object (RawOptions.metadata options) |}.
Proof.
  intros Hrt Hc Hne Ht Hnt Hi Hs Ha Hd Hm.
  assert (Hmeta : forall m : Metadata,
            parseJSON JSON_parse (JSON_stringify m) empty_object = m).
  { intros m. apply (StoreProps.parseJSON_serialize JSON_stringify JSON_parse _ _ Hrt). }
  unfold RawStore.createMemory. rewrite Hc, Ht. simpl.
  rewrite !bool_decide_eq_false_2 by done. simpl.
  destruct (RawOptions.importance options) as [| |[i|]]; try done;
    destruct (RawOptions.surpriseScore options) as [| |[u|]]; try done;
    destruct (RawOptions.accessCount options) as [| |a]; try done;
    destruct (RawOptions.decayFactor options) as [| |[d|]]; try done;
    destruct (RawOptions.metadata options) as [| |m]; try done;
    (eexists _, _, _; split; [reflexivity|]; simpl;
     unfold getMemory; rewrite lookup_insert_eq; simpl;
     unfold toMemory; simpl; rewrite Hmeta;
     split; [reflexivity|]; split; reflexivity).
Qed.

End WithJSON.

Local Open Scope string_scope.

Lemma createMemory_getMemory_roundtrip_witness :
  exists created memory db',
    RawStore.createMemory Fixture.empty_object Fixture.JSON_stringify 1000
      (RawOptions.of_options (Fixture.options "Test memory" "fact" None None None)) ∅
    = Ok (created, db')
    /\ getMemory Fixture.empty_object Fixture.JSON_parse db' (Created.id created)
       = Some memory
    /\ created = Created.of_memory memory
    /\ Memory.importance memory = 0.5%Q
    /\ Memory.metadata memory = Fixture.empty_object.
Proof.
  destruct (createMemory_getMemory_roundtrip Fixture.empty_object Fixture.JSON_stringify
              Fixture.JSON_parse 1000
              (RawOptions.of_options (Fixture.options "Test memory" "fact" None None None))
              ∅ "Test memory" "fact"
              (fun v => ex_intro _ v (conj eq_refl eq_refl))
              eq_refl ltac:(discriminate) eq_refl ltac:(discriminate)
              eq_refl eq_refl eq_refl eq_refl eq_refl)
    as (created & memory & db' & Hcreate & Hget & Hsame & ->).
  eexists created, _, db'. split; [exact Hcreate|]. split; [exact Hget|].
  split; [exact Hsame|]. split; reflexivity.
Defined.

(** C2 as stated fails: with [importance: null] the destructuring
    default is skipped, [createMemory] returns the record with
    [importance: null] and stores NULL, and [getMemory] of the assigned
    id reads 0.5 through [??]; the two records differ. *)
Lemma createMemory_null_importance :
  exists created memory db',
    RawStore.createMemory Fixture.empty_object Fixture.JSON_stringify 1000
      (Fixture.null_importance "Test memory" "fact") ∅ = Ok (created, db')
    /\ getMemory Fixture.empty_object Fixture.JSON_parse db' (Created.id created)
       = Some memory
    /\ Created.importance created = None
    /\ Memory.importance memory = 0.5%Q
    /\ created <> Created.of_memory memory.
Proof.
  eexists _, _, _. split; [reflexivity|]. split; [by vm_compute|].
  split; [reflexivity|]. split; [reflexivity|]. intros Heq.
  apply (f_equal Created.importance) in Heq. by vm_compute in Heq.
Qed.

End RawStoreProps.

(** ** The surprise scorer *)

Module SurpriseProps.
Import Surprise.
Local Open Scope Q_scope.

Lemma clamp_unit (x : Q) : 0 <= Qmin 1.0 (Qmax 0.0 x) <= 1.
Proof.
  split.
  - apply Q.min_glb; [by vm_compute|].
    apply Qle_trans with 0.0; [by vm_compute|apply Q.le_max_l].
  - apply Qle_trans with 1.0; [apply Q.le_min_l|by vm_compute].
Qed.

Lemma surprise_body_unit newMemory existingMemories context surprise :
  surprise_body newMemory existingMemories context = Some surprise ->
  0 <= surprise <= 1.
Proof.
  unfold surprise_body. intros H.
  destruct (calculateNovelty _ _); simpl in H; [|done].
  destruct (detectContradiction _ _); simpl in H; [|done].
  destruct (content newMemory); simpl in H; [|done].
  destruct (measureContextSwitch _ _); simpl in H; [|done].
  injection H as <-. apply clamp_unit.
Qed.

Lemma surprise_body_no_content newMemory existingMemories context :
  content newMemory = None ->
  surprise_body newMemory existingMemories context = None.
Proof.
  intros Hc. unfold surprise_body, calculateNovelty, detectContradiction.
  rewrite Hc. by destruct (bool_decide _).
Qed.

(** C3.  [calculateSurprise] is total and its value lies in [0,1] for
    every candidate, every list of existing memories and every optional
    context; whenever the scoring body raises an exception (as it does
    for a candidate without content) the call returns the default 0.5. *)
Theorem calculateSurprise_unit_interval newMemory existingMemories context :
  0 <= calculateSurprise newMemory existingMemories context <= 1
  /\ (surprise_body newMemory existingMemories
        (default {| userContent := None |} context) = None ->
      calculateSurprise newMemory existingMemories context = 0.5)
  /\ (content newMemory = None ->
      calculateSurprise newMemory existingMemories context = 0.5).
Proof.
  unfold calculateSurprise. split; [|split].
  - destruct (surprise_body _ _ _) eqn:E.
    + by eapply surprise_body_unit.
    + split; by vm_compute.
  - by intros ->.
  - intros Hc. by rewrite surprise_body_no_content.
Qed.

Lemma calculateSurprise_unit_interval_witness :
  calculateSurprise Scenario.no_content Scenario.javascript None = 0.5.
Proof.
  apply (calculateSurprise_unit_interval Scenario.no_content Scenario.javascript None).
  reflexivity.
Defined.

(** C4.  In the final revision, the candidate "User prefers TypeScript
    over JavaScript" against the single existing memory "User prefers
    JavaScript for all projects", with user content "Actually, I prefer
    TypeScript", scores 0.4815, which is above 0.4. *)
Theorem surprise_typescript_scenario :
  0.4 < calculateSurprise Scenario.typescript Scenario.javascript Scenario.actually
  /\ Qred (calculateSurprise Scenario.typescript Scenario.javascript Scenario.actually)
     = 963 # 2000.
Proof. split; by vm_compute. Qed.

(** The same scenario in the earlier revision scores 0.1625: without
    the pattern [\bover\b] no contradiction is detected. *)
Lemma surprise_typescript_scenario_early :
  Qred (SurpriseEarly.calculateSurprise
          Scenario.typescript Scenario.javascript Scenario.actually) = 13 # 80.
Proof. by vm_compute. Qed.

(** The earlier revision ends in the same clamp and the same handler. *)
Lemma calculateSurprise_early_unit_interval newMemory existingMemories context :
  0 <= SurpriseEarly.calculateSurprise newMemory existingMemories context <= 1.
Proof.
  unfold SurpriseEarly.calculateSurprise, SurpriseEarly.surprise_body.
  destruct (SurpriseEarly.calculateNovelty _ _); simpl; [|split; by vm_compute].
  destruct (SurpriseEarly.detectContradiction _ _); simpl; [|split; by vm_compute].
  destruct (content newMemory); simpl; [|split; by vm_compute].
  destruct (measureContextSwitch _ _); simpl; [|split; by vm_compute].
  apply clamp_unit.
Qed.

Example detectEmphasis_neutral :
  detectEmphasis "This is a regular statement." == 0.
Proof. by vm_compute. Qed.

Example calculateSurprise_empty_string :
  Qred (calculateSurprise (Scenario.memory "") [] None) = 0.3.
Proof. by vm_compute. Qed.

Example calculateSurprise_emoji :
  Qred (calculateSurprise (Scenario.memory "Ship it 🚀 — café ☕") Scenario.javascript None)
  = 149 # 400.
Proof. by vm_compute. Qed.


End SurpriseProps.

(** ** The retrieval score *)

Module RetrieverProps.
Import Retriever.


Lemma Q2R_nonneg (q : Q) : (0 <= q)%Q -> (0 <= Q2R q)%R.
Proof. intros H. apply Qle_Rle in H. by rewrite RMicromega.Q2R_0 in H. Qed.

Section WithSearch.
Variable extractKeywords : string -> list string.

Abbreviation score := (calculateRetrievalScore extractKeywords).
Abbreviation overlap := (calculateKeywordOverlap extractKeywords).

Lemma overlap_nonneg content query : (0 <= overlap content query)%Q.
Proof.
  unfold calculateKeywordOverlap.
  destruct (_ || _) eqn:E; [unfold Qle; simpl; lia|].
  apply orb_false_iff in E as [E _]. apply bool_decide_eq_false in E.
  apply Qle_shift_div_l.
  - unfold Qlt. simpl. lia.
  - rewrite Qmult_0_l. unfold Qle. simpl. lia.
Qed.



End WithSearch.

Local Open Scope string_scope.



End RetrieverProps.

(** ** The tool adapter *)

Module ToolsProps.
Import Tools.

Section WithJSON.
Context {Metadata : Type}.
Variable empty_object : Metadata.
Variable JSON_stringify : Metadata -> option string.
Variable manual_entry : Z -> Metadata.

Abbreviation memory_add' := (memory_add empty_object JSON_stringify manual_entry).



End WithJSON.

Local Open Scope string_scope.



(** A well-formed call stores one memory and reports success. *)
Example memory_add_accepts :
  exists result db',
    memory_add Fixture.empty_object Fixture.JSON_stringify Fixture.manual_entry 1000
      (Some (Scenario.add_args (JString "Remember this") JUndefined JUndefined))
      (Js.Given Scenario.no_session) ∅
    = Ok (result, db')
    /\ ok result = true /\ size db' = 1%nat.
Proof. eexists _, _. split; [reflexivity|]. split; by vm_compute. Qed.

Example memory_add_rejects_type :
  exists result,
    memory_add Fixture.empty_object Fixture.JSON_stringify Fixture.manual_entry 1000
      (Some (Scenario.add_args (JString "Remember this") (JString "note") JUndefined))
      (Js.Given Scenario.no_session) ∅
    = Ok (result, ∅)
    /\ ok result = false.
Proof. eexists. split; [reflexivity|]. by vm_compute. Qed.

(** An infinite importance is rejected by the guard; a [null] context
    makes the read of [context.session] throw inside the [try], which
    the [catch] reports. *)
Example memory_add_edge_inputs :
  (exists result,
     memory_add Fixture.empty_object Fixture.JSON_stringify Fixture.manual_entry 1000
       (Some (Scenario.add_args (JString "Remember this") JUndefined (JInfinity false)))
       Js.Undefined ∅
     = Ok (result, ∅) /\ ok result = false)
  /\ (exists result,
        memory_add Fixture.empty_object Fixture.JSON_stringify Fixture.manual_entry 1000
          (Some (Scenario.add_args (JString "Remember this") JUndefined JUndefined))
          Js.Null ∅
        = Ok (result, ∅) /\ ok result = false).
Proof. split; (eexists; split; [reflexivity|by vm_compute]). Qed.

End ToolsProps.

(** ** The store: deletion, access, queries, pruning *)

Module LifecycleProps.
Import Store Queries StoreProps.

(** *** Ordering of nullable reals *)

Lemma cmp_real_refl a : SQL.cmp_real a a = Eq.
Proof. destruct a as [x|]; simpl; [|done]. apply Qeq_alt. reflexivity. Qed.

Lemma cmp_real_opp a b : SQL.cmp_real a b = CompOpp (SQL.cmp_real b a).
Proof.
  destruct a as [x|], b as [y|]; simpl; try done.
  unfold Qcompare. apply Z.compare_antisym.
Qed.

Lemma cmp_real_trans a b c :
  SQL.cmp_real a b <> Gt -> SQL.cmp_real b c <> Gt ->
  (SQL.cmp_real a b = Lt \/ SQL.cmp_real b c = Lt -> SQL.cmp_real a c = Lt)
  /\ (SQL.cmp_real a b = Eq -> SQL.cmp_real b c = Eq -> SQL.cmp_real a c = Eq).
Proof.
  destruct a as [x|], b as [y|], c as [z|]; simpl; try done;
    try (intros _ _; split; [by intros [?|?]|done]).
  intros Hxy Hyz.
  assert (Hxy' : (x <= y)%Q) by (apply Qle_alt; done).
  assert (Hyz' : (y <= z)%Q) by (apply Qle_alt; done).
  split.
  - intros [H|H]; apply Qlt_alt in H; apply (proj1 (Qlt_alt _ _)); Lqa.lra.
  - intros H1 H2. apply Qeq_alt in H1, H2. apply (proj1 (Qeq_alt _ _)). Lqa.lra.
Qed.

Section lex.
Variable key : Row.t -> option Q.

Lemma lex_desc_trans : Transitive (lex_desc key).
Proof.
  intros x y z. unfold lex_desc. intros Hxy Hyz.
  destruct (SQL.cmp_real (key y.2) (key x.2)) eqn:E1; try done;
    destruct (SQL.cmp_real (key z.2) (key y.2)) eqn:E2; try done;
    destruct (cmp_real_trans (key z.2) (key y.2) (key x.2)) as [HLt HEq];
    try congruence.
  - rewrite HEq by done. lia.
  - by rewrite HLt by auto.
  - by rewrite HLt by auto.
  - by rewrite HLt by auto.
Qed.

Lemma lex_desc_total : Total (lex_desc key).
Proof.
  intros x y. unfold lex_desc. rewrite (cmp_real_opp (key x.2) (key y.2)).
  destruct (SQL.cmp_real (key y.2) (key x.2)); simpl; auto. lia.
Qed.
End lex.

#[export] Instance by_importance_desc_trans : Transitive by_importance_desc.
Proof. exact (lex_desc_trans Row.importance). Qed.
#[export] Instance by_importance_desc_total : Total by_importance_desc.
Proof. exact (lex_desc_total Row.importance). Qed.
#[export] Instance by_surprise_desc_trans : Transitive by_surprise_desc.
Proof. exact (lex_desc_trans Row.surprise_score). Qed.
#[export] Instance by_surprise_desc_total : Total by_surprise_desc.
Proof. exact (lex_desc_total Row.surprise_score). Qed.

(** *** [SELECT ... WHERE ... ORDER BY ... LIMIT] on a list of rows *)

Lemma select_spec {A} (R : relation A) `{!forall x y, Decision (R x y)}
    `{!Transitive R, !Total R} (P : A -> Prop) `{!forall x, Decision (P x)}
    (n : Z) (l : list A) :
  let rows := SQL.limit n (merge_sort R (filter P l)) in
  StronglySorted R rows
  /\ (forall x, x ∈ rows -> x ∈ l /\ P x)
  /\ (0 <= n -> length rows = Nat.min (Z.to_nat n) (length (filter P l)))
  /\ (n < 0 -> length rows = length (filter P l))
  /\ (forall x, x ∈ l -> P x -> x ∈ rows \/ forall y, y ∈ rows -> R y x)
  /\ (exists rest, rows ++ rest ≡ₚ filter P l).
Proof.
  intros rows.
  set (all := merge_sort R (filter P l)) in *.
  assert (Hsorted : StronglySorted R all) by apply (StronglySorted_merge_sort _).
  assert (Hperm : all ≡ₚ filter P l) by apply merge_sort_Permutation.
  destruct (StoreProps.limit_split n all) as (rest & Hsplit). fold rows in Hsplit.
  split; [|split; [|split; [|split; [|split]]]].
  - rewrite Hsplit in Hsorted. by apply StronglySorted_app_1_l in Hsorted.
  - intros x Hx. assert (Hf : x ∈ filter P l).
    { rewrite <- Hperm, Hsplit. apply elem_of_app. by left. }
    by apply list_elem_of_filter in Hf as [? ?].
  - intros Hn. unfold rows, SQL.limit. destruct (n <? 0) eqn:E; [lia|].
    by rewrite length_take, Hperm.
  - intros Hn. unfold rows. rewrite StoreProps.limit_all by (by left). by rewrite Hperm.
  - intros x Hx HP.
    assert (Hin : x ∈ all) by (rewrite Hperm; by apply list_elem_of_filter).
    rewrite Hsplit in Hin. apply elem_of_app in Hin as [Hin|Hin]; [by left|right].
    intros y Hy. rewrite Hsplit in Hsorted.
    exact (StronglySorted_app_1_elem_of _ _ _ _ _ Hsorted Hy Hin).
  - exists rest. by rewrite <- Hsplit.
Qed.

(** *** The same on a table *)

Lemma length_filter_map_to_list (P : Z * Row.t -> Prop) `{!forall x, Decision (P x)}
    (db : table) :
  length (filter P (map_to_list db)) = size (filter P db).
Proof.
  rewrite map_filter_alt, map_size_list_to_map; [done|].
  eapply sublist_NoDup; [apply (NoDup_fst_map_to_list db)|].
  by apply fmap_sublist, sublist_filter.
Qed.

Lemma table_select_spec (R : relation (Z * Row.t)) `{!forall x y, Decision (R x y)}
    `{!Transitive R, !Total R} (P : Z * Row.t -> Prop) `{!forall x, Decision (P x)}
    (n : Z) (db : table) :
  let rows := SQL.limit n (merge_sort R (filter P (map_to_list db))) in
  StronglySorted R rows
  /\ (forall x, x ∈ rows -> db !! x.1 = Some x.2 /\ P x)
  /\ (0 <= n -> length rows = Nat.min (Z.to_nat n) (size (filter P db)))
  /\ (n < 0 -> length rows = size (filter P db))
  /\ (forall k r, db !! k = Some r -> P (k, r) ->
        (k, r) ∈ rows \/ forall y, y ∈ rows -> R y (k, r))
  /\ NoDup rows.*1.
Proof.
  intros rows.
  destruct (select_spec R P n (map_to_list db))
    as (Hsorted & Hin & Hlen & Hall & Htop & rest & Hrest).
  fold rows in Hsorted, Hin, Hlen, Hall, Htop, Hrest.
  rewrite length_filter_map_to_list in Hlen, Hall.
  split; [done|]. split.
  { intros [k r] Hx. destruct (Hin _ Hx) as [Hl HP].
    by apply elem_of_map_to_list in Hl. }
  split; [done|]. split; [done|]. split.
  { intros k r Hk HP. apply Htop; [by apply elem_of_map_to_list|done]. }
  assert (Hnd : NoDup (rows ++ rest).*1).
  { rewrite Hrest. eapply sublist_NoDup; [apply (NoDup_fst_map_to_list db)|].
    by apply fmap_sublist, sublist_filter. }
  rewrite fmap_app in Hnd. by apply NoDup_app in Hnd as [? _].
Qed.

Lemma size_alter (f : Row.t -> Row.t) id (db : table) : size (alter f id db) = size db.
Proof.
  rewrite <- !(size_dom (D := gset Z)). by rewrite dom_alter_L.
Qed.

(** *** Deleting one memory *)

Lemma filter_rowid (db : table) id :
  filter (fun x : Z * Row.t => x.1 = id) db
  = match db !! id with Some row => {[id := row]} | None => ∅ end.
Proof.
  apply map_eq. intros j. apply option_eq. intros r.
  rewrite map_lookup_filter_Some. simpl.
  destruct (db !! id) as [row|] eqn:E.
  - rewrite lookup_singleton_Some. split.
    + intros [Hj ->]. split; congruence.
    + intros [-> <-]. done.
  - rewrite lookup_empty. split; [|done]. intros [Hj ->]. congruence.
Qed.

Lemma deleteMemory_eq id (db : table) :
  deleteMemory id db = (bool_decide (is_Some (db !! id)), delete id db).
Proof.
  unfold deleteMemory, sql_delete. f_equal.
  - rewrite filter_rowid. destruct (db !! id) as [row|].
    + rewrite map_size_singleton. rewrite !bool_decide_eq_true_2; [done|by eexists|lia].
    + rewrite map_size_empty. rewrite !bool_decide_eq_false_2; [done| |lia].
      by intros [? ?].
  - apply map_eq. intros j. apply option_eq. intros r.
    rewrite map_lookup_filter_Some, lookup_delete_Some. simpl.
    split; intros [? ?]; split; auto.
Qed.

(** *** Pruning *)

Lemma sql_delete_size (P : Z * Row.t -> Prop) `{!forall x, Decision (P x)} (db : table) :
  (sql_delete P db).1 + Z.of_nat (size (sql_delete P db).2) = Z.of_nat (size db).
Proof.
  unfold sql_delete. simpl.
  rewrite <- (map_filter_union_complement P db) at 3.
  rewrite map_size_disj_union by apply map_disjoint_filter_complement. lia.
Qed.

(** X10 ([pruneOldMemories]).  Pruning by age keeps exactly the rows
    created at or after [now - olderThanMs], each unchanged; the count
    returned is the number of rows created before that instant, and the
    table shrinks by that count. *)
Theorem pruneOldMemories_spec now olderThanMs (db : table) :
  let threshold := now - olderThanMs in
  let deleted := (pruneOldMemories now olderThanMs db).1 in
  let db' := (pruneOldMemories now olderThanMs db).2 in
  (forall id row, db' !! id = Some row
                  <-> db !! id = Some row /\ threshold <= Row.created_at row)
  /\ deleted = Z.of_nat (size (filter (fun x : Z * Row.t =>
                                         Row.created_at x.2 < threshold) db))
  /\ countMemories None db' = countMemories None db - deleted.
Proof.
  intros threshold deleted db'. split; [|split].
  - intros id row. unfold db', pruneOldMemories, sql_delete. simpl.
    rewrite map_lookup_filter_Some. simpl. fold threshold. split; intros [? ?]; split; auto; lia.
  - done.
  - unfold countMemories, deleted, db', pruneOldMemories.
    pose proof (sql_delete_size (fun x : Z * Row.t => Row.created_at x.2 < now - olderThanMs) db).
    lia.
Qed.

Lemma top_rows_spec maxCount (db : table) :
  let rows := SQL.limit maxCount (merge_sort by_importance_desc (map_to_list db)) in
  StronglySorted by_importance_desc rows
  /\ NoDup rows.*1
  /\ (forall x, x ∈ rows -> db !! x.1 = Some x.2)
  /\ (0 <= maxCount -> length rows = Nat.min (Z.to_nat maxCount) (size db))
  /\ (maxCount < 0 -> length rows = size db)
  /\ (forall k r, db !! k = Some r ->
        (k, r) ∈ rows \/ forall y, y ∈ rows -> by_importance_desc y (k, r)).
Proof.
  intros rows.
  destruct (table_select_spec by_importance_desc (fun _ => True) maxCount db)
    as (Hsorted & Hin & Hlen & Hall & Htop & Hnd).
  rewrite (filter_all (fun _ : Z * Row.t => True)) in Hsorted, Hin, Hlen, Hall, Htop, Hnd
    by done.
  rewrite (map_filter_id (fun _ : Z * Row.t => True)) in Hlen, Hall by done.
  split; [done|]. split; [done|]. split; [intros x Hx; by apply Hin|].
  split; [done|]. split; [done|]. intros k r Hk. by apply Htop.
Qed.

Lemma top_ids_rows maxCount (db : table) k r :
  db !! k = Some r ->
  k ∈ top_ids maxCount db
  <-> (k, r) ∈ SQL.limit maxCount (merge_sort by_importance_desc (map_to_list db)).
Proof.
  intros Hk. destruct (top_rows_spec maxCount db) as (_ & _ & Hin & _).
  unfold top_ids. rewrite list_elem_of_fmap. split.
  - intros ([k' r'] & -> & Hx). specialize (Hin _ Hx). simpl in *.
    by replace r with r' by congruence.
  - intros Hx. by exists (k, r).
Qed.

(** X11 ([pruneByCount]).  Pruning by count only removes rows and
    returns how many it removed; for [maxCount >= 0] exactly
    [min maxCount (size db)] rows remain, a negative [maxCount] (no
    LIMIT in SQLite) removes nothing, and no removed row precedes a kept
    one in the order importance descending, created_at descending. *)
Theorem pruneByCount_spec maxCount (db : table) :
  let deleted := (pruneByCount maxCount db).1 in
  let db' := (pruneByCount maxCount db).2 in
  (forall id row, db' !! id = Some row -> db !! id = Some row)
  /\ countMemories None db' = countMemories None db - deleted
  /\ (0 <= maxCount -> size db' = Nat.min (Z.to_nat maxCount) (size db))
  /\ (maxCount < 0 -> db' = db /\ deleted = 0)
  /\ (forall k r k' r', db' !! k = Some r -> db !! k' = Some r' -> db' !! k' = None ->
        by_importance_desc (k, r) (k', r')).
Proof.
  intros deleted db'.
  destruct (top_rows_spec maxCount db) as (Hsorted & Hnd & Hin & Hlen & Hall & Htop).
  set (rows := SQL.limit maxCount (merge_sort by_importance_desc (map_to_list db))) in *.
  assert (Hkept : forall k r, db' !! k = Some r <-> (k, r) ∈ rows).
  { intros k r. unfold db', pruneByCount, sql_delete. simpl.
    rewrite map_lookup_filter_Some. simpl. split.
    - intros [Hk Hkeep]. apply dec_stable in Hkeep. by apply (top_ids_rows maxCount db k r).
    - intros Hx. pose proof (Hin _ Hx) as Hk. simpl in Hk. split; [done|].
      intros Hno. apply Hno. by apply (top_ids_rows maxCount db k r). }
  assert (Hsize : size db' = length rows).
  { rewrite <- length_map_to_list. apply Permutation_length.
    apply NoDup_Permutation.
    - apply NoDup_map_to_list.
    - eapply NoDup_fmap_1. exact Hnd.
    - intros [k r]. rewrite elem_of_map_to_list. apply Hkept. }
  split; [|split; [|split; [|split]]].
  - intros id row Hrow. apply Hkept in Hrow. by apply (Hin _ Hrow).
  - unfold countMemories, deleted, db', pruneByCount.
    pose proof (sql_delete_size (fun x : Z * Row.t => x.1 ∉ top_ids maxCount db) db).
    lia.
  - intros Hn. rewrite Hsize. by apply Hlen.
  - intros Hn.
    assert (Hall' : forall k r, db !! k = Some r -> ~ (k ∉ top_ids maxCount db)).
    { intros k r Hk Hno. apply Hno. apply (top_ids_rows maxCount db k r Hk).
      unfold SQL.limit. destruct (maxCount <? 0) eqn:E; [|lia].
      rewrite merge_sort_Permutation. by apply elem_of_map_to_list. }
    unfold deleted, db', pruneByCount.
    rewrite (sql_delete_nothing _ db Hall'). done.
  - intros k r k' r' Hk Hk' Hgone. apply Hkept in Hk.
    destruct (Htop k' r' Hk') as [Hx|Hx]; [|by apply Hx].
    apply Hkept in Hx. congruence.
Qed.

Section WithJSON.
Context {Metadata : Type}.
Variable empty_object : Metadata.
Variable JSON_stringify : Metadata -> option string.
Variable JSON_parse : string -> option Metadata.

Abbreviation getMemory' := (getMemory empty_object JSON_parse).
Abbreviation toMemory' := (toMemory empty_object JSON_parse).

(** X1 ([deleteMemory]).  [deleteMemory id] returns [true] exactly when
    the id was stored; afterwards the id is gone, every other memory
    reads as before, the count drops by one or not at all, and a second
    deletion of the same id returns [false]. *)
Theorem deleteMemory_spec id (db : table) :
  ((deleteMemory id db).1 = true <-> is_Some (getMemory' db id))
  /\ getMemory' (deleteMemory id db).2 id = None
  /\ (forall j, j <> id -> getMemory' (deleteMemory id db).2 j = getMemory' db j)
  /\ countMemories None (deleteMemory id db).2
     = countMemories None db - (if (deleteMemory id db).1 then 1 else 0)
  /\ (deleteMemory id (deleteMemory id db).2).1 = false.
Proof.
  rewrite !deleteMemory_eq. simpl. unfold getMemory, countMemories.
  split; [|split; [|split; [|split]]].
  - rewrite bool_decide_eq_true, fmap_is_Some. done.
  - by rewrite lookup_delete_eq.
  - intros j Hj. by rewrite lookup_delete_ne.
  - destruct (db !! id) as [row|] eqn:E.
    + rewrite bool_decide_eq_true_2 by by eexists.
      rewrite map_size_delete_Some by (by eexists).
      assert (size db <> 0%nat) by (apply map_size_non_empty_iff; intros ->; done).
      lia.
    + rewrite bool_decide_eq_false_2 by (by intros [? ?]).
      rewrite map_size_delete_None by done. lia.
  - rewrite lookup_delete_eq. apply bool_decide_eq_false_2. by intros [? ?].
Qed.

(** X2 ([incrementAccessCount]).  On an id that is not stored the store
    is unchanged; on a stored id the memory read back differs only in
    [accessCount] (one more; 0 when the column is NULL) and
    [lastAccessedAt] (now), while [updatedAt] stays as it was; other
    memories and the count are untouched. *)
Theorem incrementAccessCount_spec now id (db : table) :
  (db !! id = None -> incrementAccessCount now id db = db)
  /\ (forall row, db !! id = Some row ->
       let old := toMemory' (id, row) in
       getMemory' (incrementAccessCount now id db) id
       = Some {| Memory.id := Memory.id old;
                 Memory.sessionId := Memory.sessionId old;
                 Memory.content := Memory.content old;
                 Memory.type := Memory.type old;
                 Memory.category := Memory.category old;
                 Memory.importance := Memory.importance old;
                 Memory.surpriseScore := Memory.surpriseScore old;
                 Memory.accessCount :=
                   match Row.access_count row with
                   | Some n => n + 1
                   | None => 0
                   end;
                 Memory.decayFactor := Memory.decayFactor old;
                 Memory.sourceTurnId := Memory.sourceTurnId old;
                 Memory.createdAt := Memory.createdAt old;
                 Memory.updatedAt := Memory.updatedAt old;
                 Memory.lastAccessedAt := Some now;
                 Memory.metadata := Memory.metadata old |})
  /\ (forall j, j <> id ->
       getMemory' (incrementAccessCount now id db) j = getMemory' db j)
  /\ countMemories None (incrementAccessCount now id db) = countMemories None db.
Proof.
  unfold incrementAccessCount, getMemory, countMemories.
  split; [|split; [|split]].
  - intros Hnone. apply map_eq. intros j. rewrite lookup_alter.
    case_decide; [subst; by rewrite Hnone|done].
  - intros row Hrow. rewrite lookup_alter_eq, Hrow. simpl. unfold toMemory. simpl.
    by destruct (Row.access_count row).
  - intros j Hj. by rewrite lookup_alter_ne.
  - f_equal. apply size_alter.
Qed.


(** X5 ([createMemory]).  A successful creation assigns an id that is
    positive, larger than every id in the store and not stored before;
    the count grows by one and every other memory reads as before. *)
Theorem createMemory_frame now (options : Options.t Metadata) (db db' : table) memory :
  createMemory empty_object JSON_stringify now options db = Ok (memory, db') ->
  getMemory' db (Memory.id memory) = None
  /\ (forall k row, db !! k = Some row -> k < Memory.id memory)
  /\ 0 < Memory.id memory
  /\ countMemories None db' = countMemories None db + 1
  /\ (forall j, j <> Memory.id memory -> getMemory' db' j = getMemory' db j).
Proof.
  unfold createMemory.
  destruct (Options.content options) as [c|]; [|done].
  destruct (Options.type options) as [t|]; [|done].
  destruct (_ || _); [done|]. intros [= <- <-]. simpl.
  unfold getMemory, countMemories.
  split; [by rewrite StoreProps.next_rowid_fresh|].
  split; [intros k row Hk; apply StoreProps.max_rowid_ub in Hk; unfold next_rowid; lia|].
  split.
  { unfold next_rowid, max_rowid. rewrite map_fold_foldr.
    assert (0 <= foldr (uncurry (fun (k : Z) (_ : Row.t) acc => Z.max k acc)) 0
                   (map_to_list db)); [|lia].
    induction (map_to_list db) as [|[k r] l IH]; simpl; lia. }
  split.
  - rewrite map_size_insert_None by apply StoreProps.next_rowid_fresh. lia.
  - intros j Hj. by rewrite lookup_insert_ne.
Qed.

Lemma session_clause_spec (sessionId : option string) (x : Z * Row.t) :
  session_clause sessionId x = true
  <-> sessionId = None \/ Row.session_id x.2 = sessionId.
Proof.
  unfold session_clause. destruct sessionId as [s|], (Row.session_id x.2) as [s'|];
    simpl; try (split; [by auto|done]).
  - case_bool_decide; simpl; split; try done; try (by intros [?|?]); auto.
    + intros _. right. by f_equal.
    + intros [?|[= ?]]; done.
  - split; [done|]. by intros [?|?].
Qed.

(** X6 ([getRecentMemories] with a session).  With [sessionId = s] the
    result holds only stored memories of session [s] (global memories,
    whose session is NULL, are left out), newest first, without
    repetition, [min limit n] of the [n] memories of the session (all of
    them for a negative limit), and no memory of the session left out is
    newer than one returned. *)
Theorem getRecentMemories_session (limit : option Z) (s : string) (db : table) :
  let result := getRecentMemories empty_object JSON_parse limit (Some s) db in
  let n := default 10 limit in
  let in_session := fun x : Z * Row.t => Row.session_id x.2 = Some s in
  (forall m, m ∈ result ->
     Memory.sessionId m = Some s /\ getMemory' db (Memory.id m) = Some m)
  /\ StronglySorted newer_first result
  /\ NoDup (Memory.id <$> result)
  /\ (0 <= n -> length result = Nat.min (Z.to_nat n) (size (filter in_session db)))
  /\ (n < 0 -> length result = size (filter in_session db))
  /\ (forall id row, db !! id = Some row -> Row.session_id row = Some s ->
        toMemory' (id, row) ∈ result
        \/ forall m, m ∈ result -> Row.created_at row <= Memory.createdAt m).
Proof.
  intros result n in_session.
  destruct (table_select_spec by_created_desc
              (fun x => session_clause (Some s) x = true) n db)
    as (Hsorted & Hin & Hlen & Hall & Htop & Hnd).
  unfold result, getRecentMemories. fold n.
  set (rows := SQL.limit n _) in *.
  assert (Hsize : size (filter (fun x => session_clause (Some s) x = true) db)
                  = size (filter in_session db)).
  { f_equal. apply map_filter_ext. intros k r _. rewrite session_clause_spec.
    unfold in_session. simpl. split; [by intros [?|?]|auto]. }
  rewrite Hsize in Hlen, Hall.
  split; [|split; [|split; [|split; [|split]]]].
  - intros m Hm. apply list_elem_of_fmap in Hm as ([k r] & -> & Hx).
    destruct (Hin _ Hx) as [Hk HP]. apply session_clause_spec in HP as [?|HP]; [done|].
    split; [done|]. unfold getMemory. simpl in *. by rewrite Hk.
  - eapply StronglySorted_fmap; [|exact Hsorted]. by intros x y Hxy.
  - by rewrite <- list_fmap_compose.
  - intros Hn. rewrite length_fmap. by apply Hlen.
  - intros Hn. rewrite length_fmap. by apply Hall.
  - intros id row Hrow Hs.
    destruct (Htop id row Hrow) as [Hx|Hx].
    + apply session_clause_spec. by right.
    + left. by apply list_elem_of_fmap_2.
    + right. intros m Hm. apply list_elem_of_fmap in Hm as (y & -> & Hy).
      exact (Hx y Hy).
Qed.

(** X7 ([getMemoriesByImportance]).  The result is the image under
    [toMemory] of stored rows in scope (all rows for a null session, the
    rows of the session otherwise), ordered by importance descending
    then created_at descending, without repetition, [min limit n] of the
    [n] rows in scope, and every row in scope left out is preceded by
    all rows returned. *)
Theorem getMemoriesByImportance_spec (limit : option Z) (sessionId : option string)
    (db : table) :
  let n := default 10 limit in
  let in_scope := fun x : Z * Row.t =>
                    sessionId = None \/ Row.session_id x.2 = sessionId in
  exists rows,
    getMemoriesByImportance empty_object JSON_parse limit sessionId db = toMemory' <$> rows
    /\ StronglySorted by_importance_desc rows
    /\ NoDup rows.*1
    /\ (forall x, x ∈ rows -> db !! x.1 = Some x.2 /\ in_scope x)
    /\ (0 <= n -> length rows = Nat.min (Z.to_nat n) (size (filter in_scope db)))
    /\ (n < 0 -> length rows = size (filter in_scope db))
    /\ (forall k r, db !! k = Some r -> in_scope (k, r) ->
          (k, r) ∈ rows \/ forall y, y ∈ rows -> by_importance_desc y (k, r)).
Proof.
  intros n in_scope.
  destruct (table_select_spec by_importance_desc
              (fun x => session_clause sessionId x = true) n db)
    as (Hsorted & Hin & Hlen & Hall & Htop & Hnd).
  assert (Hsize : size (filter (fun x => session_clause sessionId x = true) db)
                  = size (filter in_scope db)).
  { f_equal. apply map_filter_ext. intros k r _. apply session_clause_spec. }
  rewrite Hsize in Hlen, Hall.
  eexists. split; [reflexivity|]. fold n.
  split; [done|]. split; [done|]. split.
  { intros x Hx. destruct (Hin x Hx) as [? HP]. split; [done|].
    by apply session_clause_spec. }
  split; [done|]. split; [done|].
  intros k r Hk Hs. apply Htop; [done|]. by apply session_clause_spec.
Qed.

Lemma surprise_clause_spec minScore (x : Z * Row.t) :
  surprise_clause minScore x = true
  <-> exists q, Row.surprise_score x.2 = Some q /\ (minScore <= q)%Q.
Proof.
  unfold surprise_clause, ge_real. destruct (Row.surprise_score x.2) as [q|]; simpl.
  - destruct (Qle_bool minScore q) eqn:E.
    + split; [|done]. intros _. exists q. split; [done|]. by apply Qle_bool_iff.
    + split; [done|]. intros (q' & [= <-] & Hq). apply Qle_bool_iff in Hq. congruence.
  - split; [done|]. by intros (q & ? & _).
Qed.

(** X8 ([getMemoriesBySurprise]).  Every memory returned is stored and
    has a surprise score of at least [minScore] (0.3 by default; rows
    with a NULL score never qualify); the result is ordered by surprise
    descending then creation time descending, has no repetition and at
    most [limit] entries, and a qualifying row left out is preceded by
    all memories returned. *)
Theorem getMemoriesBySurprise_spec (minScore : option Q) (limit : option Z) (db : table) :
  let result := getMemoriesBySurprise empty_object JSON_parse minScore limit db in
  let threshold := default 0.3%Q minScore in
  let n := default 10 limit in
  let surprising := fun x : Z * Row.t =>
                      exists q, Row.surprise_score x.2 = Some q /\ (threshold <= q)%Q in
  (forall m, m ∈ result ->
     (threshold <= Memory.surpriseScore m)%Q /\ getMemory' db (Memory.id m) = Some m)
  /\ StronglySorted more_surprising_first result
  /\ NoDup (Memory.id <$> result)
  /\ (0 <= n -> (length result <= Z.to_nat n)%nat)
  /\ (forall id row, db !! id = Some row -> surprising (id, row) ->
        toMemory' (id, row) ∈ result
        \/ forall m, m ∈ result -> more_surprising_first m (toMemory' (id, row))).
Proof.
  intros result threshold n surprising.
  destruct (table_select_spec by_surprise_desc
              (fun x => surprise_clause threshold x = true) n db)
    as (Hsorted & Hin & Hlen & Hall & Htop & Hnd).
  unfold result, getMemoriesBySurprise. fold n. fold threshold.
  set (rows := SQL.limit n _) in *.
  assert (Hrel : forall x y, surprise_clause threshold x = true ->
                  surprise_clause threshold y = true ->
                  by_surprise_desc x y -> more_surprising_first (toMemory' x) (toMemory' y)).
  { intros x y Hx Hy. apply surprise_clause_spec in Hx as (qx & Ex & _).
    apply surprise_clause_spec in Hy as (qy & Ey & _).
    unfold by_surprise_desc, more_surprising_first, toMemory. simpl.
    rewrite Ex, Ey. simpl.
    destruct (qy ?= qx)%Q eqn:E; [|left; by apply Qlt_alt|done].
    intros Hc. right. split; [by apply Qeq_alt|done]. }
  split; [|split; [|split; [|split]]].
  - intros m Hm. apply list_elem_of_fmap in Hm as ([k r] & -> & Hx).
    destruct (Hin _ Hx) as [Hk HP]. apply surprise_clause_spec in HP as (q & Eq & Hq).
    simpl in *. split.
    + unfold toMemory. simpl. by rewrite Eq.
    + unfold getMemory. by rewrite Hk.
  - assert (Hgen : forall l,
              (forall x, x ∈ l -> surprise_clause threshold x = true) ->
              StronglySorted by_surprise_desc l ->
              StronglySorted more_surprising_first (toMemory' <$> l)).
    { intros l Hl Hs. induction Hs as [|x l Hs IH Hx]; [constructor|].
      rewrite fmap_cons. constructor.
      - apply IH. intros y Hy. apply Hl. by right.
      - apply Forall_fmap, Forall_forall. intros y Hy.
        rewrite Forall_forall in Hx. simpl.
        apply Hrel; [apply Hl; by left|apply Hl; by right|by apply Hx]. }
    apply Hgen; [|done]. intros x Hx. by apply Hin.
  - by rewrite <- list_fmap_compose.
  - intros Hn. rewrite length_fmap. specialize (Hlen Hn).
    change (length rows <= Z.to_nat n)%nat. lia.
  - intros id row Hrow Hs.
    assert (HP : surprise_clause threshold (id, row) = true)
      by (by apply surprise_clause_spec).
    destruct (Htop id row Hrow HP) as [Hx|Hx].
    + left. by apply list_elem_of_fmap_2.
    + right. intros m Hm. apply list_elem_of_fmap in Hm as (y & -> & Hy).
      apply Hrel; [by apply Hin|done|by apply Hx].
Qed.

(** X9 ([getMemoriesByType]).  Every memory returned is stored and has
    exactly the type asked for; the result has no repetition, holds
    [min limit n] of the [n] rows of that type (all for a negative
    limit) whatever their session, and is ordered by importance
    descending then created_at descending. *)
Theorem getMemoriesByType_spec (type : string) (limit : option Z) (db : table) :
  let result := getMemoriesByType empty_object JSON_parse type limit db in
  let n := default 10 limit in
  let of_type := fun x : Z * Row.t => Row.type x.2 = type in
  (forall m, m ∈ result ->
     Memory.type m = type /\ getMemory' db (Memory.id m) = Some m)
  /\ NoDup (Memory.id <$> result)
  /\ (0 <= n -> length result = Nat.min (Z.to_nat n) (size (filter of_type db)))
  /\ (n < 0 -> length result = size (filter of_type db))
  /\ (exists rows, result = toMemory' <$> rows /\ StronglySorted by_importance_desc rows).
Proof.
  intros result n of_type.
  assert (Hspec : forall x, type_clause type x = true <-> of_type x).
  { intros x. unfold type_clause, of_type. simpl.
    case_bool_decide as Heq; simpl.
    - split; [intros _; congruence|done].
    - split; [done|]. intros Ht. destruct Heq. by f_equal. }
  destruct (table_select_spec by_importance_desc
              (fun x => type_clause type x = true) n db)
    as (Hsorted & Hin & Hlen & Hall & Htop & Hnd).
  unfold result, getMemoriesByType. fold n.
  set (rows := SQL.limit n _) in *.
  assert (Hsize : size (filter (fun x => type_clause type x = true) db)
                  = size (filter of_type db)).
  { f_equal. apply map_filter_ext. intros k r _. apply Hspec. }
  rewrite Hsize in Hlen, Hall.
  split; [|split; [|split; [|split]]].
  - intros m Hm. apply list_elem_of_fmap in Hm as ([k r] & -> & Hx).
    destruct (Hin _ Hx) as [Hk HP]. apply Hspec in HP. simpl in *.
    split; [done|]. unfold getMemory. by rewrite Hk.
  - by rewrite <- list_fmap_compose.
  - intros Hn. rewrite length_fmap. by apply Hlen.
  - intros Hn. rewrite length_fmap. by apply Hall.
  - by exists rows.
Qed.

End WithJSON.

Local Open Scope string_scope.

Lemma createMemory_frame_witness :
  exists memory db',
    createMemory Fixture.empty_object Fixture.JSON_stringify 5000
      (Fixture.options "Test memory" "fact" None None None) Fixture.two_sessions
    = Ok (memory, db')
    /\ 0 < Memory.id memory
    /\ countMemories None db' = countMemories None Fixture.two_sessions + 1.
Proof.
  destruct (createMemory Fixture.empty_object Fixture.JSON_stringify 5000
              (Fixture.options "Test memory" "fact" None None None) Fixture.two_sessions)
    as [[memory db']|] eqn:Hcreate; [|by vm_compute in Hcreate].
  destruct (createMemory_frame Fixture.empty_object Fixture.JSON_stringify
              Fixture.JSON_parse 5000 _ _ _ _ Hcreate) as (_ & _ & Hid & Hcount & _).
  by exists memory, db'.
Defined.

(** The second deletion of an id finds nothing. *)
Example deleteMemory_twice :
  let first := deleteMemory 1 Fixture.two_sessions in
  first.1 = true /\ (deleteMemory 1 first.2).1 = false /\ size first.2 = 1%nat.
Proof. repeat split; by vm_compute. Qed.

End LifecycleProps.

(** ** Entity tracking *)

Module EntitiesProps.
Import Store Entities.

#[export] Instance by_occurrence_desc_trans : Transitive by_occurrence_desc.
Proof.
  intros x y z. unfold by_occurrence_desc, cmp_int.
  destruct (EntityRow.occurrence_count x.2), (EntityRow.occurrence_count y.2),
    (EntityRow.occurrence_count z.2); try done.
  rewrite !Z.compare_le_iff. lia.
Qed.

#[export] Instance by_occurrence_desc_total : Total by_occurrence_desc.
Proof.
  intros x y. unfold by_occurrence_desc, cmp_int.
  destruct (EntityRow.occurrence_count x.2), (EntityRow.occurrence_count y.2);
    try (by left); try (by right).
  rewrite !Z.compare_le_iff. lia.
Qed.

Section WithJSON.
Context {Properties : Type}.
Variable empty_object : Properties.
Variable JSON_stringify : Properties -> option string.
Variable JSON_parse : string -> option Properties.

Abbreviation trackEntity' := (trackEntity empty_object JSON_stringify).
Abbreviation getEntity' := (getEntity empty_object JSON_parse).

(** X12 ([trackEntity], [getEntity]).  Tracking an entity is an upsert
    on the pair (type, name): a new pair is inserted with a fresh id,
    count 1 and both timestamps at now; a known pair keeps its id and
    first-seen time, has its count raised by one, its last-seen time set
    to now and its properties replaced; no other entity changes. *)
Theorem trackEntity_upsert (now : Z) (entityType entityName : string)
    (properties : option Properties) (db : entities) :
  JSON_roundtrip JSON_stringify JSON_parse ->
  let db' := trackEntity' now entityType entityName properties db in
  (db !! (entityType, entityName) = None ->
   getEntity' entityType entityName db'
   = Some {| Entity.id := next_id db;
             Entity.entityType := entityType;
             Entity.entityName := entityName;
             Entity.firstSeenAt := now;
             Entity.lastSeenAt := now;
             Entity.occurrenceCount := 1;
             Entity.properties := default empty_object properties |}
   /\ size db' = S (size db))
  /\ (forall row n, db !! (entityType, entityName) = Some row ->
      EntityRow.occurrence_count row = Some n ->
      getEntity' entityType entityName db'
      = Some {| Entity.id := EntityRow.id row;
                Entity.entityType := entityType;
                Entity.entityName := entityName;
                Entity.firstSeenAt := EntityRow.first_seen_at row;
                Entity.lastSeenAt := now;
                Entity.occurrenceCount := n + 1;
                Entity.properties := default empty_object properties |}
      /\ size db' = size db)
  /\ (forall type name, (type, name) <> (entityType, entityName) ->
      getEntity' type name db' = getEntity' type name db).
Proof.
  intros Hrt db'.
  assert (Hparse : forall fallback,
             parseJSON JSON_parse
               (serialize JSON_stringify (Some (nullish properties empty_object))) fallback
             = default empty_object properties).
  { intros fallback. by apply StoreProps.parseJSON_serialize. }
  unfold db', trackEntity, getEntity.
  split; [|split].
  - intros Hnone. rewrite Hnone. rewrite lookup_insert_eq. simpl. unfold toEntity. simpl.
    rewrite Hparse. split; [done|]. by rewrite map_size_insert_None.
  - intros row n Hrow Hn. rewrite Hrow. rewrite lookup_insert_eq. simpl.
    unfold toEntity. simpl. rewrite Hparse, Hn. simpl. split; [done|].
    by rewrite map_size_insert_Some.
  - intros type name Hne.
    destruct (db !! (entityType, entityName)); by rewrite lookup_insert_ne.
Qed.

(** X13 ([getAllEntities]).  The result is the image of stored entity
    rows, no entity twice, ordered by occurrence count descending,
    [min limit n] of the [n] entities (limit 100 by default, all of
    them for a negative limit); every entity left out has at most the
    occurrence count of each entity returned, and every entity is
    returned when the limit is at least [n] or negative. *)
Theorem getAllEntities_spec (limit : option Z) (db : entities) :
  let n := default 100 limit in
  exists rows,
    getAllEntities empty_object JSON_parse limit db
    = toEntity empty_object JSON_parse <$> rows
    /\ StronglySorted by_occurrence_desc rows
    /\ (forall x, x ∈ rows -> db !! x.1 = Some x.2)
    /\ (0 <= n -> length rows = Nat.min (Z.to_nat n) (size db))
    /\ (n < 0 -> length rows = size db)
    /\ NoDup rows.*1
    /\ (forall k r, db !! k = Some r ->
          (k, r) ∈ rows \/ forall y, y ∈ rows -> by_occurrence_desc y (k, r))
    /\ (n < 0 \/ Z.of_nat (size db) <= n ->
        forall k r, db !! k = Some r -> (k, r) ∈ rows).
Proof.
  intros n.
  destruct (LifecycleProps.select_spec by_occurrence_desc (fun _ => True) n (map_to_list db))
    as (Hsorted & Hin & Hlen & Hall & Htop & rest & Hrest).
  rewrite (StoreProps.filter_all (fun _ : string * string * EntityRow.t => True))
    in Hsorted, Hin, Hlen, Hall, Htop, Hrest by done.
  rewrite length_map_to_list in Hlen, Hall.
  eexists. split; [reflexivity|]. fold n. split; [done|]. split.
  { intros [k r] Hx. destruct (Hin _ Hx) as [Hk _]. by apply elem_of_map_to_list in Hk. }
  split; [done|]. split; [done|]. split.
  { assert (Hnd : NoDup (SQL.limit n (merge_sort by_occurrence_desc (map_to_list db))
                         ++ rest).*1).
    { rewrite Hrest. apply NoDup_fst_map_to_list. }
    rewrite fmap_app in Hnd. by apply NoDup_app in Hnd as [? _]. }
  split.
  { intros k r Hk. apply Htop; [by apply elem_of_map_to_list|done]. }
  intros Hn k r Hk. rewrite StoreProps.limit_all.
  - rewrite merge_sort_Permutation. by apply elem_of_map_to_list.
  - destruct Hn as [?|Hn]; [by left|right].
    by rewrite merge_sort_Permutation, length_map_to_list.
Qed.

End WithJSON.

Local Open Scope string_scope.

Lemma trackEntity_upsert_witness :
  getEntity Fixture.empty_object Fixture.JSON_parse "library" "React"
    (trackEntity Fixture.empty_object Fixture.JSON_stringify 1000
       "library" "React" None ∅)
  = Some {| Entity.id := 1;
            Entity.entityType := "library";
            Entity.entityName := "React";
            Entity.firstSeenAt := 1000;
            Entity.lastSeenAt := 1000;
            Entity.occurrenceCount := 1;
            Entity.properties := Fixture.empty_object |}.
Proof.
  destruct (trackEntity_upsert Fixture.empty_object Fixture.JSON_stringify
              Fixture.JSON_parse 1000 "library" "React" None ∅
              (fun v => ex_intro _ v (conj eq_refl eq_refl))) as [Hnew _].
  destruct (Hnew eq_refl) as [Hget _]. exact Hget.
Defined.

(** "should increment count for existing entities" *)
Example trackEntity_counts :
  Entity.occurrenceCount
    <$> getEntity Fixture.empty_object Fixture.JSON_parse "library" "React"
          (trackEntity Fixture.empty_object Fixture.JSON_stringify 2000 "library" "React" None
             (trackEntity Fixture.empty_object Fixture.JSON_stringify 1000
                "library" "React" None ∅))
  = Some 2.
Proof. by vm_compute. Qed.

End EntitiesProps.

(** ** The factors of the surprise score *)

Module ScorerProps.
Import Regex Surprise Orderings.
Local Open Scope Q_scope.

(** Inequalities between rational constants. *)
Ltac constants := solve [by vm_compute | split; by vm_compute].

Lemma of_nat_nonneg n : 0 <= of_nat n.
Proof. unfold of_nat, Qle. simpl. lia. Qed.

Lemma ratio_unit (a b : nat) :
  (a <= b)%nat -> (0 < b)%nat -> 0 <= of_nat a / of_nat b <= 1.
Proof.
  intros Hab Hb.
  assert (Hpos : 0 < of_nat b) by (unfold of_nat, Qlt; simpl; lia).
  split.
  - apply Qle_shift_div_l; [done|]. rewrite Qmult_0_l. apply of_nat_nonneg.
  - apply Qle_shift_div_r; [done|]. rewrite Qmult_1_l.
    unfold of_nat. rewrite <- Zle_Qle. lia.
Qed.

Lemma Qmin_nonneg a b : 0 <= a -> 0 <= b -> 0 <= Qmin a b.
Proof. intros. by apply Q.min_glb. Qed.

Lemma capped_nonneg cap n step : 0 <= cap -> 0 <= step -> 0 <= Qmin cap (of_nat n * step).
Proof.
  intros Hc Hs. apply Qmin_nonneg; [done|].
  apply Qmult_le_0_compat; [apply of_nat_nonneg|done].
Qed.

Lemma for_each_invariant {A S : Type} (I : S -> Prop) (body : S -> A -> option S)
    (acc : S) (l : list A) (r : S) :
  (forall acc x acc', I acc -> body acc x = Some acc' -> I acc') ->
  I acc -> for_each body acc l = Some r -> I r.
Proof.
  intros Hbody. revert acc. induction l as [|x l IH]; intros acc Hacc; simpl.
  - by intros [= <-].
  - destruct (body acc x) as [acc'|] eqn:E; simpl; [|done].
    apply IH. by eapply Hbody.
Qed.

Lemma count_novel_le existingMemories items count :
  count_novel existingMemories items = Some count -> (count <= length items)%nat.
Proof.
  unfold count_novel.
  assert (Hgen : forall acc r,
            for_each
              (fun count item =>
                 found ← some_includes existingMemories (Str.toLowerCase item);
                 Some (if negb found then S count else count)) acc items = Some r ->
            (r <= acc + length items)%nat); [|by apply Hgen].
  induction items as [|x items IH]; intros acc r; simpl.
  - intros [= <-]. lia.
  - destruct (some_includes _ _) as [found|]; simpl; [|done].
    intros H. apply IH in H. destruct (negb found); lia.
Qed.

Lemma measureSpecificity_unit text : 0 <= measureSpecificity text <= 1.
Proof.
  unfold measureSpecificity. split.
  - apply Qmin_nonneg; [constants|].
    set (a := Qmin 0.5 _). set (b := Qmin 0.35 _). set (c := Qmin 0.4 _).
    set (d := Qmin 0.3 _).
    assert (0 <= a) by (apply capped_nonneg; constants).
    assert (0 <= b) by (apply capped_nonneg; constants).
    assert (0 <= c) by (apply capped_nonneg; constants).
    assert (0 <= d) by (apply capped_nonneg; constants).
    repeat (match goal with |- context [if ?b then _ else _] => destruct b end);
      Lqa.lra.
  - eapply Qle_trans; [apply Q.le_min_l|constants].
Qed.

Lemma detectEmphasis_unit userContent : 0 <= detectEmphasis userContent <= 1.
Proof.
  unfold detectEmphasis. case_bool_decide; [constants|].
  split; [|eapply Qle_trans; [apply Q.le_min_l|constants]].
  apply Qmin_nonneg; [constants|].
  set (k := foldl _ _ _).
  assert (Hk : 0 <= k).
  { unfold k. generalize emphasisKeywords. intros l.
    assert (Hgen : forall acc, 0 <= acc ->
              0 <= foldl (fun score keyword =>
                            if Str.includes (Str.toLowerCase userContent) keyword
                            then score + 0.2 else score) acc l);
      [|apply Hgen; constants].
    induction l as [|x l IH]; intros acc Hacc; simpl; [done|].
    apply IH. destruct (Str.includes _ _); Lqa.lra. }
  set (a := Qmin 0.3 _). set (b := Qmin 0.2 _).
  assert (0 <= a) by (apply capped_nonneg; constants).
  assert (0 <= b) by (apply capped_nonneg; constants).
  destruct (has_repetition _); Lqa.lra.
Qed.

Lemma calculateNovelty_range newMemory existingMemories q :
  calculateNovelty newMemory existingMemories = Some q ->
  0 <= q <= 1 /\ (q <= 0.49 \/ 0.5 < q).
Proof.
  unfold calculateNovelty. case_bool_decide.
  { intros [= <-]. split; [constants|]. right. constants. }
  destruct (content newMemory) as [text|]; simpl; [|done].
  destruct (count_novel _ (extractSimpleEntities text)) as [ne|] eqn:Ee; simpl; [|done].
  destruct (count_novel _ (extractKeywords text)) as [nk|] eqn:Ek; simpl; [|done].
  apply count_novel_le in Ee, Ek.
  set (e := if (0 <? length (extractSimpleEntities text))%nat then _ else _).
  set (k := if (0 <? length (extractKeywords text))%nat then _ else _).
  assert (He : 0 <= e <= 1).
  { unfold e. destruct (Nat.ltb_spec 0 (length (extractSimpleEntities text)));
      [by apply ratio_unit|constants]. }
  assert (Hk : 0 <= k <= 1).
  { unfold k. destruct (Nat.ltb_spec 0 (length (extractKeywords text)));
      [by apply ratio_unit|constants]. }
  clearbody e k.
  assert (Havg : (e + k) / 2 == (e + k) * (1 # 2)) by reflexivity.
  set (avg := (e + k) / 2) in *. clearbody avg.
  destruct (Qle_bool avg 0.5) eqn:E; intros [= <-].
  - apply Qle_bool_iff in E.
    assert (Hlow : 0 <= avg * 0.95) by Lqa.lra.
    split; [split|left].
    + apply Qmin_nonneg; [constants|done].
    + eapply Qle_trans; [apply Q.le_min_l|constants].
    + apply Q.le_min_l.
  - assert (Hgt : 0.5 < avg).
    { apply Qnot_le_lt. intros Hle. apply Qle_bool_iff in Hle. congruence. }
    split; [split; Lqa.lra|by right].
Qed.

Lemma detectContradiction_range newMemory existingMemories q :
  detectContradiction newMemory existingMemories = Some q -> 0 <= q <= 0.8.
Proof.
  unfold detectContradiction. case_bool_decide; [intros [= <-]; constants|].
  destruct (content newMemory) as [text|]; simpl; [|done].
  apply (for_each_invariant (fun score => 0 <= score <= 0.8)); [|constants].
  intros acc mem acc' Hacc.
  destruct (content mem) as [memText|]; simpl; [|done].
  assert (Hmax : forall c, 0 <= c <= 0.8 -> 0 <= Qmax acc c <= 0.8).
  { intros c Hc. split; [eapply Qle_trans; [apply Hacc|apply Q.le_max_l]|].
    apply Q.max_lub; [apply Hacc|apply Hc]. }
  repeat (match goal with |- context [if ?b then _ else _] => destruct b end);
    intros [= <-]; try done;
    repeat (match goal with
            | |- 0 <= Qmax _ _ <= 0.8 =>
                split; [eapply Qle_trans; [|apply Q.le_max_l]|apply Q.max_lub; [|constants]]
            | |- 0 <= Qmax _ _ => eapply Qle_trans; [|apply Q.le_max_l]
            | |- Qmax _ _ <= 0.8 => apply Q.max_lub; [|constants]
            end); try apply Hacc.
Qed.

Lemma measureContextSwitch_unit newMemory existingMemories q :
  measureContextSwitch newMemory existingMemories = Some q -> 0 <= q <= 1.
Proof.
  unfold measureContextSwitch. case_bool_decide; [intros [= <-]; constants|].
  case_bool_decide; [intros [= <-]; constants|].
  destruct (content newMemory) as [text|]; simpl; [|done].
  destruct (for_each _ _ _) as [recent|]; simpl; [|done].
  intros [= <-].
  destruct (Nat.ltb_spec 0 (length (extractKeywords text))); [|constants].
  destruct (ratio_unit
              (length (filter (fun k => k ∈ recent) (extractKeywords text)))
              (length (extractKeywords text))) as [Hlo Hhi];
    [apply length_filter|done|].
  split; Lqa.lra.
Qed.

(** X14 (the five factors of [calculateSurprise]).  Whenever they
    return, novelty is in [0,1] and never in the gap (0.49, 0.5],
    contradiction is in [0,0.8], specificity and emphasis are in [0,1]
    for every text, and context switch is in [0,1]. *)
Theorem subscores_in_range newMemory existingMemories :
  (forall q, calculateNovelty newMemory existingMemories = Some q ->
     0 <= q <= 1 /\ (q <= 0.49 \/ 0.5 < q))
  /\ (forall q, detectContradiction newMemory existingMemories = Some q -> 0 <= q <= 0.8)
  /\ (forall text, 0 <= measureSpecificity text <= 1)
  /\ (forall userContent, 0 <= detectEmphasis userContent <= 1)
  /\ (forall q, measureContextSwitch newMemory existingMemories = Some q -> 0 <= q <= 1).
Proof.
  split; [intros q Hq; by apply calculateNovelty_range in Hq|].
  split; [apply detectContradiction_range|].
  split; [apply measureSpecificity_unit|].
  split; [apply detectEmphasis_unit|apply measureContextSwitch_unit].
Qed.

Lemma clamp_id x : 0 <= x <= 1 -> Qmin 1.0 (Qmax 0.0 x) == x.
Proof.
  intros [Hlo Hhi]. rewrite Q.max_r by (eapply Qle_trans; [|exact Hlo]; constants).
  apply Q.min_r. eapply Qle_trans; [exact Hhi|constants].
Qed.

Lemma weighted_sum_clamp n c p e s :
  0 <= n <= 1 -> 0 <= c <= 0.8 -> 0 <= p <= 1 -> 0 <= e <= 1 -> 0 <= s <= 1 ->
  Qmin 1.0 (Qmax 0.0 (0.0 + n * 0.30 + c * 0.40 + p * 0.15 + e * 0.10 + s * 0.05))
  == n * 0.30 + c * 0.40 + p * 0.15 + e * 0.10 + s * 0.05
  /\ n * 0.30 + c * 0.40 + p * 0.15 + e * 0.10 + s * 0.05 <= 0.92.
Proof. intros Hn Hc Hp He Hs. rewrite clamp_id; split; Lqa.lra. Qed.

Lemma weighted_sum_typed newMemory existingMemories context :
  0 <= calculateSurprise newMemory existingMemories context <= 0.92
  /\ (forall text novelty contradiction contextSwitch,
        content newMemory = Some text ->
        calculateNovelty newMemory existingMemories = Some novelty ->
        detectContradiction newMemory existingMemories = Some contradiction ->
        measureContextSwitch newMemory existingMemories = Some contextSwitch ->
        calculateSurprise newMemory existingMemories context
        == novelty * 0.30 + contradiction * 0.40 + measureSpecificity text * 0.15
           + detectEmphasis
               (default ""%string
                  (userContent (default {| userContent := None |} context))) * 0.10
           + contextSwitch * 0.05).
Proof.
  unfold calculateSurprise, surprise_body.
  destruct (calculateNovelty _ _) as [n|] eqn:En; simpl;
    [|split; [constants|by intros]].
  destruct (detectContradiction _ _) as [c|] eqn:Ec; simpl;
    [|split; [constants|by intros]].
  destruct (content newMemory) as [text|]; simpl; [|split; [constants|by intros]].
  destruct (measureContextSwitch _ _) as [s|] eqn:Es; simpl;
    [|split; [constants|by intros]].
  apply calculateNovelty_range in En as [Hn _].
  apply detectContradiction_range in Ec.
  apply measureContextSwitch_unit in Es.
  pose proof (measureSpecificity_unit text) as Hp.
  pose proof (detectEmphasis_unit
                (default ""%string
                   (userContent (default {| userContent := None |} context)))) as He.
  destruct (weighted_sum_clamp n c (measureSpecificity text)
              (detectEmphasis
                 (default ""%string
                    (userContent (default {| userContent := None |} context)))) s
              Hn Ec Hp He Es)
    as [Heq Hle].
  split.
  - rewrite Heq. set (p := measureSpecificity text) in *.
    set (e := detectEmphasis _) in *. clearbody p e. split; Lqa.lra.
  - by intros ? ? ? ? [= <-] [= <-] [= <-] [= <-].
Qed.

(** X15 ([calculateSurprise]).  The final clamp to [0,1] never changes
    the value: on every context the score lies in [0,1) (it is 0.5 on
    a [null] context, on which the read of [context.userContent]
    throws), and when the context is not [null] and no factor throws it
    is the weighted sum 0.30 novelty + 0.40 contradiction + 0.15
    specificity + 0.10 emphasis + 0.05 context switch itself. *)
Theorem calculateSurprise_weighted_sum newMemory existingMemories
    (context : Js.property Context) :
  (0 <= SurpriseCall.calculateSurprise newMemory existingMemories context
   /\ SurpriseCall.calculateSurprise newMemory existingMemories context < 1)
  /\ (context = Js.Null ->
      SurpriseCall.calculateSurprise newMemory existingMemories context = 0.5)
  /\ (forall text novelty contradiction contextSwitch,
        context <> Js.Null ->
        content newMemory = Some text ->
        calculateNovelty newMemory existingMemories = Some novelty ->
        detectContradiction newMemory existingMemories = Some contradiction ->
        measureContextSwitch newMemory existingMemories = Some contextSwitch ->
        SurpriseCall.calculateSurprise newMemory existingMemories context
        == novelty * 0.30 + contradiction * 0.40 + measureSpecificity text * 0.15
           + detectEmphasis
               (default ""%string
                  (userContent (Js.value_or {| userContent := None |} context))) * 0.10
           + contextSwitch * 0.05).
Proof.
  destruct context as [| |context]; unfold SurpriseCall.calculateSurprise.
  - destruct (weighted_sum_typed newMemory existingMemories None) as [[Hlo Hhi] Hsum].
    split; [split; [done|]|split; [done|]].
    + eapply Qle_lt_trans; [exact Hhi|constants].
    + intros text novelty contradiction contextSwitch _. apply Hsum.
  - split; [split; constants|]. split; [done|]. by intros ? ? ? ? Hnull.
  - destruct (weighted_sum_typed newMemory existingMemories (Some context))
      as [[Hlo Hhi] Hsum].
    split; [split; [done|]|split; [done|]].
    + eapply Qle_lt_trans; [exact Hhi|constants].
    + intros text novelty contradiction contextSwitch _. apply Hsum.
Qed.

Lemma no_history_typed newMemory context text :
  content newMemory = Some text ->
  calculateSurprise newMemory [] context
  == 0.3 + measureSpecificity text * 0.15
     + detectEmphasis
         (default ""%string (userContent (default {| userContent := None |} context)))
       * 0.10
  /\ 0.3 <= calculateSurprise newMemory [] context <= 0.55.
Proof.
  intros Hc.
  assert (Hsum : calculateSurprise newMemory [] context
                 == 1.0 * 0.30 + 0.0 * 0.40 + measureSpecificity text * 0.15
                    + detectEmphasis
                        (default ""%string
                           (userContent (default {| userContent := None |} context)))
                      * 0.10
                    + 0.0 * 0.05).
  { unfold calculateSurprise, surprise_body.
    change (calculateNovelty newMemory []) with (Some 1.0).
    change (detectContradiction newMemory []) with (Some 0.0).
    change (measureContextSwitch newMemory []) with (Some 0.0).
    rewrite Hc. cbn [mbind option_bind].
    apply weighted_sum_clamp;
      [constants|constants|apply measureSpecificity_unit|apply detectEmphasis_unit
      |constants]. }
  pose proof (measureSpecificity_unit text) as Hp.
  pose proof (detectEmphasis_unit
                (default ""%string
                   (userContent (default {| userContent := None |} context)))) as He.
  set (p := measureSpecificity text) in *.
  set (e := detectEmphasis _) in *. clearbody p e.
  set (v := calculateSurprise _ _ _) in *. clearbody v.
  split; [|split]; Lqa.lra.
Qed.

(** X16 ([calculateSurprise] without history).  With no existing
    memories and a content string, novelty is 1 and contradiction and
    context switch are 0: when the context is left out or is an object
    the score is 0.3 + 0.15 specificity + 0.10 emphasis; on a [null]
    context it is the 0.5 of the [catch]; in every case it lies in
    [0.3, 0.55] and is never 0. *)
Theorem calculateSurprise_no_history newMemory (context : Js.property Context) text :
  content newMemory = Some text ->
  (context <> Js.Null ->
   SurpriseCall.calculateSurprise newMemory [] context
   == 0.3 + measureSpecificity text * 0.15
      + detectEmphasis
          (default ""%string
             (userContent (Js.value_or {| userContent := None |} context)))
        * 0.10)
  /\ (context = Js.Null -> SurpriseCall.calculateSurprise newMemory [] context = 0.5)
  /\ 0.3 <= SurpriseCall.calculateSurprise newMemory [] context <= 0.55.
Proof.
  intros Hc. destruct context as [| |context]; unfold SurpriseCall.calculateSurprise.
  - destruct (no_history_typed newMemory None text Hc) as [Hsum Hrange].
    split; [by intros _|]. split; [done|exact Hrange].
  - split; [done|]. split; [done|]. split; constants.
  - destruct (no_history_typed newMemory (Some context) text Hc) as [Hsum Hrange].
    split; [by intros _|]. split; [done|exact Hrange].
Qed.

(** *** Keywords and entities *)

Lemma remove_chars p text :
  Forall (fun c => p c = false) (list_ascii_of_string (remove p text)).
Proof.
  induction text as [|c text IH]; simpl; [constructor|].
  destruct (p c) eqn:E; [done|]. simpl. by constructor.
Qed.

Lemma toLowerCase_idemp text :
  Str.toLowerCase (Str.toLowerCase text) = Str.toLowerCase text.
Proof.
  induction text as [|c text IH]; simpl; [done|]. f_equal; [|done].
  unfold toLower. destruct (is_upper c) eqn:E; [|by rewrite E].
  unfold is_upper, between, code in *.
  apply andb_true_iff in E as [E1 E2]. apply N.leb_le in E1, E2.
  rewrite N_ascii_embedding by lia.
  destruct (_ && _) eqn:E'; [|done].
  apply andb_true_iff in E' as [E3 E4]. apply N.leb_le in E3, E4. lia.
Qed.

(** X17 ([extractKeywords]).  Every keyword has more than three
    characters, is not a stopword and consists of word characters
    (letters, digits, underscore) only; the result does not depend on
    the case of the text. *)
Theorem extractKeywords_spec text :
  (forall keyword, keyword ∈ extractKeywords text ->
     (3 < Str.length keyword)%Z
     /\ (keyword ∉ stopwords)
     /\ Forall (fun c => is_word c = true) (list_ascii_of_string keyword))
  /\ extractKeywords (Str.toLowerCase text) = extractKeywords text.
Proof.
  split.
  - intros keyword Hk. unfold extractKeywords in Hk.
    apply list_elem_of_filter in Hk as [[Hlen Hstop] Hk].
    split; [done|]. split; [done|].
    apply list_elem_of_In, in_map_iff in Hk as (piece & <- & _).
    eapply Forall_impl; [apply remove_chars|].
    intros c Hc. simpl in Hc. by apply negb_false_iff in Hc.
  - unfold extractKeywords. by rewrite toLowerCase_idemp.
Qed.

Lemma set_add_NoDup e entities : NoDup entities -> NoDup (set_add e entities).
Proof.
  intros Hnd. unfold set_add. case_bool_decide; [done|].
  apply NoDup_app. split; [done|]. split; [|apply NoDup_singleton].
  intros x Hx Hx'. apply list_elem_of_singleton in Hx'. by subst.
Qed.

Lemma set_add_all_NoDup es entities : NoDup entities -> NoDup (set_add_all es entities).
Proof.
  unfold set_add_all. revert entities.
  induction es as [|e es IH]; intros entities Hnd; simpl; [done|].
  apply IH. by apply set_add_NoDup.
Qed.

Lemma set_add_elem e x entities : x ∈ set_add e entities <-> x = e \/ x ∈ entities.
Proof.
  unfold set_add. case_bool_decide.
  - split; [by right|]. by intros [->|?].
  - rewrite elem_of_app, list_elem_of_singleton. tauto.
Qed.

Lemma set_add_all_elem es x entities :
  x ∈ set_add_all es entities <-> x ∈ es \/ x ∈ entities.
Proof.
  unfold set_add_all. revert entities.
  induction es as [|e es IH]; intros entities; simpl.
  - split; [by right|]. intros [H|H]; [by apply elem_of_nil in H|done].
  - rewrite IH, set_add_elem, elem_of_cons. tauto.
Qed.

(** X18 ([extractSimpleEntities]).  The result has no repetition and
    holds exactly the proper nouns, the identifiers of 4 to 50
    characters and the file names that the three patterns match in the
    text. *)
Theorem extractSimpleEntities_set text :
  NoDup (extractSimpleEntities text)
  /\ (forall e, e ∈ extractSimpleEntities text <->
        e ∈ match_all re_proper_noun text
        \/ (e ∈ match_all re_code_id text
            /\ (4 <= Str.length e)%Z /\ (Str.length e <= 50)%Z)
        \/ e ∈ match_all re_file_name text).
Proof.
  unfold extractSimpleEntities. split.
  - repeat apply set_add_all_NoDup. constructor.
  - intros e. rewrite !set_add_all_elem, list_elem_of_filter.
    split.
    + intros [?|[[? ?]|[?|H]]]; auto. by apply elem_of_nil in H.
    + intros [?|[[? ?]|?]]; auto.
Qed.

(** *** The five most recent memories *)

Lemma sort_insert_perm m sorted : sort_insert m sorted ≡ₚ m :: sorted.
Proof.
  induction sorted as [|x rest IH]; simpl; [done|].
  destruct (_ <? _)%Z; [|done]. rewrite IH. apply Permutation_swap.
Qed.

Lemma sort_insert_sorted m sorted :
  StronglySorted newest_first sorted -> StronglySorted newest_first (sort_insert m sorted).
Proof.
  induction 1 as [|x rest Hrest IH Hx]; simpl; [repeat constructor|].
  destruct (Z.ltb_spec (created_or_zero m) (created_or_zero x)).
  - constructor; [done|]. rewrite sort_insert_perm. constructor; [|done].
    unfold newest_first. lia.
  - constructor; [by constructor|]. constructor; [unfold newest_first; lia|].
    eapply Forall_impl; [exact Hx|]. unfold newest_first. intros y. simpl. lia.
Qed.

(** X19 (the sort of [measureContextSwitch]).  Sorting by
    [createdAt || 0] descending permutes the memories, orders them
    newest first, and none of the five kept by [slice(0, 5)] is older
    than one that is dropped. *)
Theorem sort_newest_first_spec (existingMemories : list MemoryLike) :
  sort_newest_first existingMemories ≡ₚ existingMemories
  /\ StronglySorted newest_first (sort_newest_first existingMemories)
  /\ (forall recent older,
        recent ∈ take 5 (sort_newest_first existingMemories) ->
        older ∈ drop 5 (sort_newest_first existingMemories) ->
        (created_or_zero older <= created_or_zero recent)%Z).
Proof.
  assert (Hperm : sort_newest_first existingMemories ≡ₚ existingMemories).
  { unfold sort_newest_first. induction existingMemories as [|m l IH]; simpl; [done|].
    by rewrite sort_insert_perm, IH. }
  assert (Hsorted : StronglySorted newest_first (sort_newest_first existingMemories)).
  { clear Hperm. unfold sort_newest_first.
    induction existingMemories as [|m l IH]; simpl; [constructor|].
    apply sort_insert_sorted, IH. }
  split; [done|]. split; [done|].
  intros recent older Hr Ho.
  rewrite <- (take_drop 5 (sort_newest_first existingMemories)) in Hsorted.
  exact (StronglySorted_app_1_elem_of _ _ _ _ _ Hsorted Hr Ho).
Qed.

Local Open Scope string_scope.

Lemma calculateSurprise_no_history_witness :
  (0.3 <= SurpriseCall.calculateSurprise (Scenario.memory "Test memory") [] Js.Undefined
   <= 0.55)%Q.
Proof.
  destruct (calculateSurprise_no_history (Scenario.memory "Test memory") Js.Undefined
              "Test memory" eq_refl) as (_ & _ & Hrange).
  exact Hrange.
Defined.

End ScorerProps.

(** ** Ranked retrieval *)

Module RankingProps.
Import Store Retriever Ranking Orderings StoreProps LifecycleProps.

Section WithSearch.
Context {Metadata : Type}.
Variable empty_object : Metadata.
Variable JSON_parse : string -> option Metadata.
Variable extractKeywords : string -> list string.
Variable searchMemories : SearchOptions.t -> table -> result (list (Memory.t Metadata)).

Lemma calculateKeywordOverlap_unit content query :
  (0 <= calculateKeywordOverlap extractKeywords content query <= 1)%Q
  /\ (extractKeywords query = [] \/ extractKeywords content = [] ->
      calculateKeywordOverlap extractKeywords content query = 0.0%Q)
  /\ (extractKeywords query <> [] ->
      (forall k, k ∈ extractKeywords query -> k ∈ extractKeywords content) ->
      (calculateKeywordOverlap extractKeywords content query == 1)%Q).
Proof.
  unfold calculateKeywordOverlap, overlapCount.
  split; [|split].
  - destruct (_ || _) eqn:E; [split; by vm_compute|].
    apply orb_false_iff in E as [E _]. apply bool_decide_eq_false in E.
    apply (ScorerProps.ratio_unit
             (length (filter (fun k => k ∈ extractKeywords content) (extractKeywords query)))
             (length (extractKeywords query))); [apply length_filter|lia].
  - intros [-> | ->]; simpl; [done|]. by rewrite orb_true_r.
  - intros Hq Hall.
    assert (Hfilter : filter (fun k => k ∈ extractKeywords content) (extractKeywords query)
                      = extractKeywords query).
    { clear Hq. induction (extractKeywords query) as [|k l IH]; [done|].
      rewrite filter_cons_True by (apply Hall; left).
      f_equal. apply IH. intros k' Hk'. apply Hall. by right. }
    rewrite Hfilter.
    destruct (extractKeywords query) as [|k l] eqn:Eq; [done|].
    destruct (extractKeywords content) as [|c cs] eqn:Ec.
    { specialize (Hall k ltac:(left)). by apply elem_of_nil in Hall. }
    simpl. apply Qmult_inv_r. unfold Qeq. simpl. lia.
Qed.

(** X20 ([calculateRetrievalScore], [calculateKeywordOverlap]).  With
    weights that are not negative, an importance in [0,1] and a last
    access (or creation) not after now, the retrieval score lies between
    0 and the sum of the three weights. *)
Theorem calculateRetrievalScore_bounds now (memory : Candidate) query (w : Weights) :
  (0 <= recencyWeight w)%Q -> (0 <= importanceWeight w)%Q ->
  (0 <= relevanceWeight w)%Q ->
  (forall i, importance memory = Some i -> (0 <= i <= 1)%Q) ->
  or_else (lastAccessedAt memory) (createdAt memory) <= now ->
  (0 <= calculateRetrievalScore extractKeywords now memory query w
   <= Q2R (recencyWeight w) + Q2R (importanceWeight w) + Q2R (relevanceWeight w))%R.
Proof.
  intros Hr Hi Hv Himp Hage.
  apply RetrieverProps.Q2R_nonneg in Hr, Hi, Hv.
  unfold calculateRetrievalScore.
  set (age := now - or_else _ _).
  assert (Hrec : (0 < exp (- IZR age / IZR halfLifeMs) <= 1)%R).
  { split; [apply exp_pos|].
    rewrite <- exp_0.
    assert (Hneg : (- IZR age / IZR halfLifeMs <= 0)%R).
    { assert (0 <= IZR age)%R by (apply IZR_le; unfold age; lia).
      assert (0 < IZR halfLifeMs)%R by (apply IZR_lt; reflexivity).
      assert (0 < / IZR halfLifeMs)%R by (by apply Rinv_0_lt_compat).
      unfold Rdiv. nra. }
    destruct Hneg as [Hlt|Heq]; [left; by apply exp_increasing|right; by rewrite Heq]. }
  assert (Himp' : (0 <= Q2R (default 0.5%Q (importance memory)) <= 1)%R).
  { assert (Hq : (0 <= default 0.5%Q (importance memory) <= 1)%Q).
    { destruct (importance memory) as [i|]; simpl; [by apply Himp|split; by vm_compute]. }
    destruct Hq as [H0 H1]. apply Qle_Rle in H0, H1.
    rewrite RMicromega.Q2R_0 in H0. rewrite RMicromega.Q2R_1 in H1. done. }
  assert (Hov : (0 <= Q2R (calculateKeywordOverlap extractKeywords (content memory) query)
                 <= 1)%R).
  { destruct (calculateKeywordOverlap_unit (content memory) query) as [[H0 H1] _].
    apply Qle_Rle in H0, H1.
    rewrite RMicromega.Q2R_0 in H0. rewrite RMicromega.Q2R_1 in H1. done. }
  set (r := exp _) in *. set (i := Q2R (default _ _)) in *.
  set (v := Q2R (calculateKeywordOverlap _ _ _)) in *.
  clearbody r i v. nra.
Qed.

(** *** Merging the candidate pools *)

Abbreviation ids := (fmap (M := list) (@Memory.id Metadata)).

(** The invariant of the two loops of [mergeUnique]. *)
Abbreviation merged acc :=
  ((forall k : Z, k ∈ acc.1 <-> k ∈ ids acc.2) /\ NoDup (ids acc.2)).

Lemma merge_item_spec acc item :
  merged acc ->
  merged (merge_item acc item)
  /\ (forall k, k ∈ ids (merge_item acc item).2 <-> k = Memory.id item \/ k ∈ ids acc.2)
  /\ (exists kept, (merge_item acc item).2 = acc.2 ++ kept /\ kept `sublist_of` [item])
  /\ (Memory.id item ∉ ids acc.2 -> (merge_item acc item).2 = acc.2 ++ [item]).
Proof.
  intros [Hseen Hnd]. unfold merge_item. case_bool_decide as Hin.
  - apply Hseen in Hin. split; [done|]. split; [|split].
    + intros k. split; [by right|]. by intros [->|?].
    + exists []. split; [by rewrite app_nil_r|]. apply sublist_nil_l.
    + done.
  - assert (Hnew : Memory.id item ∉ ids acc.2) by (by rewrite <- Hseen).
    cbn [fst snd]. split; [split|split; [|split]].
    + intros k. cbn [fst snd].
      rewrite fmap_app, elem_of_app, elem_of_union, elem_of_singleton. simpl.
      rewrite list_elem_of_singleton, Hseen. tauto.
    + cbn [fst snd]. rewrite fmap_app. apply NoDup_app. split; [done|].
      split; [|apply NoDup_singleton].
      intros k Hk Hk'. apply list_elem_of_singleton in Hk'. by subst.
    + intros k. rewrite fmap_app, elem_of_app. simpl. rewrite list_elem_of_singleton. tauto.
    + by exists [item].
    + done.
Qed.

Lemma merge_fold_spec acc arr :
  merged acc ->
  merged (foldl merge_item acc arr)
  /\ (forall k, k ∈ ids (foldl merge_item acc arr).2 <-> k ∈ ids arr \/ k ∈ ids acc.2)
  /\ (exists kept, (foldl merge_item acc arr).2 = acc.2 ++ kept /\ kept `sublist_of` arr)
  /\ (NoDup (ids arr) -> (forall k, k ∈ ids arr -> k ∉ ids acc.2) ->
      (foldl merge_item acc arr).2 = acc.2 ++ arr).
Proof.
  revert acc. induction arr as [|item arr IH]; intros acc Hacc; simpl.
  - split; [done|]. split; [|split].
    + intros k. split; [by right|]. intros [H|?]; [by apply elem_of_nil in H|done].
    + exists []. by rewrite app_nil_r.
    + intros _ _. by rewrite app_nil_r.
  - destruct (merge_item_spec acc item Hacc) as (Hm & Hids & (kept & Hkept & Hsub) & Hfresh).
    destruct (IH _ Hm) as (Hm' & Hids' & (kept' & Hkept' & Hsub') & Hfresh').
    split; [done|]. split; [|split].
    + intros k. rewrite Hids', Hids, elem_of_cons. tauto.
    + exists (kept ++ kept'). split.
      * by rewrite Hkept', Hkept, <- app_assoc.
      * change (item :: arr) with ([item] ++ arr). by apply sublist_app.
    + intros Hnd Hnew. apply NoDup_cons in Hnd as [Hitem Hnd].
      assert (H1 : Memory.id item ∉ ids acc.2) by (apply Hnew; left).
      assert (H2 : forall k, k ∈ ids arr -> k ∉ ids (merge_item acc item).2).
      { intros k Hk. rewrite Hids. intros [->|Hk']; [done|].
        apply (Hnew k); [by right|done]. }
      rewrite (Hfresh' Hnd H2), (Hfresh H1). by rewrite <- app_assoc.
Qed.

Lemma merge_all_spec (arrays : list (list (Memory.t Metadata))) acc :
  merged acc ->
  merged (foldl (fun acc arr => foldl merge_item acc arr) acc arrays)
  /\ (forall k, k ∈ ids (foldl (fun acc arr => foldl merge_item acc arr) acc arrays).2
                <-> k ∈ ids (concat arrays) \/ k ∈ ids acc.2)
  /\ (exists kept,
        (foldl (fun acc arr => foldl merge_item acc arr) acc arrays).2 = acc.2 ++ kept
        /\ kept `sublist_of` concat arrays).
Proof.
  revert acc. induction arrays as [|arr arrays IH]; intros acc Hacc; simpl.
  - split; [done|]. split.
    + intros k. split; [by right|]. intros [H|?]; [by apply elem_of_nil in H|done].
    + exists []. by rewrite app_nil_r.
  - destruct (merge_fold_spec acc arr Hacc) as (Hm & Hids & (kept & Hkept & Hsub) & _).
    destruct (IH _ Hm) as (Hm' & Hids' & (kept' & Hkept' & Hsub')).
    split; [done|]. split.
    + intros k. rewrite Hids', Hids, fmap_app, elem_of_app. tauto.
    + exists (kept ++ kept'). split.
      * by rewrite Hkept', Hkept, <- app_assoc.
      * by apply sublist_app.
Qed.

Lemma merged_empty : merged ((∅, []) : gset Z * list (Memory.t Metadata)).
Proof.
  split; [|constructor]. intros k. cbn [fst snd]. split; intros H.
  - set_solver.
  - by apply elem_of_nil in H.
Qed.

(** X21 ([mergeUnique]).  The merged list has no two memories with the
    same id, holds exactly the ids of the arrays given, keeps the order
    of their concatenation (it is a sublist of it), and starts with the
    whole first array when that one has no repeated id. *)
Theorem mergeUnique_spec (arrays : list (list (Memory.t Metadata))) :
  NoDup (ids (mergeUnique arrays))
  /\ (forall k, k ∈ ids (mergeUnique arrays) <-> k ∈ ids (concat arrays))
  /\ mergeUnique arrays `sublist_of` concat arrays
  /\ (forall first rest, arrays = first :: rest -> NoDup (ids first) ->
      exists others, mergeUnique arrays = first ++ others).
Proof.
  unfold mergeUnique.
  destruct (merge_all_spec arrays _ merged_empty) as ([_ Hnd] & Hids & (kept & Hkept & Hsub)).
  split; [done|]. split; [|split].
  - intros k. rewrite Hids. cbn [fst snd]. split; [|by left].
    intros [?|H]; [done|by apply elem_of_nil in H].
  - cbn [fst snd] in Hkept. by rewrite Hkept.
  - intros first rest -> Hfirst. simpl.
    destruct (merge_fold_spec (∅, []) first merged_empty) as (Hm & _ & _ & Hall).
    destruct (merge_all_spec rest _ Hm) as (_ & _ & (others & Hothers & _)).
    exists others. rewrite Hothers, Hall; [done|done|].
    intros k _ H. by apply elem_of_nil in H.
Qed.

(** *** Ranking *)

Lemma score_insert_perm (x : Memory.t Metadata * R) sorted :
  score_insert x sorted ≡ₚ x :: sorted.
Proof.
  induction sorted as [|y rest IH]; simpl; [done|].
  destruct (Rlt_dec _ _); [|done]. rewrite IH. apply Permutation_swap.
Qed.

Lemma score_insert_sorted (x : Memory.t Metadata * R) sorted :
  StronglySorted higher_first sorted -> StronglySorted higher_first (score_insert x sorted).
Proof.
  induction 1 as [|y rest Hrest IH Hy]; simpl; [repeat constructor|].
  destruct (Rlt_dec x.2 y.2) as [Hlt|Hge].
  - constructor; [done|]. rewrite score_insert_perm. constructor; [|done].
    unfold higher_first. lra.
  - constructor; [by constructor|]. constructor; [unfold higher_first; lra|].
    eapply Forall_impl; [exact Hy|]. unfold higher_first. intros z. simpl. lra.
Qed.

Lemma sort_by_score_spec (scored : list (Memory.t Metadata * R)) :
  sort_by_score scored ≡ₚ scored /\ StronglySorted higher_first (sort_by_score scored).
Proof.
  unfold sort_by_score. induction scored as [|x l [IHp IHs]]; simpl.
  - split; [done|constructor].
  - split; [by rewrite score_insert_perm, IHp|by apply score_insert_sorted].
Qed.

Lemma slice0_prefix {A} (n : Z) (l : list A) :
  (exists rest, l = slice0 n l ++ rest)
  /\ (0 <= n -> (length (slice0 n l) <= Z.to_nat n)%nat).
Proof.
  unfold slice0. destruct (n <? 0) eqn:E.
  - split; [|lia]. eexists. by rewrite take_drop.
  - split; [eexists; by rewrite take_drop|]. intros _. rewrite length_take. lia.
Qed.



End WithSearch.

Local Open Scope string_scope.

Lemma calculateRetrievalScore_bounds_witness :
  (0 <= calculateRetrievalScore Surprise.extractKeywords Scenario.clock
          (candidate "Old memory about Python" (Some 0.5%Q)
             (Scenario.clock - 60 * Scenario.day) None)
          "Python" Scenario.default_weights
   <= Q2R 0.3 + Q2R 0.4 + Q2R 0.3)%R.
Proof.
  apply (calculateRetrievalScore_bounds Surprise.extractKeywords Scenario.clock
           (candidate "Old memory about Python" (Some 0.5%Q)
              (Scenario.clock - 60 * Scenario.day) None)
           "Python" Scenario.default_weights).
  - by vm_compute.
  - by vm_compute.
  - by vm_compute.
  - intros i [= <-]. split; by vm_compute.
  - by vm_compute.
Defined.

End RankingProps.

(** ** Formatting memories for the prompt *)

Module FormattingProps.
Import Formatting.
Local Open Scope string_scope.

(** X25 ([formatAge]).  The nested floors amount to one division: an
    age below one minute (a negative age included) reads "just now";
    from a minute, an hour, a day and a week on, the age is counted in
    whole minutes, hours, days and weeks respectively (weeks without
    upper bound). *)
Theorem formatAge_spec (ageMs : Z) :
  (ageMs < 60000 -> formatAge ageMs = "just now")
  /\ (60000 <= ageMs < 3600000 -> formatAge ageMs = ago (ageMs / 60000) "minute")
  /\ (3600000 <= ageMs < 86400000 -> formatAge ageMs = ago (ageMs / 3600000) "hour")
  /\ (86400000 <= ageMs < 604800000 -> formatAge ageMs = ago (ageMs / 86400000) "day")
  /\ (604800000 <= ageMs -> formatAge ageMs = ago (ageMs / 604800000) "week").
Proof.
  unfold formatAge.
  assert (Hm : ageMs / 1000 / 60 = ageMs / 60000) by (by rewrite Z.div_div by lia).
  assert (Hh : ageMs / 1000 / 60 / 60 = ageMs / 3600000).
  { rewrite Hm. by rewrite Z.div_div by lia. }
  assert (Hd : ageMs / 1000 / 60 / 60 / 24 = ageMs / 86400000).
  { rewrite Hh. by rewrite Z.div_div by lia. }
  assert (Hw : ageMs / 1000 / 60 / 60 / 24 / 7 = ageMs / 604800000).
  { rewrite Hd. by rewrite Z.div_div by lia. }
  rewrite Hw, Hd, Hh, Hm. clear Hw Hd Hh Hm.
  repeat split; intros Hage;
    repeat (match goal with
            | |- context [(0 <? ?x)%Z] => destruct (Z.ltb_spec 0 x)
            end);
    try reflexivity; exfalso; Z.to_euclidean_division_equations; lia.
Qed.

Lemma string_app_assoc (a b c : string) : (a ++ b) ++ c = a ++ b ++ c.
Proof.
  induction a as [|x a IH]; [done|].
  change (String x ((a ++ b) ++ c) = String x (a ++ b ++ c)). by f_equal.
Qed.

Lemma string_app_nil_r (a : string) : a ++ "" = a.
Proof.
  induction a as [|x a IH]; [done|]. change (String x (a ++ "") = String x a). by f_equal.
Qed.

Lemma join_nil_iff sep (lines : list string) :
  Forall (fun l => l <> "") lines -> (join sep lines = "" <-> lines = []).
Proof.
  intros Hall. split; [|by intros ->].
  destruct Hall as [|l rest Hl _]; [done|]. intros Hjoin. exfalso.
  destruct l as [|a l]; [done|]. simpl in Hjoin. by destruct rest.
Qed.

Lemma join_app sep (xs ys : list string) :
  xs <> [] -> ys <> [] -> join sep (xs ++ ys) = join sep xs ++ sep ++ join sep ys.
Proof.
  intros Hxs Hys. induction xs as [|x xs IH]; [done|].
  destruct xs as [|x' xs].
  - simpl. by destruct ys.
  - change (join sep ((x :: x' :: xs) ++ ys))
      with (x ++ sep ++ join sep ((x' :: xs) ++ ys)).
    rewrite IH by done.
    change (join sep (x :: x' :: xs)) with (x ++ sep ++ join sep (x' :: xs)).
    by rewrite !string_app_assoc.
Qed.

Section WithMetadata.
Context {Metadata : Type}.

(** X26 ([injectMemoriesIntoSystem]).  The existing system prompt is
    never lost: the result is the prompt itself, a text that starts with
    it, or a pair that carries it.  Without memories, or with a format
    other than 'system' and 'assistant_preamble', the prompt comes back
    unchanged; in 'system' format the memory block is appended after a
    newline, or stands alone when the prompt is empty or missing. *)
Theorem injectMemoriesIntoSystem_keeps_system now (existingSystem : option string)
    (memories : list (Memory.t Metadata)) (format : option string) :
  let injected := injectMemoriesIntoSystem now existingSystem memories format in
  let block := memoryBlock (formatMemoriesForContext now memories) in
  match injected with
  | System None => existingSystem = None
  | System (Some system) => exists rest, system = default "" existingSystem ++ rest
  | Preamble system memoryPreamble =>
      system = existingSystem /\ memoryPreamble = formatMemoriesForContext now memories
  end
  /\ (memories = [] -> injected = System existingSystem)
  /\ (memories <> [] -> default "system" format = "system" ->
      exists front, injected = System (Some (front ++ block))
                    /\ (front = "" \/ Some (front) = (fun s => s ++ newline) <$> existingSystem))
  /\ (default "system" format <> "system" ->
      default "system" format <> "assistant_preamble" ->
      injected = System existingSystem).
Proof.
  intros injected block. unfold injected, injectMemoriesIntoSystem.
  fold block. split; [|split; [|split]].
  - case_bool_decide; [by destruct existingSystem as [s|]; [exists ""; simpl; by rewrite string_app_nil_r|]|].
    case_bool_decide.
    + destruct existingSystem as [s|]; simpl.
      * case_bool_decide; [subst; by eexists|by eexists].
      * by eexists.
    + case_bool_decide; [done|].
      destruct existingSystem as [s|]; [|done]. exists "". simpl.
      by rewrite string_app_nil_r.
  - intros ->. done.
  - intros Hne Hfmt. rewrite bool_decide_eq_false_2 by (by destruct memories).
    rewrite bool_decide_eq_true_2 by done.
    destruct existingSystem as [s|]; simpl.
    + case_bool_decide.
      * exists "". split; [done|by left].
      * exists (s ++ newline). split; [by rewrite string_app_assoc|by right].
    + exists "". split; [done|by left].
  - intros H1 H2. case_bool_decide; [done|].
    by rewrite !bool_decide_eq_false_2 by done.
Qed.

End WithMetadata.

Lemma truthy_texts_nonempty texts : Forall (fun s => s <> "") (truthy_texts texts).
Proof.
  unfold truthy_texts. induction texts as [|[s|] texts IH]; simpl; [done| |done].
  case_bool_decide; simpl; [done|]. by constructor.
Qed.

(** X27 ([extractQueryFromMessage]).  On an array content the query of
    two arrays of blocks put together is the two queries joined by one
    space, and is the other query when one of them is empty: blocks
    that carry no text never add a separator. *)
Theorem extractQueryFromMessage_app (blocks blocks' : list Block) :
  let query := fun blocks => extractQueryFromMessage (MessageObject (ContentArray blocks)) in
  query (blocks ++ blocks')%list
  = if bool_decide (query blocks = "") then query blocks'
    else if bool_decide (query blocks' = "") then query blocks
    else query blocks ++ " " ++ query blocks'.
Proof.
  intros query. unfold query, extractQueryFromMessage.
  rewrite filter_app, fmap_app. unfold truthy_texts at 1. rewrite omap_app.
  fold (truthy_texts (block_text <$> filter (fun b => is_text b = true) blocks)).
  fold (truthy_texts (block_text <$> filter (fun b => is_text b = true) blocks')).
  set (xs := truthy_texts (block_text <$> filter _ blocks)).
  set (ys := truthy_texts (block_text <$> filter _ blocks')).
  pose proof (join_nil_iff " " xs (truthy_texts_nonempty _)) as Hxs.
  pose proof (join_nil_iff " " ys (truthy_texts_nonempty _)) as Hys.
  case_bool_decide as Ex.
  - apply Hxs in Ex. by rewrite Ex.
  - case_bool_decide as Ey.
    + apply Hys in Ey. by rewrite Ey, app_nil_r.
    + apply join_app; intros ->; [by apply Ex|by apply Ey].
Qed.

Example formatAge_examples :
  formatAge 59999 = "just now"
  /\ formatAge 60000 = "1 minute ago"
  /\ formatAge (2 * Scenario.day + 5) = "2 days ago"
  /\ formatAge (400 * Scenario.day) = "57 weeks ago"
  /\ formatAge (-5000) = "just now".
Proof. repeat split; by vm_compute. Qed.

(** A [tool_use] block, a [null] and an empty text contribute nothing. *)
Example extractQueryFromMessage_blocks :
  extractQueryFromMessage
    (MessageObject
       (ContentArray [ BlockObject (Some "text") (Some "What database");
                       BlockObject (Some "tool_use") None;
                       BlockNull;
                       BlockObject (Some "text") (Some "");
                       BlockString "do we use?" ]))
  = "What database do we use?".
Proof. by vm_compute. Qed.

End FormattingProps.

Module AccessProps.
Import Store Retriever Ranking StoreProps LifecycleProps.

Lemma increment_all_notin now ids (db : table) j :
  j ∉ ids -> increment_all now ids db !! j = db !! j.
Proof.
  unfold increment_all. revert db.
  induction ids as [|i ids IH]; intros db Hj; simpl; [done|].
  apply not_elem_of_cons in Hj as [Hne Hj]. rewrite IH by done.
  unfold incrementAccessCount. by rewrite lookup_alter_ne.
Qed.

Lemma increment_all_once now ids (db : table) j :
  NoDup ids -> j ∈ ids ->
  increment_all now ids db !! j = incrementAccessCount now j db !! j.
Proof.
  unfold increment_all. revert db.
  induction ids as [|i ids IH]; intros db Hnd Hj; simpl.
  - by apply elem_of_nil in Hj.
  - apply NoDup_cons in Hnd as [Hi Hnd]. destruct (decide (j = i)) as [->|Hne].
    + by apply (increment_all_notin now ids).
    + apply elem_of_cons in Hj as [?|Hj]; [done|]. rewrite IH by done.
      unfold incrementAccessCount. rewrite !lookup_alter_eq.
      by rewrite lookup_alter_ne.
Qed.

Lemma increment_all_size now ids (db : table) : size (increment_all now ids db) = size db.
Proof.
  unfold increment_all. revert db. induction ids as [|i ids IH]; intros db; simpl; [done|].
  rewrite IH. apply size_alter.
Qed.

Section WithSearch.
Context {Metadata : Type}.
Variable empty_object : Metadata.
Variable JSON_parse : string -> option Metadata.
Variable extractKeywords : string -> list string.
Variable searchMemories : SearchOptions.t -> table -> result (list (Memory.t Metadata)).

Lemma retrieved_ids now query options (db : table) :
  let out := retrieveRelevantMemories empty_object JSON_parse extractKeywords
               searchMemories now query options db in
  out.2 = Memory.id <$> out.1 /\ NoDup out.2.
Proof.
  intros out. unfold out, retrieveRelevantMemories.
  destruct (searchMemories _ db) as [fts|err]; cbn [fst snd]; [|split; [done|constructor]].
  split; [done|].
  set (candidates := mergeUnique _).
  set (scored := _ <$> candidates).
  destruct (RankingProps.sort_by_score_spec scored) as [Hperm _].
  destruct (RankingProps.slice0_prefix (nullish (RetrieveOptions.limit options) 10)
              (sort_by_score scored)) as [[rest Hrest] _].
  destruct (RankingProps.merge_all_spec
              [fts;
               getRecentMemories empty_object JSON_parse
                 (Some (nullish (RetrieveOptions.limit options) 10 * 2))
                 (if nullish (RetrieveOptions.includeGlobal options) true
                  then None else RetrieveOptions.sessionId options) db;
               getMemoriesByImportance empty_object JSON_parse
                 (Some (nullish (RetrieveOptions.limit options) 10 * 2))
                 (if nullish (RetrieveOptions.includeGlobal options) true
                  then None else RetrieveOptions.sessionId options) db]
              _ RankingProps.merged_empty) as ([_ Hnd] & _).
  change (foldl _ _ _).2 with candidates in Hnd.
  assert (Hfst : fst <$> scored = candidates).
  { unfold scored. generalize candidates. intros l.
    induction l as [|? ? IH]; simpl; [done|]. f_equal. exact IH. }
  assert (Hnd' : NoDup (Memory.id <$> (fst <$> sort_by_score scored))).
  { by rewrite Hperm, Hfst. }
  rewrite Hrest, !fmap_app in Hnd'. by apply NoDup_app in Hnd' as [? _].
Qed.

(** X23 (the deferred access update of [retrieveRelevantMemories]).
    Once the scheduled callback has run, every memory returned that is
    stored has its access count raised by exactly one and its last
    access set to now, with content, importance and both other
    timestamps unchanged; every other row is as before and no row
    appears or disappears. *)
Theorem retrieval_access_update now query options (db : table) :
  let out := retrieveRelevantMemories empty_object JSON_parse extractKeywords
               searchMemories now query options db in
  let db' := increment_all now out.2 db in
  (forall memory row, memory ∈ out.1 -> db !! Memory.id memory = Some row ->
     exists row',
       db' !! Memory.id memory = Some row'
       /\ Row.access_count row' = (fun n => n + 1) <$> Row.access_count row
       /\ Row.last_accessed_at row' = Some now
       /\ Row.content row' = Row.content row
       /\ Row.importance row' = Row.importance row
       /\ Row.created_at row' = Row.created_at row
       /\ Row.updated_at row' = Row.updated_at row)
  /\ (forall j, j ∉ Memory.id <$> out.1 -> db' !! j = db !! j)
  /\ (forall j, is_Some (db' !! j) <-> is_Some (db !! j)).
Proof.
  intros out db'. destruct (retrieved_ids now query options db) as [Hids Hnd].
  fold out in Hids, Hnd. split; [|split].
  - intros memory row Hm Hrow.
    assert (Hin : Memory.id memory ∈ out.2).
    { rewrite Hids. by apply list_elem_of_fmap_2. }
    unfold db'. rewrite (increment_all_once now _ db _ Hnd Hin).
    unfold incrementAccessCount. rewrite lookup_alter_eq, Hrow. simpl.
    eexists. split; [reflexivity|]. simpl. done.
  - intros j Hj. unfold db'. apply increment_all_notin. by rewrite Hids.
  - intros j. unfold db'. destruct (decide (j ∈ out.2)) as [Hin|Hout].
    + rewrite (increment_all_once now _ db _ Hnd Hin).
      unfold incrementAccessCount. rewrite lookup_alter_eq. by rewrite fmap_is_Some.
    + by rewrite increment_all_notin.
Qed.

(** X24 ([getMemoryStats]).  The statistics always exist; [total]
    counts every memory whatever the session asked for; the counts by
    type are global too and capped at 1000; [recentCount] and
    [importantCount] are both the number of memories in scope capped at
    10, hence equal and at most [total]. *)
Theorem getMemoryStats_spec (sessionId : option string) (db : table) :
  let in_scope := fun x : Z * Row.t =>
                    sessionId = None \/ Row.session_id x.2 = sessionId in
  exists stats,
    getMemoryStats empty_object JSON_parse sessionId db = Some stats
    /\ Stats.total stats = Z.of_nat (size db)
    /\ Stats.byType stats
       = (fun type =>
            (type,
             Z.of_nat (Nat.min 1000
                         (size (filter (fun x : Z * Row.t => Row.type x.2 = type) db)))))
           <$> Ranking.memory_types
    /\ Stats.recentCount stats = Z.of_nat (Nat.min 10 (size (filter in_scope db)))
    /\ Stats.importantCount stats = Stats.recentCount stats
    /\ Stats.recentCount stats <= Stats.total stats
    /\ Stats.sessionId stats = sessionId.
Proof.
  intros in_scope. eexists. split; [reflexivity|]. cbn [Stats.total Stats.byType
    Stats.recentCount Stats.importantCount Stats.sessionId].
  assert (Hscope : forall (R : relation (Z * Row.t)) `{!forall x y, Decision (R x y)}
            `{!Transitive R, !Total R},
            length (SQL.limit 10 (merge_sort R
                      (filter (fun x => session_clause sessionId x = true)
                              (map_to_list db))))
            = Nat.min 10 (size (filter in_scope db))).
  { intros R ? ? ?.
    destruct (table_select_spec R (fun x => session_clause sessionId x = true) 10 db)
      as (_ & _ & Hlen & _).
    rewrite Hlen by lia.
    replace (filter (fun x => session_clause sessionId x = true) db)
      with (filter in_scope db); [done|].
    apply map_filter_ext. intros k r _. symmetry. apply session_clause_spec. }
  assert (Hrecent : length (getRecentMemories empty_object JSON_parse (Some 10) sessionId db)
                    = Nat.min 10 (size (filter in_scope db))).
  { unfold getRecentMemories. rewrite length_fmap. apply (Hscope by_created_desc _ _ _). }
  assert (Himportant :
            length (getMemoriesByImportance empty_object JSON_parse (Some 10) sessionId db)
            = Nat.min 10 (size (filter in_scope db))).
  { unfold getMemoriesByImportance. rewrite length_fmap.
    apply (Hscope by_importance_desc _ _ _). }
  split; [done|]. split.
  { apply list_fmap_ext. intros _ type _. f_equal. f_equal.
    unfold Queries.getMemoriesByType. rewrite length_fmap.
    destruct (table_select_spec by_importance_desc
                (fun x => Queries.type_clause type x = true) 1000 db)
      as (_ & _ & Hlen & _).
    change (nullish (Some 1000) 10) with 1000. rewrite Hlen by lia.
    replace (filter (fun x => Queries.type_clause type x = true) db)
      with (filter (fun x : Z * Row.t => Row.type x.2 = type) db); [done|].
    apply map_filter_ext. intros k r _. unfold Queries.type_clause. simpl.
    case_bool_decide as Heq; simpl.
    - split; [done|]. intros _. congruence.
    - split; [|done]. intros Ht. destruct Heq. by f_equal. }
  rewrite Hrecent, Himportant. split; [done|]. split; [done|]. split; [|done].
  unfold countMemories. pose proof (map_size_filter in_scope db). lia.
Qed.

End WithSearch.
End AccessProps.

Module ForgetProps.
Import Tools Forget.
Local Open Scope string_scope.

Section WithSearch.
Context {Metadata : Type}.
Variable searchMemories :
  SearchOptions.t -> Store.table -> result (list (Memory.t Metadata)).

Lemma delete_all_spec (matches : list (Memory.t Metadata)) (db : Store.table) :
  (delete_all matches db).2 = filter (fun x => x.1 ∉ Memory.id <$> matches) db
  /\ (delete_all matches db).1
     = Z.of_nat (size db) - Z.of_nat (size (delete_all matches db).2).
Proof.
  unfold delete_all.
  assert (Hgen : forall n (db0 : Store.table),
            let out := foldl (fun '(deletedCount, db) memory =>
                                let '(deleted, db') :=
                                  Store.deleteMemory (Memory.id memory) db in
                                (if deleted then deletedCount + 1 else deletedCount, db'))
                             (n, db0) matches in
            out.2 = filter (fun x => x.1 ∉ Memory.id <$> matches) db0
            /\ out.1 = (n + (Z.of_nat (size db0) - Z.of_nat (size out.2)))%Z).
  { induction matches as [|m matches IH]; intros n db0; cbn [foldl fst snd].
    - split; [|lia]. symmetry. apply map_filter_id. intros k r _ Hk.
      by apply elem_of_nil in Hk.
    - rewrite LifecycleProps.deleteMemory_eq.
      destruct (IH (if bool_decide (is_Some (db0 !! Memory.id m)) then (n + 1)%Z else n)
                   (delete (Memory.id m) db0)) as [Hdb Hcount].
      split.
      + rewrite Hdb. apply map_eq. intros j.
        rewrite !map_lookup_filter. destruct (decide (j = Memory.id m)) as [->|Hne].
        * rewrite lookup_delete_eq. simpl. destruct (db0 !! Memory.id m); [|done]. simpl.
          rewrite option_guard_False; [done|]. intros Hn. apply Hn. by left.
        * rewrite lookup_delete_ne by done. destruct (db0 !! j) as [r|]; [|done]. simpl.
          apply option_guard_iff. simpl. rewrite not_elem_of_cons. tauto.
      + rewrite Hcount. destruct (db0 !! Memory.id m) as [r|] eqn:E.
        * rewrite bool_decide_eq_true_2 by (by eexists).
          rewrite map_size_delete_Some by (by eexists).
          assert (size db0 <> 0%nat) by (apply map_size_non_empty_iff; intros ->; done).
          lia.
        * rewrite bool_decide_eq_false_2 by (by intros [? ?]).
          by rewrite map_size_delete_None. }
  destruct (Hgen 0%Z db) as [H1 H2]. split; [done|]. rewrite H2. lia.
Qed.

(** X28 ([memory_forget]).  The tool only ever removes rows.  The store
    is unchanged whenever the call reports [ok: false] and whenever
    [confirm] is not truthy.  With a non-empty query string, a search
    that succeeds and a truthy [confirm], the call reports [ok: true],
    the store loses exactly the rows whose id is among the matches, and
    [deletedCount] is the number of rows removed. *)
Theorem memory_forget_spec now (args : Args) (context : ToolContext) (db : Store.table) :
  let out := memory_forget searchMemories now args context db in
  let confirmed := negb (not (or_default (arg_confirm args) (JBoolean false))) in
  let search := fun query =>
    searchMemories {| SearchOptions.query := query;
                      SearchOptions.limit := 50;
                      SearchOptions.sessionId := id <$> session context |} db in
  (ok out.1 = false -> out.2 = db)
  /\ (confirmed = false -> out.2 = db)
  /\ (forall j row, out.2 !! j = Some row -> db !! j = Some row)
  /\ (forall query matches,
        arg_query args = JString query -> query <> "" ->
        search query = Ok matches -> confirmed = true ->
        ok out.1 = true
        /\ out.2 = filter (fun x => x.1 ∉ Memory.id <$> matches) db
        /\ (matches <> [] ->
            metadata out.1
            = Some (JsonObj [field "deletedCount"
                               (JsonInt (Z.of_nat (size db) - Z.of_nat (size out.2)))]))).
Proof.
  intros out confirmed search.
  assert (Hcases :
            out.2 = db /\ (ok out.1 = true -> forall query matches,
                             arg_query args = JString query -> query <> "" ->
                             search query = Ok matches -> matches = [])
            \/ exists query matches,
                 arg_query args = JString query /\ query <> ""
                 /\ search query = Ok matches /\ matches <> [] /\ confirmed = true
                 /\ ok out.1 = true
                 /\ out.2 = (delete_all matches db).2
                 /\ metadata out.1
                    = Some (JsonObj [field "deletedCount"
                                       (JsonInt (delete_all matches db).1)])).
  { unfold out, memory_forget, confirmed.
    destruct (arg_query args) as [| |b|q| |negative|query|] eqn:Equery; simpl;
      try (left; split; [done|]; by intros ? ? ? [=]).
    - destruct (negb b || _); left; (split; [done|]); by intros ? ? ? [=].
    - destruct (Qeq_bool q 0 || _); left; (split; [done|]); by intros ? ? ? [=].
    - case_bool_decide as Hq; simpl.
      { left. split; [done|]. intros ? ? ? [= <-]. done. }
      fold (search query). destruct (search query) as [matches|err] eqn:Esearch.
      2:{ left. split; [done|]. done. }
      case_bool_decide as Hlen; simpl.
      { left. split; [done|]. intros _ ? ? [= <-] _ Hs. rewrite Esearch in Hs.
        injection Hs as <-. by apply nil_length_inv. }
      destruct (not (or_default (arg_confirm args) (JBoolean false))) eqn:Econfirm; simpl.
      { left. split; [done|]. done. }
      right. exists query, matches.
      destruct (delete_all matches db) as [deletedCount db'] eqn:Edel. simpl.
      repeat split; try done. intros ->. done. }
  split; [|split; [|split]].
  - destruct Hcases as [[Hdb _]|(? & ? & _ & _ & _ & _ & _ & Hok & _)]; [done|congruence].
  - destruct Hcases as [[Hdb _]|(? & ? & _ & _ & _ & _ & Hc & _)]; [done|congruence].
  - intros j row. destruct Hcases as [[-> _]|(? & matches & _ & _ & _ & _ & _ & _ & -> & _)];
      [done|].
    destruct (delete_all_spec matches db) as [-> _].
    rewrite map_lookup_filter_Some. by intros [? _].
  - intros query matches Hquery Hne Hsearch Hconfirmed.
    destruct Hcases as [[Hdb Hempty]|(query' & matches' & Hq' & _ & Hs' & _ & _ & Hok & Hdb & Hmeta)].
    + assert (Hnil : ok out.1 = true -> matches = []) by (intros Hok; by eapply Hempty).
      revert Hnil Hdb. unfold out, memory_forget. rewrite Hquery. simpl.
      rewrite bool_decide_eq_false_2 by done. simpl. fold (search query). rewrite Hsearch.
      case_bool_decide as Hlen; simpl.
      * apply nil_length_inv in Hlen. subst matches. intros _ _.
        split; [done|]. split; [|done]. symmetry. apply map_filter_id. intros k r _ Hk.
        by apply elem_of_nil in Hk.
      * unfold confirmed in Hconfirmed. apply negb_true_iff in Hconfirmed.
        rewrite Hconfirmed. destruct (delete_all matches db) as [deletedCount db'].
        simpl. intros Hnil. by rewrite Hnil in Hlen.
    + rewrite Hquery in Hq'. injection Hq' as <-. rewrite Hsearch in Hs'.
      injection Hs' as <-. destruct (delete_all_spec matches db) as [Hfilter Hcount].
      split; [done|]. split; [by rewrite Hdb|]. intros _.
      rewrite Hmeta, Hcount, Hdb. done.
Qed.

End WithSearch.

(** A search that matches every memory of the store, to run the tool. *)
Example memory_forget_needs_confirmation :
  let search := fun (_ : SearchOptions.t) db =>
    Ok (Store.getRecentMemories Fixture.empty_object Fixture.JSON_parse (Some 50) None db) in
  let args := fun confirm => {| arg_query := JString "session"; arg_confirm := confirm |} in
  let preview := memory_forget search 5000 (args JUndefined) Scenario.no_session
                   Fixture.two_sessions in
  let done := memory_forget search 5000 (args (JBoolean true)) Scenario.no_session
                Fixture.two_sessions in
  ok preview.1 = false /\ size preview.2 = 2%nat
  /\ ok done.1 = true /\ size done.2 = 0%nat.
Proof. repeat split; by vm_compute. Qed.

End ForgetProps.

Module AddProps.
Import Tools.
Local Open Scope string_scope.

Section WithJSON.
Context {Metadata : Type}.
Variable empty_object : Metadata.
Variable JSON_stringify : Metadata -> option string.
Variable manual_entry : Z -> Metadata.

(** X29 ([memory_add], success).  With an arguments object whose
    content is a non-empty string, whose type is among the five allowed
    (default "fact") and whose importance is a number in [0,1]
    (default 0.5), and with a context that is not [null], the promise
    is fulfilled with [ok: true] and the new id, and one new row is
    stored: content, type and importance as given, the category given
    ("general" when it is left out, NULL when it is [null]), the
    session of the context, surprise score 0.5 and access count 0; all
    other rows are unchanged. *)
Theorem memory_add_stores now (args : Args) (context : Js.property ToolContext)
    (db : Store.table) (content type : string) (importance : Q) :
  arg_content args = JString content -> content <> "" ->
  or_default (arg_type args) (JString "fact") = JString type -> type ∈ memory_types ->
  or_default (arg_importance args) (JNumber 0.5%Q) = JNumber importance ->
  (0 <= importance <= 1)%Q ->
  context <> Js.Null ->
  let memoryId := Store.next_rowid db in
  exists result db',
    memory_add empty_object JSON_stringify manual_entry now (Some args) context db
    = Ok (result, db')
    /\ ok result = true
    /\ metadata result = Some (JsonObj [field "memoryId" (JsonInt memoryId)])
    /\ db !! memoryId = None
    /\ (forall j, j <> memoryId -> db' !! j = db !! j)
    /\ exists row,
         db' !! memoryId = Some row
         /\ Row.content row = content
         /\ Row.type row = type
         /\ Row.category row
            = match arg_category args with
              | Js.Undefined => Some "general"
              | Js.Null => None
              | Js.Given category => Some category
              end
         /\ Row.importance row = Some importance
         /\ Row.surprise_score row = Some 0.5%Q
         /\ Row.session_id row
            = match context with
              | Js.Given context => id <$> session context
              | _ => None
              end
         /\ Row.access_count row = Some 0%Z
         /\ Row.created_at row = now
         /\ Row.metadata row = JSON_stringify (manual_entry now).
Proof.
  intros Hcontent Hne Htype Hin Himportance [H0 H1] Hcontext memoryId.
  assert (Htne : type <> "").
  { intros ->. unfold memory_types in Hin.
    repeat (apply elem_of_cons in Hin as [?|Hin]; [done|]). by apply elem_of_nil in Hin. }
  unfold memory_add. rewrite Hcontent, Htype, Himportance. simpl.
  rewrite bool_decide_eq_false_2 by done. simpl.
  rewrite bool_decide_eq_true_2 by done. simpl.
  apply Qle_bool_iff in H0, H1. rewrite H0, H1. simpl.
  unfold RawStore.createMemory. simpl.
  rewrite !bool_decide_eq_false_2 by done. simpl.
  fold memoryId.
  destruct context as [| |context]; [|done|];
    (eexists _, _; split; [reflexivity|]; simpl;
     split; [done|]; split; [done|];
     split; [apply StoreProps.next_rowid_fresh|];
     split; [intros j Hj; by rewrite lookup_insert_ne|];
     eexists; rewrite lookup_insert_eq; split; [reflexivity|]; simpl;
     split; [done|]; split; [done|]; split; [by destruct (arg_category args)|];
     split; [done|]; split; [done|]; split; [|done]).
  - done.
  - by destruct (session context).
Qed.

End WithJSON.

Lemma memory_add_stores_witness :
  exists result db',
    memory_add Fixture.empty_object Fixture.JSON_stringify Fixture.manual_entry 1000
      (Some (Scenario.add_args (JString "Remember this") JUndefined JUndefined))
      (Js.Given Scenario.no_session) ∅
    = Ok (result, db')
    /\ ok result = true
    /\ exists row, db' !! 1 = Some row
                   /\ Row.type row = "fact"
                   /\ Row.category row = Some "general"
                   /\ Row.importance row = Some 0.5%Q
                   /\ Row.surprise_score row = Some 0.5%Q.
Proof.
  destruct (memory_add_stores Fixture.empty_object Fixture.JSON_stringify
              Fixture.manual_entry 1000
              (Scenario.add_args (JString "Remember this") JUndefined JUndefined)
              (Js.Given Scenario.no_session) ∅ "Remember this" "fact" 0.5%Q
              eq_refl ltac:(discriminate) eq_refl ltac:(by apply (bool_decide_unpack _))
              eq_refl ltac:(split; by vm_compute) ltac:(discriminate))
    as (result & db' & Hrun & Hok & _ & _ & _ & row & Hrow & _ & Htype & Hcategory
        & Himportance & Hsurprise & _).
  exists result, db'. split; [exact Hrun|]. split; [exact Hok|]. by exists row.
Defined.

(** [category: null] is stored as NULL, not as "general". *)
Example memory_add_null_category :
  exists result db' row,
    memory_add Fixture.empty_object Fixture.JSON_stringify Fixture.manual_entry 1000
      (Some {| arg_content := JString "Remember this";
               arg_type := JUndefined;
               arg_category := Js.Null;
               arg_importance := JUndefined |})
      Js.Undefined ∅
    = Ok (result, db')
    /\ ok result = true
    /\ db' !! 1 = Some row
    /\ Row.category row = None.
Proof. eexists _, _, _. split; [reflexivity|]. repeat split; by vm_compute. Qed.

End AddProps.
